(** * jedi.evaluate.compiled.subprocess

    A shallow embedding of [jedi/evaluate/compiled/subprocess/__init__.py]:
    the host side ([get_subprocess], [_Subprocess], [_CompiledSubprocess],
    [EvaluatorSubprocess], [_ModifiedUnpickler]), the worker side
    ([Listener]) and the handle class [AccessHandle] that both share.

    Python objects that are compared by identity or mutated through several
    references live in explicit stores and are named by references;
    exceptions are values of an error monad whose state survives a raise. *)

From stdpp Require Import gmap strings list fin_maps.
From Stdlib Require Import ZArith Lia.

Set Warnings "-register-all".

Local Open Scope Z_scope.
Local Open Scope string_scope.
Local Open Scope list_scope.

(** ** Exceptions and results *)

(** The exception classes the module raises or meets, with the two roots of
    Python's hierarchy that matter to [except Exception]: the classes below
    [Exception] and those directly below [BaseException]. *)
Inductive exc_class :=
| BaseException
| SystemExit
| KeyboardInterrupt
| GeneratorExit
| KeyError
| IndexError
| EOFError
| AttributeError
| AssertionError
| TypeError
| UnpicklingError
| BrokenPipeError
| ReferenceError
| OtherException (name : string).

Inductive exc_arg :=
| NoArg
| StrArg (s : string)
| IntArg (z : Z).

(** An exception object: its class and the argument it was built with. *)
Record pyexc := PyExc { exc_type : exc_class; exc_value : exc_arg }.

#[global] Instance exc_class_eq_dec : EqDecision exc_class.
Proof. solve_decision. Defined.
#[global] Instance exc_arg_eq_dec : EqDecision exc_arg.
Proof. solve_decision. Defined.
#[global] Instance pyexc_eq_dec : EqDecision pyexc.
Proof. solve_decision. Defined.

(** [isinstance(e, Exception)] *)
Definition derives_Exception (c : exc_class) : bool :=
  match c with
  | BaseException | SystemExit | KeyboardInterrupt | GeneratorExit => false
  | _ => true
  end.

(** [isinstance(e, EOFError)] *)
Definition is_EOFError (c : exc_class) : bool :=
  match c with EOFError => true | _ => false end.

Inductive res (A : Type) :=
| Ok (a : A)
| Raise (e : pyexc).
Arguments Ok {A} a.
Arguments Raise {A} e.

(** Code that mutates a state [S] and may raise: the state reached when the
    exception is raised is kept, as Python keeps the effects made so far. *)
Definition Py (S A : Type) : Type := S -> S * res A.

Definition ret {S A} (a : A) : Py S A := fun s => (s, Ok a).
Definition raise {S A} (e : pyexc) : Py S A := fun s => (s, Raise e).
Definition bind {S A B} (m : Py S A) (k : A -> Py S B) : Py S B :=
  fun s => match m s with
           | (s', Ok a) => k a s'
           | (s', Raise e) => (s', Raise e)
           end.
Definition get {S} : Py S S := fun s => (s, Ok s).
Definition modify {S} (f : S -> S) : Py S unit := fun s => (f s, Ok tt).
Definition lift_res {S A} (r : res A) : Py S A := fun s => (s, r).

Declare Scope py_scope.
Delimit Scope py_scope with py.
Notation "x <- m ;; k" := (bind m (fun x => k))
  (at level 100, m at next level, right associativity) : py_scope.
Notation "m ;; k" := (bind m (fun _ => k))
  (at level 100, right associativity) : py_scope.
Local Open Scope py_scope.

(** ** Objects *)

(** References to objects of a process: the identity that [is] compares. *)
Abbreviation ref := nat.

(** [DirectObjectAccess(evaluator, obj)] of [jedi.evaluate.compiled.access],
    kept as the constructor call: the evaluator it was given (by [id], none
    once the weak reference is dead) and the [id] of the wrapped object. *)
Inductive DirectObjectAccess :=
| DirectObjectAccess_new (evaluator : option Z) (obj : Z).

(** class AccessHandle *)
Module AccessHandle.

(** The instance dictionary: each of the three attributes the class ever
    sets is present or not. *)
Record t := Make {
  access : option DirectObjectAccess;
  _subprocess : option ref;
  id : option Z
}.

(** [object.__new__(AccessHandle)]: what pickle builds before BUILD. *)
Definition __new__ : t := Make None None None.

Definition __init__ (subprocess : ref) (access_ : DirectObjectAccess) (id_ : Z) : t :=
  Make (Some access_) (Some subprocess) (Some id_).

Definition add_subprocess (self : t) (subprocess : ref) : t :=
  Make (access self) (Some subprocess) (id self).

Definition __setstate__ (self : t) (state : Z) : t :=
  Make (access self) (_subprocess self) (Some state).

(** What an attribute access evaluates to. *)
Inductive attr :=
| AttrAccess (a : DirectObjectAccess)
| AttrSubprocess (r : ref)
| AttrId (z : Z)
| AttrMethod (name : string)           (* a method of the class, bound *)
| AttrCompiledMethod (name : string).  (* the closure [compiled_method] *)

Definition bookkeeping : list string := ["id"; "_subprocess"; "access"].

Definition __getattr__ (self : t) (name : string) : res attr :=
  if bool_decide (name ∈ bookkeeping)
  then Raise (PyExc AttributeError (StrArg "Something went wrong with unpickling"))
  else Ok (AttrCompiledMethod name).

(** The names the class body defines. *)
Definition class_dict : list string :=
  ["__init__"; "add_subprocess"; "__getstate__"; "__setstate__"; "__getattr__"].

(** The instance dictionary as a lookup by name. *)
Definition instance_dict (self : t) (name : string) : option attr :=
  if String.eqb name "access" then AttrAccess <$> access self
  else if String.eqb name "_subprocess" then AttrSubprocess <$> _subprocess self
  else if String.eqb name "id" then AttrId <$> id self
  else None.

(** [self.name]: the instance dictionary, then the class, and
    [__getattr__] only when both miss. The attributes every [object] has
    ([__class__], [__dict__], ...) are not modelled. *)
Definition getattr (self : t) (name : string) : res attr :=
  match instance_dict self name with
  | Some v => Ok v
  | None =>
      if bool_decide (name ∈ class_dict) then Ok (AttrMethod name)
      else __getattr__ self name
  end.

(** [self.id] and [self._subprocess] where the code goes on with the
    number or the reference; an access yields no other kind of value. *)
Definition get_id (self : t) : res Z :=
  match getattr self "id" with
  | Ok (AttrId z) => Ok z
  | Ok _ => Raise (PyExc TypeError NoArg)
  | Raise e => Raise e
  end.

Definition get_subprocess_ (self : t) : res ref :=
  match getattr self "_subprocess" with
  | Ok (AttrSubprocess r) => Ok r
  | Ok _ => Raise (PyExc TypeError NoArg)
  | Raise e => Raise e
  end.

Definition __getstate__ (self : t) : res Z := get_id self.

End AccessHandle.

(** ** Values *)

(** The values that travel in requests and responses. [H] is what stands
    for an [AccessHandle]: a reference to the instance inside a process, the
    bare [id] that [__getstate__] returns on the wire. *)
Inductive pyval (H : Type) :=
| VNone
| VBool (b : bool)
| VInt (z : Z)
| VStr (s : string)
| VTuple (l : list (pyval H))
| VHandle (h : H)
| VExc (e : pyexc).
Arguments VNone {H}.
Arguments VBool {H} b.
Arguments VInt {H} z.
Arguments VStr {H} s.
Arguments VTuple {H} l.
Arguments VHandle {H} h.
Arguments VExc {H} e.

Abbreviation pyobj := (pyval ref).
Abbreviation wire := (pyval Z).

(** [isinstance(v, AccessHandle)] *)
Definition is_AccessHandle {H} (v : pyval H) : bool :=
  match v with VHandle _ => true | _ => false end.

(** Visit a value left to right, running [f] at every handle. *)
Fixpoint traverse {S H1 H2} (f : H1 -> Py S H2) (v : pyval H1) : Py S (pyval H2) :=
  match v with
  | VNone => ret VNone
  | VBool b => ret (VBool b)
  | VInt z => ret (VInt z)
  | VStr s => ret (VStr s)
  | VTuple l =>
      l' <- (fix items (l : list (pyval H1)) : Py S (list (pyval H2)) :=
               match l with
               | [] => ret []
               | x :: r => x' <- traverse f x ;; r' <- items r ;; ret (x' :: r')
               end) l ;;
      ret (VTuple l')
  | VHandle h => h' <- f h ;; ret (VHandle h')
  | VExc e => ret (VExc e)
  end.

Fixpoint mapM {S A B} (f : A -> Py S B) (l : list A) : Py S (list B) :=
  match l with
  | [] => ret []
  | x :: r => x' <- f x ;; r' <- mapM f r ;; ret (x' :: r')
  end.

(** The same over the items of a keyword dictionary, in its order. *)
Definition mapM_items {S A B} (f : A -> Py S B) (d : list (string * A))
  : Py S (list (string * B)) :=
  mapM (fun kv => v' <- f kv.2 ;; ret (kv.1, v')) d.

(** A call request [(evaluator_id, function, args, kwargs)]. A function
    travels as the name of an attribute of the module [functions]. *)
Record CallRequest (H : Type) := Request {
  req_evaluator_id : option Z;
  req_function : option string;
  req_args : list (pyval H);
  req_kwargs : list (string * pyval H)
}.
Arguments Request {H} _ _ _ _.
Arguments req_evaluator_id {H} _.
Arguments req_function {H} _.
Arguments req_args {H} _.
Arguments req_kwargs {H} _.

(** A call response [(is_exception, result)]. *)
Abbreviation CallResponse H := (bool * pyval H)%type.

(** ** The memory of one process *)

Record EvaluatorSubprocess_attrs := SubprocessAttrs {
  _used : bool;
  _compiled_subprocess : ref
}.

(** An instance of a subclass of [_EvaluatorProcess]: the attributes of the
    base class and, for an [EvaluatorSubprocess], its own two (an
    [EvaluatorSameProcess] has none). The weak reference is the referent's
    reference; it is dead when the memory holds no such evaluator. *)
Record _EvaluatorProcess := EvaluatorProcess {
  _evaluator_weakref : ref;
  _evaluator_id : Z;
  _handles : gmap Z ref;
  subclass : option EvaluatorSubprocess_attrs
}.

(** Modelled from the spec: the class [Evaluator] of [jedi.evaluate] is not
    part of this module. A session's state "owns its own nested registry of
    RemoteHandles": the attribute [compiled_subprocess] that [Listener._run]
    reads is the reference of that registry's owner. *)
Record Evaluator := MkEvaluator { compiled_subprocess : ref }.

Record Memory := MkMemory {
  handles : gmap ref AccessHandle.t;
  endpoints : gmap ref _EvaluatorProcess;
  evaluators : gmap ref Evaluator;
  next_ref : ref
}.

Definition empty_memory : Memory := MkMemory ∅ ∅ ∅ 0%nat.

(** [id(obj)] of the object at a reference, and [id(None)]: CPython gives
    the address, here the reference number, and a number no object has. *)
Definition py_id (r : ref) : Z := Z.of_nat r.
Definition py_id_None : Z := -1.

Definition set_handles (f : gmap ref AccessHandle.t -> gmap ref AccessHandle.t)
  (m : Memory) : Memory :=
  MkMemory (f (handles m)) (endpoints m) (evaluators m) (next_ref m).
Definition set_endpoints (f : gmap ref _EvaluatorProcess -> gmap ref _EvaluatorProcess)
  (m : Memory) : Memory :=
  MkMemory (handles m) (f (endpoints m)) (evaluators m) (next_ref m).
Definition set_evaluators (f : gmap ref Evaluator -> gmap ref Evaluator)
  (m : Memory) : Memory :=
  MkMemory (handles m) (endpoints m) (f (evaluators m)) (next_ref m).

(** A new object gets the next reference; none is ever given twice. *)
Definition fresh : Py Memory ref :=
  fun m => (MkMemory (handles m) (endpoints m) (evaluators m) (S (next_ref m)),
            Ok (next_ref m)).

(** Python has no dangling reference; a store that misses the object it is
    asked for answers with this exception, which no run starting from
    well-formed stores meets. *)
Definition dangling : pyexc := PyExc ReferenceError NoArg.

Definition from_option {S A} (o : option A) (e : pyexc) : Py S A :=
  match o with Some a => ret a | None => raise e end.

Definition read_handle (h : ref) : Py Memory AccessHandle.t :=
  m <- get ;; from_option (handles m !! h) dangling.
Definition read_endpoint (r : ref) : Py Memory _EvaluatorProcess :=
  m <- get ;; from_option (endpoints m !! r) dangling.
Definition read_evaluator (r : ref) : Py Memory Evaluator :=
  m <- get ;; from_option (evaluators m !! r) dangling.

Definition new_handle (obj : AccessHandle.t) : Py Memory ref :=
  r <- fresh ;; modify (set_handles <[r := obj]>) ;; ret r.

(** [handle.id] and [handle.add_subprocess(subprocess)] through a reference *)
Definition handle_id (h : ref) : Py Memory Z :=
  obj <- read_handle h ;; lift_res (AccessHandle.get_id obj).

Definition handle_add_subprocess (h : ref) (subprocess : ref) : Py Memory unit :=
  obj <- read_handle h ;;
  modify (set_handles <[h := AccessHandle.add_subprocess obj subprocess]>).

(** ** Pickling *)

(** [pickle.dumps]: an [AccessHandle] is reduced to [__getstate__()]. *)
Definition pickle_handle (h : ref) : Py Memory Z :=
  obj <- read_handle h ;; lift_res (AccessHandle.__getstate__ obj).

Definition pickle_dumps (v : pyobj) : Py Memory wire := traverse pickle_handle v.

(** BUILD of the stock unpickler: a new instance, then [__setstate__]. *)
Definition load_build (state : Z) : Py Memory ref :=
  new_handle (AccessHandle.__setstate__ AccessHandle.__new__ state).

(** [pickle.loads]. Every pickled handle is built anew; the memo that makes
    one instance of an object pickled twice in one value is left out. *)
Definition pickle_loads (w : wire) : Py Memory pyobj := traverse load_build w.

(** ** class _EvaluatorProcess *)

Definition get_access_handle (self : ref) (id_ : Z) : Py Memory ref :=
  ep <- read_endpoint self ;;
  from_option (_handles ep !! id_) (PyExc KeyError (IntArg id_)).

Definition set_access_handle (self : ref) (handle : ref) : Py Memory unit :=
  id_ <- handle_id handle ;;
  ep <- read_endpoint self ;;
  modify (set_endpoints
    <[self := EvaluatorProcess (_evaluator_weakref ep) (_evaluator_id ep)
                (<[id_ := handle]> (_handles ep)) (subclass ep)]>).

(** [except exc_class:] around [body] *)
Definition try_except {S A} (body : Py S A) (c : exc_class) (handler : Py S A) : Py S A :=
  fun s => match body s with
           | (s', Raise e) =>
               if decide (exc_type e = c) then handler s' else (s', Raise e)
           | r => r
           end.

(** [self._evaluator_weakref()]: the referent, or none once it is gone. *)
Definition deref_weakref (self : ref) : Py Memory (option ref) :=
  ep <- read_endpoint self ;;
  m <- get ;;
  ret (match evaluators m !! _evaluator_weakref ep with
       | Some _ => Some (_evaluator_weakref ep)
       | None => None
       end).

(** [obj] is given by its [id]. *)
Definition get_or_create_access_handle (self : ref) (obj : Z) : Py Memory ref :=
  let id_ := obj in
  try_except (get_access_handle self id_) KeyError
    (ev <- deref_weakref self ;;
     let access := DirectObjectAccess_new (py_id <$> ev) obj in
     handle <- new_handle (AccessHandle.__init__ self access id_) ;;
     set_access_handle self handle ;;
     ret handle).

(** ** class _ModifiedUnpickler *)

Module _ModifiedUnpickler.

Definition get_access_handle (_subprocess : ref) (access_handle : ref) : Py Memory ref :=
  try_except
    (id_ <- handle_id access_handle ;; get_access_handle _subprocess id_)
    KeyError
    (handle_add_subprocess access_handle _subprocess ;;
     set_access_handle _subprocess access_handle ;;
     ret access_handle).

(** The stock BUILD, then the instance on top of the stack is exchanged.
    BUILD runs for an [AccessHandle] only here: the other values of
    [pyval] have no state to set. *)
Definition load_build (_subprocess : ref) (state : Z) : Py Memory ref :=
  tos <- load_build state ;;
  get_access_handle _subprocess tos.

(** [_ModifiedUnpickler(subprocess, file).load()] on one pickled value *)
Definition load (_subprocess : ref) (w : wire) : Py Memory pyobj :=
  traverse (load_build _subprocess) w.

End _ModifiedUnpickler.

(** ** The module [functions] *)

(** An argument of a call: the evaluator a session call is given first, or
    a value. *)
Inductive pyarg :=
| ArgEvaluator (r : ref)
| ArgValue (v : pyobj).

(** What this module takes from its surroundings: the attributes of
    [jedi.evaluate.compiled.subprocess.functions] (which names exist, which
    are callable, what a call does to the memory of the process it runs in
    and what it returns or raises), and the two paths of the launch command.
    A function travels by name and both processes load the same module. *)
Class Functions := {
  has_attribute : string -> bool;
  callable : string -> bool;
  call_function : string -> list pyarg -> list (string * pyobj) -> Py Memory pyobj;
  _MAIN_PATH : string;
  parso_root : string
}.

(** [getattr(functions, name)] *)
Definition _get_function `{Functions} {S} (name : string) : Py S string :=
  if has_attribute name then ret name
  else raise (PyExc AttributeError (StrArg name)).

(** Calling the second item of a request on the arguments. *)
Definition py_call `{Functions} (function : option string)
  (args : list pyarg) (kwargs : list (string * pyobj)) : Py Memory pyobj :=
  match function with
  | None => raise (PyExc TypeError (StrArg "'NoneType' object is not callable"))
  | Some f =>
      if callable f then call_function f args kwargs
      else raise (PyExc TypeError (StrArg "object is not callable"))
  end.

(** [raise result] *)
Definition py_raise {S A} (result : pyobj) : Py S A :=
  match result with
  | VExc e => raise e
  | _ => raise (PyExc TypeError (StrArg "exceptions must derive from BaseException"))
  end.

(** [except Exception as e:] around [body] *)
Definition try_except_Exception {S A} (body : Py S A) (handler : pyexc -> Py S A) : Py S A :=
  fun s => match body s with
           | (s', Raise e) =>
               if derives_Exception (exc_type e) then handler e s' else (s', Raise e)
           | r => r
           end.

(** [exit(status)] *)
Definition exit {S A} (status : Z) : Py S A := raise (PyExc SystemExit (IntArg status)).

(** ** The worker: class Listener *)

(** What [pickle.load(stdin)] finds next in the stream: bytes that do not
    unpickle (the load raises: a truncated or foreign pickle, the name of a
    function the worker's [functions] does not have), or a pickled request. *)
Inductive frame :=
| Malformed (e : pyexc)
| Pickled (data : CallRequest Z).

Record Listener := MkListener { _evaluators : gmap Z ref }.

(** The worker process: the listener, its memory, what is left to read on
    standard input (the stream is closed behind it) and what was written to
    standard output. *)
Record Worker := MkWorker {
  listener : Listener;
  memory : Memory;
  stdin : list frame;
  stdout : list (CallResponse Z)
}.

Definition in_memory {A} (m : Py Memory A) : Py Worker A :=
  fun w => let '(m', r) := m (memory w) in
           (MkWorker (listener w) m' (stdin w) (stdout w), r).

Definition set_evaluators_dict (f : gmap Z ref -> gmap Z ref) (w : Worker) : Worker :=
  MkWorker (MkListener (f (_evaluators (listener w)))) (memory w) (stdin w) (stdout w).
Definition set_stdin (l : list frame) (w : Worker) : Worker :=
  MkWorker (listener w) (memory w) l (stdout w).
Definition write_stdout (r : CallResponse Z) (w : Worker) : Worker :=
  MkWorker (listener w) (memory w) (stdin w) (stdout w ++ [r]).

(** [Listener()]: [self._process] is never read and is left out. *)
Definition Listener_init : Listener := MkListener ∅.

(** Modelled from the spec: [Evaluator(None, project=project.Project())] of
    [jedi.evaluate] is not part of this module. A session's state is
    "created on first reference to its id" with a registry of its own: a new
    evaluator whose [compiled_subprocess] holds no handle yet. *)
Definition Evaluator_new : Py Memory ref :=
  evaluator <- fresh ;;
  process <- fresh ;;
  modify (set_endpoints <[process := EvaluatorProcess evaluator (py_id evaluator) ∅ None]>) ;;
  modify (set_evaluators <[evaluator := MkEvaluator process]>) ;;
  ret evaluator.

Definition _get_evaluator (function : string) (evaluator_id : Z) : Py Worker ref :=
  try_except
    (w <- get ;;
     from_option (_evaluators (listener w) !! evaluator_id) (PyExc KeyError (IntArg evaluator_id)))
    KeyError
    (evaluator <- in_memory Evaluator_new ;;
     modify (set_evaluators_dict <[evaluator_id := evaluator]>) ;;
     ret evaluator).

(** One step of "exchange all handles": an [AccessHandle] is replaced by
    [evaluator.compiled_subprocess.get_access_handle(arg.id)]. *)
Definition exchange (evaluator : ref) (arg : pyobj) : Py Memory pyobj :=
  match arg with
  | VHandle h =>
      ev <- read_evaluator evaluator ;;
      id_ <- handle_id h ;;
      h' <- get_access_handle (compiled_subprocess ev) id_ ;;
      ret (VHandle h')
  | _ => ret arg
  end.

Definition _run `{Functions} (evaluator_id : option Z) (function : option string)
  (args : list pyobj) (kwargs : list (string * pyobj)) : Py Worker pyobj :=
  match evaluator_id with
  | None => in_memory (py_call function (ArgValue <$> args) kwargs)
  | Some evaluator_id =>
      match function with
      | None =>
          w <- get ;;
          match _evaluators (listener w) !! evaluator_id with
          | Some _ => modify (set_evaluators_dict (delete evaluator_id)) ;; ret VNone
          | None => raise (PyExc KeyError (IntArg evaluator_id))
          end
      | Some f =>
          evaluator <- _get_evaluator f evaluator_id ;;
          args <- in_memory (mapM (exchange evaluator) args) ;;
          kwargs <- in_memory (mapM_items (exchange evaluator) kwargs) ;;
          in_memory (py_call function (ArgEvaluator evaluator :: (ArgValue <$> args)) kwargs)
      end
  end.

(** [pickle.load(stdin)] in the worker: the stock unpickler. *)
Definition load_request (data : CallRequest Z) : Py Memory (CallRequest ref) :=
  args <- mapM pickle_loads (req_args data) ;;
  kwargs <- mapM_items pickle_loads (req_kwargs data) ;;
  ret (Request (req_evaluator_id data) (req_function data) args kwargs).

Definition read_stdin : Py Worker (CallRequest ref) :=
  w <- get ;;
  match stdin w with
  | [] => raise (PyExc EOFError NoArg)
  | fr :: rest =>
      modify (set_stdin rest) ;;
      match fr with
      | Malformed e => raise e
      | Pickled data => in_memory (load_request data)
      end
  end.

Definition dump_response (result : CallResponse ref) : Py Memory (CallResponse Z) :=
  data <- pickle_dumps result.2 ;; ret (result.1, data).

(** The body of [while True:] in [listen]. *)
Definition listen_body `{Functions} : Py Worker unit :=
  payload <- try_except read_stdin EOFError (exit 1) ;;
  result <- try_except_Exception
              (v <- _run (req_evaluator_id payload) (req_function payload)
                         (req_args payload) (req_kwargs payload) ;;
               ret (false, v))
              (fun e => ret (true, VExc e)) ;;
  data <- in_memory (dump_response result) ;;
  modify (write_stdout data).

(** [listen]: the loop ends by an exception only; [None] is a loop that the
    given number of iterations did not end. *)
Fixpoint listen `{Functions} (fuel : nat) (w : Worker) : option (Worker * pyexc) :=
  match fuel with
  | O => None
  | S n =>
      match listen_body w with
      | (w', Ok _) => listen n w'
      | (w', Raise e) => Some (w', e)
      end
  end.

(** ** The host *)

(** What crossed the pipe pair of a worker, as the host saw it. *)
Inductive event :=
| Written (data : CallRequest Z)
| Received (r : CallResponse Z).

Inductive status :=
| Running
| Ended (e : pyexc)   (* [listen] was left by this exception *)
| Terminated
| Killed.

(** A child process started by [subprocess.Popen]. *)
Record Process := MkProcess {
  worker : Worker;
  state : status;
  pipe : list event
}.

(** The child runs [__main__.py], which starts [Listener().listen()]. *)
Definition Popen : Process :=
  MkProcess (MkWorker Listener_init empty_memory [] []) Running [].

(** An instance of [_CompiledSubprocess]. [_process] is the memoized
    property: nothing until it is first read. *)
Record _CompiledSubprocess := CompiledSubprocess {
  _args : string * string * string;
  _process : option Process;
  _evaluator_deletion_queue : list Z
}.

(** The host process: its memory, the module-level dictionary
    [_subprocesses] and the [_CompiledSubprocess] instances. *)
Record Host := MkHost {
  host_memory : Memory;
  _subprocesses : gmap string ref;
  subprocesses : gmap ref _CompiledSubprocess
}.

Definition empty_host : Host := MkHost empty_memory ∅ ∅.

Definition in_host_memory {A} (m : Py Memory A) : Py Host A :=
  fun h => let '(m', r) := m (host_memory h) in
           (MkHost m' (_subprocesses h) (subprocesses h), r).

Definition set_cache (f : gmap string ref -> gmap string ref) (h : Host) : Host :=
  MkHost (host_memory h) (f (_subprocesses h)) (subprocesses h).
Definition set_subprocesses (f : gmap ref _CompiledSubprocess -> gmap ref _CompiledSubprocess)
  (h : Host) : Host :=
  MkHost (host_memory h) (_subprocesses h) (f (subprocesses h)).

Definition read_subprocess (self : ref) : Py Host _CompiledSubprocess :=
  h <- get ;; from_option (subprocesses h !! self) dangling.

Definition set_process (self : ref) (p : Process) : Py Host unit :=
  sub <- read_subprocess self ;;
  modify (set_subprocesses
    <[self := CompiledSubprocess (_args sub) (Some p) (_evaluator_deletion_queue sub)]>).

Definition set_queue (self : ref) (q : list Z) : Py Host unit :=
  sub <- read_subprocess self ;;
  modify (set_subprocesses <[self := CompiledSubprocess (_args sub) (_process sub) q]>).

(** *** deque *)

Definition deque_append (q : list Z) (x : Z) : list Z := q ++ [x].

(** [deque.pop()]: the rightmost item, or nothing ([IndexError]). *)
Definition deque_pop (q : list Z) : option (Z * list Z) :=
  match reverse q with
  | [] => None
  | x :: r => Some (x, reverse r)
  end.

(** *** class _Subprocess *)

(** The property [_process]: the child is started on the first read. *)
Definition get_process (self : ref) : Py Host Process :=
  sub <- read_subprocess self ;;
  match _process sub with
  | Some p => ret p
  | None => set_process self Popen ;; ret Popen
  end.

Definition dump_request (data : CallRequest ref) : Py Memory (CallRequest Z) :=
  args <- mapM pickle_dumps (req_args data) ;;
  kwargs <- mapM_items pickle_dumps (req_kwargs data) ;;
  ret (Request (req_evaluator_id data) (req_function data) args kwargs).

(** The child is blocked in [pickle.load(stdin)]; once the request is
    flushed it runs the body of its loop on it, and blocks again or ends. *)
Definition deliver `{Functions} (data : CallRequest Z) (p : Process) : Process :=
  let w := worker p in
  match listen_body (MkWorker (listener w) (memory w) (stdin w ++ [Pickled data]) (stdout w)) with
  | (w', Ok _) => MkProcess w' Running (pipe p ++ [Written data])
  | (w', Raise e) => MkProcess w' (Ended e) (pipe p ++ [Written data])
  end.

(** [pickle.dump(data, self._process.stdin)] and [flush()]. Writing to a
    child that is gone raises. *)
Definition stdin_write `{Functions} (self : ref) (data : CallRequest ref) : Py Host unit :=
  p <- get_process self ;;
  data <- in_host_memory (dump_request data) ;;
  match state p with
  | Running => set_process self (deliver data p)
  | _ => raise (PyExc BrokenPipeError NoArg)
  end.

(** Reading one pickled response from [self._process.stdout]. Nothing to
    read means end of file: a running child has answered whatever it was
    sent (see [write_leaves_answer_or_end]). *)
Definition stdout_read (self : ref) : Py Host (CallResponse Z) :=
  p <- get_process self ;;
  let w := worker p in
  match stdout w with
  | [] => raise (PyExc EOFError NoArg)
  | r :: rest =>
      set_process self
        (MkProcess (MkWorker (listener w) (memory w) (stdin w) rest) (state p)
                   (pipe p ++ [Received r])) ;;
      ret r
  end.

(** The two unpicklers the module ever passes for [unpickler]. *)
Inductive Unpickler :=
| pickle_load                          (* the default of [_send] *)
| modified_unpickler (self : ref).     (* the lambda of [wrapper] *)

(** [unpickler(self._process.stdout)]; [run] defaults [unpickler] to
    [None], which cannot be called. *)
Definition call_unpickler (unpickler : option Unpickler) (stdout : ref)
  : Py Host (CallResponse ref) :=
  match unpickler with
  | Some pickle_load =>
      r <- stdout_read stdout ;;
      v <- in_host_memory (pickle_loads r.2) ;;
      ret (r.1, v)
  | Some (modified_unpickler self) =>
      r <- stdout_read stdout ;;
      v <- in_host_memory (_ModifiedUnpickler.load self r.2) ;;
      ret (r.1, v)
  | None => raise (PyExc TypeError (StrArg "'NoneType' object is not callable"))
  end.

Definition _send `{Functions} (self : ref) (evaluator_id : option Z) (function : option string)
  (args : list pyobj) (kwargs : list (string * pyobj)) (unpickler : option Unpickler)
  : Py Host pyobj :=
  let data := Request evaluator_id function args kwargs in
  stdin_write self data ;;
  r <- call_unpickler unpickler self ;;
  let is_exception := r.1 in
  let result := r.2 in
  if is_exception then py_raise result else ret result.

Definition end_process (how : status) (self : ref) : Py Host unit :=
  p <- get_process self ;;
  set_process self
    (MkProcess (worker p) (match state p with Running => how | s => s end) (pipe p)).

Definition terminate : ref -> Py Host unit := end_process Terminated.
Definition kill : ref -> Py Host unit := end_process Killed.

(** *** class _CompiledSubprocess *)

(** [_CompiledSubprocess(executable)] *)
Definition new_CompiledSubprocess `{Functions} (executable : string) : Py Host ref :=
  self <- in_host_memory fresh ;;
  modify (set_subprocesses
    <[self := CompiledSubprocess (executable, _MAIN_PATH, parso_root) None []]>) ;;
  ret self.

(** "Delete old evaluators": the loop of [run]. Every turn pops one id, and
    [n] is at least the length of the queue, so the turns never run out
    (see [flush_bound]). *)
Fixpoint flush `{Functions} (n : nat) (self : ref) : Py Host unit :=
  sub <- read_subprocess self ;;
  match deque_pop (_evaluator_deletion_queue sub) with
  | None => ret tt
  | Some (evaluator_id, rest) =>
      match n with
      | O => ret tt
      | S n' =>
          set_queue self rest ;;
          _send self (Some evaluator_id) None [] [] (Some pickle_load) ;;
          flush n' self
      end
  end.

(** [id(evaluator)] for what a weak reference returned *)
Definition id_of (evaluator : option ref) : Z :=
  match evaluator with Some r => py_id r | None => py_id_None end.

Definition run `{Functions} (self : ref) (evaluator : option ref) (function : string)
  (args : list pyobj) (kwargs : list (string * pyobj)) (unpickler : option Unpickler)
  : Py Host pyobj :=
  sub <- read_subprocess self ;;
  flush (length (_evaluator_deletion_queue sub)) self ;;
  (if callable function then ret tt else raise (PyExc AssertionError NoArg)) ;;
  _send self (Some (id_of evaluator)) (Some function) args kwargs unpickler.

Definition get_sys_path `{Functions} (self : ref) : Py Host pyobj :=
  function <- _get_function "get_sys_path" ;;
  _send self None (Some function) [] [] (Some pickle_load).

Definition delete_evaluator (self : ref) (evaluator_id : Z) : Py Host unit :=
  sub <- read_subprocess self ;;
  set_queue self (deque_append (_evaluator_deletion_queue sub) evaluator_id).

(** *** get_subprocess *)

Definition get_subprocess `{Functions} (executable : string) : Py Host ref :=
  try_except
    (h <- get ;;
     from_option (_subprocesses h !! executable) (PyExc KeyError (StrArg executable)))
    KeyError
    (sub <- new_CompiledSubprocess executable ;;
     modify (set_cache <[executable := sub]>) ;;
     ret sub).

(** *** class EvaluatorSameProcess *)

Module EvaluatorSameProcess.

(** [self.name(...)]: the partial application built by [__getattr__],
    called. A dead weak reference passes [None] for the evaluator. *)
Definition call `{Functions} (self : ref) (name : string)
  (args : list pyobj) (kwargs : list (string * pyobj)) : Py Memory pyobj :=
  function <- _get_function name ;;
  evaluator <- deref_weakref self ;;
  py_call (Some function)
    (match evaluator with Some r => ArgEvaluator r | None => ArgValue VNone end
     :: (ArgValue <$> args)) kwargs.

End EvaluatorSameProcess.

(** *** class EvaluatorSubprocess *)

Module EvaluatorSubprocess.

(** [EvaluatorSubprocess(evaluator, compiled_subprocess)] *)
Definition __init__ (evaluator : ref) (compiled_subprocess : ref) : Py Host ref :=
  in_host_memory
    (self <- fresh ;;
     modify (set_endpoints
       <[self := EvaluatorProcess evaluator (py_id evaluator) ∅
                   (Some (SubprocessAttrs false compiled_subprocess))]>) ;;
     ret self).

Definition read_attrs (self : ref) : Py Host EvaluatorSubprocess_attrs :=
  ep <- in_host_memory (read_endpoint self) ;;
  from_option (subclass ep) (PyExc AttributeError NoArg).

(** [self._used = True] *)
Definition set_used (self : ref) : Py Host unit :=
  ep <- in_host_memory (read_endpoint self) ;;
  a <- read_attrs self ;;
  in_host_memory (modify (set_endpoints
    <[self := EvaluatorProcess (_evaluator_weakref ep) (_evaluator_id ep) (_handles ep)
                (Some (SubprocessAttrs true (_compiled_subprocess a)))]>)).

(** The closure [wrapper] that [__getattr__] returns, called. *)
Definition wrapper `{Functions} (self : ref) (func : string)
  (args : list pyobj) (kwargs : list (string * pyobj)) : Py Host pyobj :=
  set_used self ;;
  a <- read_attrs self ;;
  evaluator <- in_host_memory (deref_weakref self) ;;
  result <- run (_compiled_subprocess a) evaluator func args kwargs
                (Some (modified_unpickler self)) ;;
  match result with
  | VHandle h => in_host_memory (handle_add_subprocess h self) ;; ret result
  | _ => ret result
  end.

(** [self.name] *)
Definition __getattr__ `{Functions} (self : ref) (name : string) : Py Host string :=
  _get_function name.

(** [self.name(...)] *)
Definition call `{Functions} (self : ref) (name : string)
  (args : list pyobj) (kwargs : list (string * pyobj)) : Py Host pyobj :=
  func <- __getattr__ self name ;;
  wrapper self func args kwargs.

Definition __del__ (self : ref) : Py Host unit :=
  ep <- in_host_memory (read_endpoint self) ;;
  a <- read_attrs self ;;
  if _used a then delete_evaluator (_compiled_subprocess a) (_evaluator_id ep)
  else ret tt.

End EvaluatorSubprocess.

(** The closure [compiled_method] of [AccessHandle.__getattr__], called on
    the host, where the channel of a handle is an [EvaluatorSubprocess]. *)
Definition compiled_method `{Functions} (self : ref) (name : string)
  (args : list pyobj) (kwargs : list (string * pyobj)) : Py Host pyobj :=
  obj <- in_host_memory (read_handle self) ;;
  subprocess <- lift_res (AccessHandle.get_subprocess_ obj) ;;
  func <- EvaluatorSubprocess.__getattr__ subprocess "get_compiled_method_return" ;;
  id_ <- lift_res (AccessHandle.get_id obj) ;;
  EvaluatorSubprocess.wrapper subprocess func (VInt id_ :: VStr name :: args) kwargs.

(** ** Operations of a host program *)

(** What the rest of jedi does with this module, one operation at a time. *)
Inductive host_op :=
| OpGetSubprocess (executable : string)
| OpNewEvaluator (compiled_subprocess : ref)
| OpNewSession (evaluator : ref) (compiled_subprocess : ref)
| OpCall (session : ref) (name : string) (args : list pyobj) (kwargs : list (string * pyobj))
| OpMethod (handle : ref) (name : string) (args : list pyobj) (kwargs : list (string * pyobj))
| OpDel (session : ref)
| OpGetSysPath (subprocess : ref)
| OpTerminate (subprocess : ref)
| OpKill (subprocess : ref).

(** Modelled from the spec: the analysis engine "constructs a Session per
    analysis context it owns". A new evaluator of the host and the
    [EvaluatorSubprocess] it keeps in [compiled_subprocess]. *)
Definition new_Evaluator (compiled_subprocess : ref) : Py Host ref :=
  evaluator <- in_host_memory fresh ;;
  session <- EvaluatorSubprocess.__init__ evaluator compiled_subprocess ;;
  in_host_memory (modify (set_evaluators <[evaluator := MkEvaluator session]>)) ;;
  ret evaluator.

Definition forget {S A} (m : Py S A) : S -> S := fun s => (m s).1.

(** The state an operation leaves, whether it returned or raised. *)
Definition exec_op `{Functions} (op : host_op) : Host -> Host :=
  match op with
  | OpGetSubprocess executable => forget (get_subprocess executable)
  | OpNewEvaluator sub => forget (new_Evaluator sub)
  | OpNewSession evaluator sub => forget (EvaluatorSubprocess.__init__ evaluator sub)
  | OpCall s name args kwargs => forget (EvaluatorSubprocess.call s name args kwargs)
  | OpMethod handle name args kwargs => forget (compiled_method handle name args kwargs)
  | OpDel s => forget (EvaluatorSubprocess.__del__ s)
  | OpGetSysPath sub => forget (get_sys_path sub)
  | OpTerminate sub => forget (terminate sub)
  | OpKill sub => forget (kill sub)
  end.

Definition exec_ops `{Functions} (ops : list host_op) (h : Host) : Host :=
  foldl (fun h op => exec_op op h) h ops.

(** ** A small catalogue of functions *)

Module Catalogue.

Definition names : list string :=
  ["get_sys_path"; "create_access"; "get_compiled_method_return"; "echo"; "boom"; "quit";
   "version"].

(** [create_access(evaluator, obj)] returns the handle of an object,
    [get_compiled_method_return] answers with the id it was asked about,
    [echo] returns its first argument, [boom] raises a [ValueError],
    [quit] calls [exit(3)]; [version] is a constant of the module. *)
Definition call (name : string) (args : list pyarg) (kwargs : list (string * pyobj))
  : Py Memory pyobj :=
  match name, args with
  | "get_sys_path", [] => ret (VTuple [VStr "/usr/lib/python3"; VStr "/site-packages"])
  | "create_access", [ArgEvaluator evaluator; ArgValue (VInt obj)] =>
      ev <- read_evaluator evaluator ;;
      h <- get_or_create_access_handle (compiled_subprocess ev) obj ;;
      ret (VHandle h)
  | "get_compiled_method_return", ArgEvaluator _ :: ArgValue (VInt id_) :: _ => ret (VInt id_)
  | "echo", ArgEvaluator _ :: ArgValue v :: _ => ret v
  | "boom", _ => raise (PyExc (OtherException "ValueError") (StrArg "boom"))
  | "quit", _ => exit 3
  | _, _ => raise (PyExc TypeError (StrArg "bad arguments"))
  end.

#[export] Instance functions : Functions := {|
  has_attribute name := bool_decide (name ∈ names);
  callable name := bool_decide (name ∈ names) && negb (String.eqb name "version");
  call_function := call;
  _MAIN_PATH := "jedi/evaluate/compiled/subprocess/__main__.py";
  parso_root := "/site-packages"
|}.

End Catalogue.

(** * Vocabulary of the properties *)

(** [steps R m]: running [m] moves the state along [R], whatever [m]
    returns or raises. *)
Definition steps {S A} (R : relation S) (m : Py S A) : Prop :=
  forall s, R s (m s).1.

(** An endpoint keeps its weak reference, its evaluator id and the worker it
    is bound to; [_used] is kept, or where [changed] allows it only goes from
    false to true. The registry may grow. *)
Definition endpoint_kept (changed : bool) (ep ep' : _EvaluatorProcess) : Prop :=
  _evaluator_weakref ep' = _evaluator_weakref ep /\
  _evaluator_id ep' = _evaluator_id ep /\
  match subclass ep, subclass ep' with
  | None, None => True
  | Some a, Some a' =>
      _compiled_subprocess a' = _compiled_subprocess a /\
      (if changed then _used a = true -> _used a' = true else _used a' = _used a)
  | _, _ => False
  end.

(** The memory moved on without harm to the endpoints it had: references
    are only added, and every endpoint is kept, [_used] free to be set for
    the sessions in [X] alone. *)
Record mem_quiet (X : ref -> bool) (m m' : Memory) : Prop := {
  mq_next : (next_ref m <= next_ref m')%nat;
  mq_endpoints : forall r ep, (r < next_ref m)%nat -> endpoints m !! r = Some ep ->
                 exists ep', endpoints m' !! r = Some ep' /\ endpoint_kept (X r) ep ep'
}.

(** The same for the host, where moreover the dictionary [_subprocesses] is
    unchanged and the wrappers are the same ones, with the same launch
    commands. *)
Record quiet (X : ref -> bool) (h h' : Host) : Prop := {
  q_memory : mem_quiet X (host_memory h) (host_memory h');
  q_cache : _subprocesses h' = _subprocesses h;
  q_args : forall r, _args <$> subprocesses h' !! r = _args <$> subprocesses h !! r
}.

(** The executable a wrapper was made for. *)
Definition executable_of (sub : _CompiledSubprocess) : string := (_args sub).1.1.

(** Every wrapper there is, is the one the dictionary holds for its
    executable, and sits below the next reference. *)
Record cache_invariant (h : Host) : Prop := {
  ci_cached : forall r sub, subprocesses h !! r = Some sub ->
              _subprocesses h !! executable_of sub = Some r;
  ci_allocated : forall r, is_Some (subprocesses h !! r) ->
                 (r < next_ref (host_memory h))%nat
}.

(** The session whose [wrapper] an operation enters, if it gets that far. *)
Definition issuer `{Functions} (op : host_op) (h : Host) : option ref :=
  match op with
  | OpCall s name _ _ => if has_attribute name then Some s else None
  | OpMethod handle _ _ _ =>
      match handles (host_memory h) !! handle with
      | Some obj =>
          match AccessHandle._subprocess obj, AccessHandle.id obj with
          | Some s, Some _ =>
              if has_attribute "get_compiled_method_return" then Some s else None
          | _, _ => None
          end
      | None => None
      end
  | _ => None
  end.

(** Whether one of the operations, run in order from [h], entered the
    [wrapper] of the session [s]: the session issued a remote call. *)
Fixpoint issued `{Functions} (s : ref) (ops : list host_op) (h : Host) : bool :=
  match ops with
  | [] => false
  | op :: ops => bool_decide (issuer op h = Some s) || issued s ops (exec_op op h)
  end.

Definition queue_of (h : Host) (sub : ref) : list Z :=
  match subprocesses h !! sub with
  | Some w => _evaluator_deletion_queue w
  | None => []
  end.

(** The session [s] of the evaluator [evaluator], bound to the worker
    [sub], with [_used] equal to [u]. *)
Definition session_state (s evaluator sub : ref) (u : bool) (h : Host) : Prop :=
  (s < next_ref (host_memory h))%nat /\
  is_Some (subprocesses h !! sub) /\
  exists ep, endpoints (host_memory h) !! s = Some ep /\
    _evaluator_id ep = py_id evaluator /\
    subclass ep = Some (SubprocessAttrs u sub).

(** [arg'] is what "exchange all handles" puts for [arg]: an [AccessHandle]
    is replaced by the entry for its id in the registry of the evaluator's
    [compiled_subprocess]; anything else stays. *)
Inductive exchanged (m : Memory) (evaluator : ref) : pyobj -> pyobj -> Prop :=
| exchanged_handle h obj id_ ev ep h' :
    handles m !! h = Some obj ->
    AccessHandle.id obj = Some id_ ->
    evaluators m !! evaluator = Some ev ->
    endpoints m !! compiled_subprocess ev = Some ep ->
    _handles ep !! id_ = Some h' ->
    exchanged m evaluator (VHandle h) (VHandle h')
| exchanged_other v :
    is_AccessHandle v = false ->
    exchanged m evaluator v v.

Definition exchanged_item (m : Memory) (evaluator : ref)
  (kv kv' : string * pyobj) : Prop :=
  kv.1 = kv'.1 /\ exchanged m evaluator kv.2 kv'.2.

(** The worker after [_get_evaluator] made a new session for [evaluator_id]. *)
Definition with_new_session (evaluator_id : Z) (w : Worker) : Worker :=
  let m := memory w in
  let evaluator := next_ref m in
  let process := S evaluator in
  MkWorker
    (MkListener (<[evaluator_id := evaluator]> (_evaluators (listener w))))
    (MkMemory (handles m)
       (<[process := EvaluatorProcess evaluator (py_id evaluator) ∅ None]> (endpoints m))
       (<[evaluator := MkEvaluator process]> (evaluators m))
       (S process))
    (stdin w) (stdout w).

(** [returns m]: [m] never raises. *)
Definition returns {S A} (m : Py S A) : Prop :=
  forall s, exists s' a, m s = (s', Ok a).

(** The streams of a worker are touched by [listen] alone. *)
Definition same_streams (w w' : Worker) : Prop :=
  stdin w' = stdin w /\ stdout w' = stdout w.

(** The second [try] and the write, from the state the decoding left. *)
Definition respond `{Functions} (payload : CallRequest ref) : Py Worker unit :=
  result <- try_except_Exception
              (v <- _run (req_evaluator_id payload) (req_function payload)
                         (req_args payload) (req_kwargs payload) ;;
               ret (false, v))
              (fun e => ret (true, VExc e)) ;;
  data <- in_memory (dump_response result) ;;
  modify (write_stdout data).

(** The child of a wrapper: the one it has, or the one its first use starts. *)
Definition process_or_new (sub : _CompiledSubprocess) : Process :=
  default Popen (_process sub).

Definition pipe_of (h : Host) (self : ref) : list event :=
  match subprocesses h !! self with
  | Some sub => pipe (process_or_new sub)
  | None => []
  end.

Definition with_process (sub : _CompiledSubprocess) (p : Process) : _CompiledSubprocess :=
  CompiledSubprocess (_args sub) (Some p) (_evaluator_deletion_queue sub).

Definition with_queue (sub : _CompiledSubprocess) (q : list Z) : _CompiledSubprocess :=
  CompiledSubprocess (_args sub) (_process sub) q.

Definition with_memory (m : Memory) (h : Host) : Host :=
  MkHost m (_subprocesses h) (subprocesses h).

(** The child after the host read the response [resp] off its output. *)
Definition read_off (p : Process) (resp : CallResponse Z) (rest : list (CallResponse Z))
  : Process :=
  let w := worker p in
  MkProcess (MkWorker (listener w) (memory w) (stdin w) rest) (state p)
            (pipe p ++ [Received resp]).

(** The unpickler of a request: which one decodes the payload. *)
Definition decode (u : Unpickler) (w : wire) : Py Memory pyobj :=
  match u with
  | pickle_load => pickle_loads w
  | modified_unpickler s => _ModifiedUnpickler.load s w
  end.

(** The destroy-session message for a session id. *)
Definition destroy (evaluator_id : Z) : CallRequest Z :=
  Request (Some evaluator_id) None [] [].

(** The requests among the events of a pipe, in order. *)
Definition writes (evs : list event) : list (CallRequest Z) :=
  omap (fun ev => match ev with Written d => Some d | Received _ => None end) evs.

(** Request, response, request, response, ...: every request but possibly
    the last is answered before the next is written. *)
Inductive alternating : list event -> Prop :=
| alternating_nil : alternating []
| alternating_lone d : alternating [Written d]
| alternating_pair d r evs : alternating evs -> alternating (Written d :: Received r :: evs).

(** The same with the last request answered too. *)
Inductive answered : list event -> Prop :=
| answered_nil : answered []
| answered_pair d r evs : answered evs -> answered (Written d :: Received r :: evs).

(** The registry of an endpoint. *)
Definition registry (m : Memory) (s : ref) : gmap Z ref :=
  match endpoints m !! s with
  | Some ep => _handles ep
  | None => ∅
  end.

(** [lifted Q w v]: [v] has the shape of [w], with handles related by [Q]. *)
Fixpoint lifted {H1 H2} (Q : H1 -> H2 -> Prop) (w : pyval H1) (v : pyval H2) : Prop :=
  match w, v with
  | VNone, VNone => True
  | VBool b, VBool b' => b = b'
  | VInt z, VInt z' => z = z'
  | VStr s, VStr s' => s = s'
  | VTuple l, VTuple l' =>
      (fix items (l : list (pyval H1)) (l' : list (pyval H2)) : Prop :=
         match l, l' with
         | [], [] => True
         | x :: r, x' :: r' => lifted Q x x' /\ items r r'
         | _, _ => False
         end) l l'
  | VHandle h, VHandle h' => Q h h'
  | VExc e, VExc e' => e = e'
  | _, _ => False
  end.

(** A decoded value is the pickled one with every id replaced by the
    registry's instance for it. *)
Definition reconciled (reg : gmap Z ref) : wire -> pyobj -> Prop :=
  lifted (fun id_ h => reg !! id_ = Some h).

(** The handles of a decoded value with the ids they were pickled as. *)
Fixpoint bindings (w : wire) (v : pyobj) : list (Z * ref) :=
  match w, v with
  | VHandle id_, VHandle h => [(id_, h)]
  | VTuple l, VTuple l' =>
      (fix items (l : list wire) (l' : list pyobj) : list (Z * ref) :=
         match l, l' with
         | x :: r, x' :: r' => bindings x x' ++ items r r'
         | _, _ => []
         end) l l'
  | _, _ => []
  end.

(** The registry of [s] only grows, nothing allocated is touched, and an
    entry that is new is a handle made since, bound to [s]. *)
Record decoded_on (s : ref) (m m' : Memory) : Prop := {
  do_endpoint : is_Some (endpoints m !! s) -> is_Some (endpoints m' !! s);
  do_registry : registry m s ⊆ registry m' s;
  do_next : (next_ref m <= next_ref m')%nat;
  do_handles : forall h, (h < next_ref m)%nat -> handles m' !! h = handles m !! h;
  do_new : forall id_ h, registry m' s !! id_ = Some h ->
           registry m s !! id_ = Some h \/
           ((next_ref m <= h < next_ref m')%nat /\
            handles m' !! h = Some (AccessHandle.Make None (Some s) (Some id_)))
}.

(** ** Vocabulary of the further properties *)

(** [self._evaluator_weakref()] by [id], as [DirectObjectAccess] is given
    it: nothing once the evaluator is gone. *)
Definition weakref_id (m : Memory) (ep : _EvaluatorProcess) : option Z :=
  match evaluators m !! _evaluator_weakref ep with
  | Some _ => Some (py_id (_evaluator_weakref ep))
  | None => None
  end.

(** The handle at [h] has its [id] set, to [id_]. *)
Definition carries_id (m : Memory) (h : ref) (id_ : Z) : Prop :=
  exists obj, handles m !! h = Some obj /\ AccessHandle.id obj = Some id_.

(** Every entry of the registry of [s] is an allocated handle that carries
    the id it is registered for. *)
Definition registry_sound (m : Memory) (s : ref) : Prop :=
  forall id_ h, registry m s !! id_ = Some h ->
    (h < next_ref m)%nat /\ carries_id m h id_.

(** Objects were added to the memory: nothing that was there changed. *)
Record grown (m m' : Memory) : Prop := {
  gr_next : (next_ref m <= next_ref m')%nat;
  gr_handles : forall h, (h < next_ref m)%nat -> handles m' !! h = handles m !! h;
  gr_endpoints : endpoints m' = endpoints m;
  gr_evaluators : evaluators m' = evaluators m
}.

(** What BUILD of the stock unpickler makes for a pickled id. *)
Definition unpickled_as (id_ : Z) : AccessHandle.t :=
  AccessHandle.__setstate__ AccessHandle.__new__ id_.

(** [v] is what [pickle.loads] made of [w] between the memories [m] and
    [m']: every handle is a new instance with its id set and nothing else. *)
Definition loaded (m m' : Memory) : wire -> pyobj -> Prop :=
  lifted (fun id_ h => (next_ref m <= h < next_ref m')%nat /\
            handles m' !! h = Some (unpickled_as id_)).

(** What the target function is given for a pickled argument: for a handle
    the registry's instance for its id, for anything else the value as
    unpickled. *)
Definition resolved (m : Memory) (reg : gmap Z ref) (w : wire) (v : pyobj) : Prop :=
  match w with
  | VHandle id_ => exists h, v = VHandle h /\ reg !! id_ = Some h
  | _ => lifted (fun id_ h => handles m !! h = Some (unpickled_as id_)) w v
  end.

(** The sessions a request for [evaluator_id] has no business with are the
    entries of [_evaluators] under the other ids: they are as they were. *)
Definition other_sessions_kept (evaluator_id : option Z) (w w' : Worker) : Prop :=
  forall other, evaluator_id <> Some other ->
    _evaluators (listener w') !! other = _evaluators (listener w) !! other.

(** Every entry of the dictionary [_subprocesses] is a wrapper there is,
    launched with the executable it is cached for. *)
Definition cache_sound `{Functions} (h : Host) : Prop :=
  forall executable r, _subprocesses h !! executable = Some r ->
    exists sub, subprocesses h !! r = Some sub /\
                _args sub = (executable, _MAIN_PATH, parso_root).

(** [keeps I]: a step that does not break the invariant [I]. *)
Definition keeps {S} (I : S -> Prop) : relation S := fun s s' => I s -> I s'.

(** The wrappers other than [self] are as they were. *)
Definition others_kept (self : ref) : relation Host :=
  fun h h' => forall r, r <> self -> subprocesses h' !! r = subprocesses h !! r.

(** A child between two calls: it has read what it was sent, the host has
    read what it wrote, and the pipe saw request and response in turn, the
    last request answered too while the child runs. *)
Record at_rest (p : Process) : Prop := {
  ar_stdin : stdin (worker p) = [];
  ar_stdout : stdout (worker p) = [];
  ar_alternating : alternating (pipe p);
  ar_answered : state p = Running -> answered (pipe p)
}.

Definition protocol_invariant (h : Host) : Prop :=
  forall r sub p, subprocesses h !! r = Some sub -> _process sub = Some p -> at_rest p.

(** * Scenarios *)

Module Scenario.
Import Catalogue.

(** One worker for ["python3"] (wrapper 0) and three evaluators 1, 3, 5
    with their sessions 2, 4, 6. *)
Definition started : Host :=
  exec_ops [OpGetSubprocess "python3"; OpNewEvaluator 0%nat; OpNewEvaluator 0%nat;
            OpNewEvaluator 0%nat] empty_host.

(** Sessions 2 and 4 are used, then torn down in this order. *)
Definition one_pending : Host :=
  exec_ops [OpCall 2%nat "create_access" [VInt 77] []; OpCall 4%nat "echo" [VInt 5] [];
            OpDel 2%nat] started.
Definition two_pending : Host := exec_ops [OpDel 4%nat] one_pending.

Definition no_wrapper : _CompiledSubprocess := CompiledSubprocess ("", "", "") None [].
Definition pending_wrapper : _CompiledSubprocess :=
  default no_wrapper (subprocesses two_pending !! 0%nat).

(** Session 6 makes its first call. *)
Definition third_call : Host * res pyobj :=
  run 0%nat (Some 5%nat) "echo" [VInt 1] [] (Some (modified_unpickler 6%nat)) two_pending.
Definition new_events : list event :=
  drop (length (pipe_of two_pending 0%nat)) (pipe_of third_call.1 0%nat).

Definition get_sys_path_request : CallRequest Z :=
  Request None (Some "get_sys_path") [] [].

(** Workers with two requests to read. *)
Definition reading (first : frame) : Worker :=
  MkWorker Listener_init empty_memory [first; Pickled get_sys_path_request] [].
Definition invalid_load_key : pyexc := PyExc UnpicklingError (StrArg "invalid load key").
Definition garbled : Worker := reading (Malformed invalid_load_key).
Definition quitting : Worker := reading (Pickled (Request (Some 1) (Some "quit") [] [])).
Definition failing : Worker := reading (Pickled (Request (Some 1) (Some "boom") [] [])).
Definition ValueError_boom : pyexc := PyExc (OtherException "ValueError") (StrArg "boom").

(** A worker whose session 1 has handed out the handle of object 77. *)
Definition with_handle : Worker :=
  (listen_body (MkWorker Listener_init empty_memory
                  [Pickled (Request (Some 1) (Some "create_access") [VInt 77] [])] [])).1.

(** What unpickling builds for the handle of object 5. *)
Definition unpickled : AccessHandle.t :=
  AccessHandle.__setstate__ AccessHandle.__new__ 5.

Definition two_handles : CallResponse Z := (false, VTuple [VHandle 77; VInt 0; VHandle 78]).
Definition one_handle : CallResponse Z := (false, VHandle 77).

(** The wrapper of ["python3"] before its child is started. *)
Definition started_wrapper : _CompiledSubprocess :=
  default no_wrapper (subprocesses started !! 0%nat).

(** A second session for evaluator 5 (it is given reference 7) makes one
    call before it is torn down. *)
Definition one_use : list host_op := [OpCall 7%nat "echo" [VInt 1] []].

(** The request that makes [boom] raise, as the child finds it. *)
Definition boom_request : CallRequest Z := Request (Some 5) (Some "boom") [] [].
Definition boom_read : Worker * res (CallRequest ref) :=
  read_stdin (MkWorker (listener (worker Popen)) (memory (worker Popen))
                (stdin (worker Popen) ++ [Pickled boom_request]) (stdout (worker Popen))).
Definition boom_payload : CallRequest ref := Request (Some 5) (Some "boom") [] [].
Definition boom_raised : Worker :=
  (_run (Some 5) (Some "boom") [] [] boom_read.1).1.

(** [failing] after its first request was decoded, and after [boom] ran. *)
Definition failing_read : Worker := (read_stdin failing).1.
Definition failing_payload : CallRequest ref := Request (Some 1) (Some "boom") [] [].
Definition failing_raised : Worker :=
  (_run (Some 1) (Some "boom") [] [] failing_read).1.

(** [with_handle] after it decoded a request that passes the handle of
    object 77 back, as an argument (reference 3) and as a keyword
    (reference 4); the registered instance is at reference 2. *)
Definition handle_back : Worker :=
  (read_stdin (set_stdin
     [Pickled (Request (Some 1) (Some "echo") [VHandle 77] [("k", VHandle 77)])]
     with_handle)).1.
(** The registry owner of the only session of [with_handle]: evaluator 0,
    endpoint 1, and the handle 2 of object 77. *)
Definition session_endpoint : _EvaluatorProcess :=
  EvaluatorProcess 0%nat 0 {[77 := 2%nat]} None.

(** Session 2 called [version], which is no function: nothing was sent and
    the child was not started, yet the session counts as used; then it was
    torn down. *)
Definition stale : Host :=
  exec_ops [OpCall 2%nat "version" [] []; OpDel 2%nat] started.
Definition stale_wrapper : _CompiledSubprocess :=
  default no_wrapper (subprocesses stale !! 0%nat).

(** [failing] read to the end of its input. *)
Definition failing_end : Worker * pyexc := default (failing, dangling) (listen 3 failing).

(** The two pending ids flushed, and a call of [get_sys_path] instead. *)
Definition flushed : Host * res unit := flush 2 0%nat two_pending.
Definition sys_path_call : Host * res pyobj := get_sys_path 0%nat two_pending.

(** Session 2 asks for the handle of object 77. *)
Definition handle_call : Host * res pyobj :=
  EvaluatorSubprocess.wrapper 2%nat "create_access" [VInt 77] [] started.

Definition two_executables : list host_op :=
  [OpGetSubprocess "python3"; OpGetSubprocess "python2"].

(** One session at work: a handle, a failing call, the teardown, and a
    call that flushes it. *)
Definition session_ops : list host_op :=
  [OpGetSubprocess "python3"; OpNewEvaluator 0%nat; OpNewEvaluator 0%nat;
   OpCall 2%nat "create_access" [VInt 77] []; OpCall 2%nat "boom" [] [];
   OpDel 2%nat; OpCall 4%nat "echo" [VInt 1] []; OpGetSysPath 0%nat].
Definition session_wrapper : _CompiledSubprocess :=
  default no_wrapper (subprocesses (exec_ops session_ops empty_host) !! 0%nat).
Definition session_child : Process := default Popen (_process session_wrapper).

(** A request of session 1 that passes the handle of object 77 back, next
    to a tuple that holds it too. *)
Definition handle_request : CallRequest Z :=
  Request (Some 1) (Some "echo") [VHandle 77; VTuple [VHandle 77]] [("k", VHandle 77)].
Definition handle_sent : Worker := set_stdin [Pickled handle_request] with_handle.

(** The requests that make [quit] and [echo] run, as a child that was just
    started finds them. *)
Definition quit_request : CallRequest Z := Request (Some 5) (Some "quit") [] [].
Definition quit_end : Worker * res unit :=
  listen_body (MkWorker (listener (worker Popen)) (memory (worker Popen))
                 (stdin (worker Popen) ++ [Pickled quit_request]) (stdout (worker Popen))).
Definition echo_request : CallRequest Z := Request (Some 5) (Some "echo") [VInt 1] [].
Definition echo_read : Worker * res (CallRequest ref) :=
  read_stdin (MkWorker (listener (worker Popen)) (memory (worker Popen))
                (stdin (worker Popen) ++ [Pickled echo_request]) (stdout (worker Popen))).
Definition echo_payload : CallRequest ref := Request (Some 5) (Some "echo") [VInt 1] [].
Definition echo_ran : Worker * res pyobj :=
  _run (Some 5) (Some "echo") [VInt 1] [] echo_read.1.

End Scenario.

(** * Properties *)

(** ** The monad *)

Lemma bind_ok {S A B} (m : Py S A) (k : A -> Py S B) s s' a :
  m s = (s', Ok a) -> bind m k s = k a s'.
Proof. unfold bind. intros ->. reflexivity. Qed.

Lemma bind_raise {S A B} (m : Py S A) (k : A -> Py S B) s s' e :
  m s = (s', Raise e) -> bind m k s = (s', Raise e).
Proof. unfold bind. intros ->. reflexivity. Qed.

Lemma bind_inv {S A B} (m : Py S A) (k : A -> Py S B) s s2 r :
  bind m k s = (s2, r) ->
  (exists s1 a, m s = (s1, Ok a) /\ k a s1 = (s2, r)) \/
  (exists e, m s = (s2, Raise e) /\ r = Raise e).
Proof.
  unfold bind. destruct (m s) as [s1 [a|e]]; intros Hk.
  - left. eauto.
  - right. inversion Hk; subst. eauto.
Qed.

Section steps.
Context {S : Type} (R : relation S) `{!PreOrder R}.

Lemma steps_ret {A} (a : A) : steps R (ret a).
Proof. intros s. reflexivity. Qed.

Lemma steps_raise {A} e : steps R (@raise S A e).
Proof. intros s. reflexivity. Qed.

Lemma steps_get : steps R (@get S).
Proof. intros s. reflexivity. Qed.

Lemma steps_lift_res {A} (r : res A) : steps R (@lift_res S A r).
Proof. intros s. reflexivity. Qed.

Lemma steps_from_option {A} (o : option A) e : steps R (@from_option S A o e).
Proof. destruct o; [apply steps_ret | apply steps_raise]. Qed.

Lemma steps_modify (f : S -> S) : (forall s, R s (f s)) -> steps R (modify f).
Proof. intros Hf s. apply Hf. Qed.

Lemma steps_bind {A B} (m : Py S A) (k : A -> Py S B) :
  steps R m -> (forall a, steps R (k a)) -> steps R (bind m k).
Proof.
  intros Hm Hk s. unfold bind. specialize (Hm s).
  destruct (m s) as [s1 [a|e]]; simpl in *; [|done].
  etrans; [exact Hm | apply Hk].
Qed.

Lemma steps_try_except {A} (body handler : Py S A) c :
  steps R body -> steps R handler -> steps R (try_except body c handler).
Proof.
  intros Hb Hh s. unfold try_except. specialize (Hb s).
  destruct (body s) as [s1 [a|e]]; simpl in *; [done|].
  destruct (decide _); [|done]. etrans; [exact Hb | apply Hh].
Qed.

Lemma steps_try_except_Exception {A} (body : Py S A) handler :
  steps R body -> (forall e, steps R (handler e)) ->
  steps R (try_except_Exception body handler).
Proof.
  intros Hb Hh s. unfold try_except_Exception. specialize (Hb s).
  destruct (body s) as [s1 [a|e]]; simpl in *; [done|].
  destruct (derives_Exception _); [|done]. etrans; [exact Hb | apply Hh].
Qed.

Lemma steps_mapM_Forall {A B} (f : A -> Py S B) (l : list A) :
  Forall (fun a => steps R (f a)) l -> steps R (mapM f l).
Proof.
  induction 1 as [|x l Hx _ IH]; simpl.
  - apply steps_ret.
  - apply steps_bind; [exact Hx|]. intros ?.
    apply steps_bind; [apply IH|]. intros ?. apply steps_ret.
Qed.

Lemma steps_mapM {A B} (f : A -> Py S B) (l : list A) :
  (forall a, steps R (f a)) -> steps R (mapM f l).
Proof. intros Hf. apply steps_mapM_Forall, Forall_forall. auto. Qed.

Lemma steps_mapM_items {A B} (f : A -> Py S B) (d : list (string * A)) :
  (forall a, steps R (f a)) -> steps R (mapM_items f d).
Proof.
  intros Hf. apply steps_mapM. intros [k v].
  apply steps_bind; [apply Hf|]. intros ?. apply steps_ret.
Qed.
End steps.

Lemma read_handle_eq h m :
  read_handle h m = (m, match handles m !! h with Some o => Ok o | None => Raise dangling end).
Proof. unfold read_handle, bind, get, from_option. destruct (handles m !! h); done. Qed.

Lemma read_endpoint_eq r m :
  read_endpoint r m =
    (m, match endpoints m !! r with Some o => Ok o | None => Raise dangling end).
Proof. unfold read_endpoint, bind, get, from_option. destruct (endpoints m !! r); done. Qed.

Lemma read_evaluator_eq r m :
  read_evaluator r m =
    (m, match evaluators m !! r with Some o => Ok o | None => Raise dangling end).
Proof. unfold read_evaluator, bind, get, from_option. destruct (evaluators m !! r); done. Qed.

Lemma read_subprocess_eq r h :
  read_subprocess r h =
    (h, match subprocesses h !! r with Some o => Ok o | None => Raise dangling end).
Proof. unfold read_subprocess, bind, get, from_option. destruct (subprocesses h !! r); done. Qed.

(** ** Values *)

Lemma pyval_rect' {H} (P : pyval H -> Prop) :
  P VNone -> (forall b, P (VBool b)) -> (forall z, P (VInt z)) -> (forall s, P (VStr s)) ->
  (forall l, Forall P l -> P (VTuple l)) ->
  (forall h, P (VHandle h)) -> (forall e, P (VExc e)) ->
  forall v, P v.
Proof.
  intros HN HB HI HS HT HH HE. fix IH 1.
  intros [|b|z|s|l|h|e];
    [exact HN | exact (HB b) | exact (HI z) | exact (HS s) | | exact (HH h) | exact (HE e)].
  apply HT. induction l as [|x l IHl]; constructor; [apply IH | exact IHl].
Qed.

Lemma traverse_tuple {S H1 H2} (f : H1 -> Py S H2) (l : list (pyval H1)) :
  traverse f (VTuple l) = (l' <- mapM (traverse f) l ;; ret (VTuple l')).
Proof.
  simpl. f_equal. induction l as [|x l IH]; simpl; [done|].
  rewrite IH. reflexivity.
Qed.

Lemma steps_traverse {S H1 H2} (R : relation S) `{!PreOrder R} (f : H1 -> Py S H2) v :
  (forall h, steps R (f h)) -> steps R (traverse f v).
Proof.
  intros Hf. induction v as [| | | |l IH| |] using pyval_rect';
    try (apply steps_ret; done).
  - rewrite traverse_tuple. apply steps_bind; [done| |intros ?; apply steps_ret; done].
    apply steps_mapM_Forall; done.
  - simpl. apply steps_bind; [done|apply Hf|]. intros ?. apply steps_ret; done.
Qed.

Create HintDb steps.

Ltac steps_go :=
  repeat first
    [ assumption
    | solve [auto with steps]
    | apply steps_ret; [apply _]
    | apply steps_raise; [apply _]
    | apply steps_get; [apply _]
    | apply steps_lift_res; [apply _]
    | apply steps_from_option; [apply _]
    | apply steps_modify; solve [auto with steps]
    | apply steps_bind; [apply _ | | intros ?]
    | apply steps_try_except; [apply _ | | ]
    | apply steps_mapM_items; [apply _ | intros ?]
    | apply steps_mapM; [apply _ | intros ?]
    | apply steps_traverse; [apply _ | intros ?]
    | match goal with
      | |- steps _ (match ?x with _ => _ end) => destruct x
      end ].

(** ** What the host's operations leave alone *)

Lemma endpoint_kept_refl c ep : endpoint_kept c ep ep.
Proof.
  unfold endpoint_kept. destruct (subclass ep), c; auto.
Qed.

Lemma endpoint_kept_trans c ep1 ep2 ep3 :
  endpoint_kept c ep1 ep2 -> endpoint_kept c ep2 ep3 -> endpoint_kept c ep1 ep3.
Proof.
  unfold endpoint_kept. intros (-> & -> & H12) (-> & -> & H23).
  split; [done|split; [done|]].
  destruct (subclass ep1), (subclass ep2), (subclass ep3); try done.
  destruct H12 as [E12 H12], H23 as [E23 H23]. split; [congruence|].
  destruct c; [auto | congruence].
Qed.

#[global] Instance mem_quiet_preorder X : PreOrder (mem_quiet X).
Proof.
  split.
  - intros m. split; [lia|]. intros r ep _ Hep. exists ep. split; [done|apply endpoint_kept_refl].
  - intros m1 m2 m3 [Hn1 He1] [Hn2 He2]. split; [lia|].
    intros r ep Hr Hep. destruct (He1 r ep Hr Hep) as (ep2 & Hep2 & K12).
    destruct (He2 r ep2 ltac:(lia) Hep2) as (ep3 & Hep3 & K23).
    exists ep3. split; [done|]. eapply endpoint_kept_trans; eauto.
Qed.

#[global] Instance quiet_preorder X : PreOrder (quiet X).
Proof.
  split.
  - intros h. split; [reflexivity|done|done].
  - intros h1 h2 h3 [Hm1 Hc1 Ha1] [Hm2 Hc2 Ha2]. split.
    + etrans; eauto.
    + congruence.
    + intros r. rewrite Ha2. apply Ha1.
Qed.

Lemma steps_in_host_memory X {A} (m : Py Memory A) :
  steps (mem_quiet X) m -> steps (quiet X) (in_host_memory m).
Proof.
  intros Hm h. unfold in_host_memory. specialize (Hm (host_memory h)).
  destruct (m (host_memory h)) as [m' r]. simpl in *. split; done.
Qed.

(** A change of the handles alone. *)
Lemma mem_quiet_set_handles X f m : mem_quiet X m (set_handles f m).
Proof.
  split; [done|]. intros r ep _ Hep. exists ep. split; [done|apply endpoint_kept_refl].
Qed.

Lemma mem_quiet_set_evaluators X f m : mem_quiet X m (set_evaluators f m).
Proof.
  split; [done|]. intros r ep _ Hep. exists ep. split; [done|apply endpoint_kept_refl].
Qed.

Lemma steps_fresh X : steps (mem_quiet X) fresh.
Proof.
  intros m. simpl. split; [simpl; lia|].
  intros r ep _ Hep. exists ep. split; [done|apply endpoint_kept_refl].
Qed.

#[global] Hint Resolve steps_fresh mem_quiet_set_handles mem_quiet_set_evaluators : steps.

Section memory_quiet.
Context (X : ref -> bool).

Lemma steps_read_handle h : steps (mem_quiet X) (read_handle h).
Proof. unfold read_handle. steps_go. Qed.

Lemma steps_read_endpoint r : steps (mem_quiet X) (read_endpoint r).
Proof. unfold read_endpoint. steps_go. Qed.

Lemma steps_new_handle obj : steps (mem_quiet X) (new_handle obj).
Proof. unfold new_handle. steps_go. Qed.

Lemma steps_handle_id h : steps (mem_quiet X) (handle_id h).
Proof. unfold handle_id. steps_go. Qed.

Lemma steps_handle_add_subprocess h s : steps (mem_quiet X) (handle_add_subprocess h s).
Proof. unfold handle_add_subprocess. steps_go. Qed.

Lemma steps_pickle_dumps v : steps (mem_quiet X) (pickle_dumps v).
Proof. unfold pickle_dumps, pickle_handle. steps_go. Qed.

Lemma steps_pickle_loads w : steps (mem_quiet X) (pickle_loads w).
Proof. unfold pickle_loads, load_build. steps_go. Qed.

Lemma steps_get_access_handle self id_ : steps (mem_quiet X) (get_access_handle self id_).
Proof. unfold get_access_handle. steps_go. Qed.

Lemma steps_set_access_handle self handle :
  steps (mem_quiet X) (set_access_handle self handle).
Proof.
  unfold set_access_handle.
  apply steps_bind; [apply _|apply steps_handle_id|]. intros id_ m.
  unfold bind. rewrite read_endpoint_eq.
  destruct (endpoints m !! self) as [ep|] eqn:Hself; simpl; [|reflexivity].
  split; [done|]. intros r ep0 _ Hep0. simpl.
  destruct (decide (r = self)) as [->|Hne].
  - rewrite lookup_insert_eq. eexists. split; [done|].
    rewrite Hself in Hep0. inversion Hep0; subst ep0.
    unfold endpoint_kept; simpl. destruct (subclass ep), (X self); auto.
  - rewrite lookup_insert_ne; [|done]. exists ep0. split; [done|apply endpoint_kept_refl].
Qed.

Lemma steps_deref_weakref self : steps (mem_quiet X) (deref_weakref self).
Proof. unfold deref_weakref. steps_go. Qed.

Hint Resolve steps_set_access_handle : steps.

Lemma steps_modified_load self w : steps (mem_quiet X) (_ModifiedUnpickler.load self w).
Proof.
  unfold _ModifiedUnpickler.load, _ModifiedUnpickler.load_build,
    _ModifiedUnpickler.get_access_handle, load_build.
  steps_go.
Qed.

Lemma steps_dump_request data : steps (mem_quiet X) (dump_request data).
Proof. unfold dump_request, pickle_dumps, pickle_handle. steps_go. Qed.
End memory_quiet.

#[global] Hint Resolve steps_read_handle steps_read_endpoint steps_new_handle steps_handle_id
  steps_handle_add_subprocess steps_pickle_dumps steps_pickle_loads steps_get_access_handle
  steps_set_access_handle steps_deref_weakref steps_modified_load steps_dump_request
  steps_in_host_memory : steps.

Section host_quiet.
Context `{Functions} (X : ref -> bool).

Lemma quiet_set_subprocess self sub sub' (h : Host) :
  subprocesses h !! self = Some sub -> _args sub' = _args sub ->
  quiet X h (set_subprocesses <[self := sub']> h).
Proof.
  intros Hsub Hargs. split; [reflexivity|done|]. intros r. simpl.
  destruct (decide (r = self)) as [->|Hne].
  - rewrite lookup_insert_eq, Hsub. simpl. by rewrite Hargs.
  - by rewrite lookup_insert_ne.
Qed.

Lemma steps_read_subprocess self : steps (quiet X) (read_subprocess self).
Proof. unfold read_subprocess. steps_go. Qed.

Lemma steps_set_process self p : steps (quiet X) (set_process self p).
Proof.
  intros h. unfold set_process, bind. rewrite read_subprocess_eq.
  destruct (subprocesses h !! self) as [sub|] eqn:Hsub; simpl; [|reflexivity].
  by eapply quiet_set_subprocess.
Qed.

Lemma steps_set_queue self q : steps (quiet X) (set_queue self q).
Proof.
  intros h. unfold set_queue, bind. rewrite read_subprocess_eq.
  destruct (subprocesses h !! self) as [sub|] eqn:Hsub; simpl; [|reflexivity].
  by eapply quiet_set_subprocess.
Qed.

Hint Resolve steps_read_subprocess steps_set_process steps_set_queue : steps.

Lemma steps_get_process self : steps (quiet X) (get_process self).
Proof. unfold get_process. steps_go. Qed.

Hint Resolve steps_get_process : steps.

Lemma steps_stdin_write self data : steps (quiet X) (stdin_write self data).
Proof. unfold stdin_write. steps_go. Qed.

Lemma steps_stdout_read self : steps (quiet X) (stdout_read self).
Proof. unfold stdout_read. steps_go. Qed.

Hint Resolve steps_stdin_write steps_stdout_read : steps.

Lemma steps_call_unpickler u self : steps (quiet X) (call_unpickler u self).
Proof. unfold call_unpickler. steps_go. Qed.

Hint Resolve steps_call_unpickler : steps.

Lemma steps_py_raise {A} v : steps (quiet X) (@py_raise Host A v).
Proof. unfold py_raise. steps_go. Qed.

Hint Resolve steps_py_raise : steps.

Lemma steps_send self evaluator_id function args kwargs u :
  steps (quiet X) (_send self evaluator_id function args kwargs u).
Proof.
  unfold _send. steps_go; destruct (a.1); steps_go.
Qed.

Hint Resolve steps_send : steps.

Lemma steps_end_process how self : steps (quiet X) (end_process how self).
Proof. unfold end_process. steps_go. Qed.

Lemma steps_flush n self : steps (quiet X) (flush n self).
Proof.
  induction n as [|n IH]; simpl; steps_go.
Qed.

Hint Resolve steps_flush : steps.

Lemma steps_run self evaluator function args kwargs u :
  steps (quiet X) (run self evaluator function args kwargs u).
Proof. unfold run. steps_go; destruct (callable function); steps_go. Qed.

Lemma steps_get_function {S} (R : relation S) `{!PreOrder R} name :
  steps R (@_get_function _ S name).
Proof. unfold _get_function. destruct (has_attribute name); steps_go. Qed.

Lemma steps_get_sys_path self : steps (quiet X) (get_sys_path self).
Proof. unfold get_sys_path. steps_go; apply steps_get_function; apply _. Qed.

Lemma steps_delete_evaluator self evaluator_id :
  steps (quiet X) (delete_evaluator self evaluator_id).
Proof. unfold delete_evaluator. steps_go. Qed.

Lemma steps_session_init evaluator sub :
  steps (quiet X) (EvaluatorSubprocess.__init__ evaluator sub).
Proof.
  unfold EvaluatorSubprocess.__init__. apply steps_in_host_memory. intros m.
  cbv [bind fresh modify ret]. simpl. split; [simpl; lia|].
  intros r ep Hr Hep. simpl. rewrite lookup_insert_ne; [|lia].
  exists ep. split; [done|apply endpoint_kept_refl].
Qed.

Lemma steps_read_attrs self : steps (quiet X) (EvaluatorSubprocess.read_attrs self).
Proof. unfold EvaluatorSubprocess.read_attrs. steps_go. Qed.

Hint Resolve steps_run steps_delete_evaluator steps_session_init steps_read_attrs : steps.

Lemma steps_del self : steps (quiet X) (EvaluatorSubprocess.__del__ self).
Proof. unfold EvaluatorSubprocess.__del__. steps_go; destruct (_used _); steps_go. Qed.

Lemma steps_new_Evaluator sub : steps (quiet X) (new_Evaluator sub).
Proof. unfold new_Evaluator. steps_go. apply steps_in_host_memory. steps_go. Qed.

Lemma steps_set_used self : X self = true -> steps (quiet X) (EvaluatorSubprocess.set_used self).
Proof.
  intros HX [m c subs]. unfold EvaluatorSubprocess.set_used, EvaluatorSubprocess.read_attrs.
  unfold bind at 1. unfold in_host_memory at 1. rewrite read_endpoint_eq. simpl.
  destruct (endpoints m !! self) as [ep|] eqn:Hep; simpl; [|reflexivity].
  unfold bind at 1. unfold bind at 1. unfold in_host_memory at 1. simpl.
  rewrite read_endpoint_eq, Hep.
  destruct (subclass ep) as [a|] eqn:Ha; simpl; [|reflexivity].
  split; [|done|done]. simpl. split; [done|]. intros r ep0 _ Hep0. simpl.
  destruct (decide (r = self)) as [->|Hne].
  - rewrite lookup_insert_eq. eexists. split; [done|].
    rewrite Hep in Hep0. inversion Hep0; subst ep0.
    unfold endpoint_kept; simpl. rewrite Ha, HX. auto.
  - rewrite lookup_insert_ne; [|done]. exists ep0. split; [done|apply endpoint_kept_refl].
Qed.

Lemma steps_wrapper self func args kwargs :
  X self = true -> steps (quiet X) (EvaluatorSubprocess.wrapper self func args kwargs).
Proof.
  intros HX. unfold EvaluatorSubprocess.wrapper.
  apply steps_bind; [apply _|by apply steps_set_used|]. intros _. steps_go.
Qed.
End host_quiet.

#[global] Hint Resolve steps_read_subprocess steps_set_process steps_set_queue
  steps_get_process steps_stdin_write steps_stdout_read steps_call_unpickler steps_py_raise
  steps_send steps_end_process steps_flush steps_run steps_get_sys_path
  steps_delete_evaluator steps_session_init steps_read_attrs steps_del
  steps_new_Evaluator : steps.

(** ** AccessHandle *)

(** C10. Reading one of the bookkeeping attributes [id], [_subprocess] or
    [access] on a handle whose instance dictionary does not hold it raises
    [AttributeError]: the access does not fall through to the closure
    [compiled_method] that forwards a call to the worker. *)
Theorem bookkeeping_attribute_unset_raises (self : AccessHandle.t) (name : string) :
  name ∈ AccessHandle.bookkeeping ->
  AccessHandle.instance_dict self name = None ->
  AccessHandle.getattr self name =
    Raise (PyExc AttributeError (StrArg "Something went wrong with unpickling")).
Proof.
  intros Hname Hunset. unfold AccessHandle.getattr. rewrite Hunset.
  unfold AccessHandle.__getattr__. rewrite (bool_decide_eq_true_2 _ Hname).
  unfold AccessHandle.bookkeeping in Hname.
  repeat (apply elem_of_cons in Hname as [->|Hname]; [reflexivity|]).
  by apply elem_of_nil in Hname.
Qed.

(** What unpickling leaves: the id is there, the two other attributes raise. *)
Lemma unpickled_handle_attributes (state : Z) :
  let self := AccessHandle.__setstate__ AccessHandle.__new__ state in
  AccessHandle.getattr self "id" = Ok (AccessHandle.AttrId state) /\
  AccessHandle.getattr self "_subprocess" =
    Raise (PyExc AttributeError (StrArg "Something went wrong with unpickling")) /\
  AccessHandle.getattr self "access" =
    Raise (PyExc AttributeError (StrArg "Something went wrong with unpickling")).
Proof. repeat split. Qed.

(** Any other name that the class does not define is forwarded. *)
Lemma other_attribute_forwards (self : AccessHandle.t) (name : string) :
  name ∉ AccessHandle.bookkeeping -> name ∉ AccessHandle.class_dict ->
  AccessHandle.getattr self name = Ok (AccessHandle.AttrCompiledMethod name).
Proof.
  intros Hb Hc. unfold AccessHandle.getattr, AccessHandle.instance_dict.
  unfold AccessHandle.bookkeeping in Hb.
  destruct (String.eqb_spec name "access") as [->|_]; [set_solver|].
  destruct (String.eqb_spec name "_subprocess") as [->|_]; [set_solver|].
  destruct (String.eqb_spec name "id") as [->|_]; [set_solver|].
  rewrite (bool_decide_eq_false_2 _ Hc). unfold AccessHandle.__getattr__.
  by rewrite (bool_decide_eq_false_2 _ Hb).
Qed.

(** A method called on a handle that has no [_subprocess] raises before
    anything is written to a worker: the host is left as it was. *)
Lemma compiled_method_unbound_raises `{Functions} (self : ref) (obj : AccessHandle.t)
  name args kwargs (h : Host) :
  handles (host_memory h) !! self = Some obj ->
  AccessHandle._subprocess obj = None ->
  exists h', compiled_method self name args kwargs h =
    (h', Raise (PyExc AttributeError (StrArg "Something went wrong with unpickling"))) /\
    subprocesses h' = subprocesses h /\ host_memory h' = host_memory h.
Proof.
  intros Hobj Hsub. unfold compiled_method, bind at 1, in_host_memory at 1.
  rewrite read_handle_eq, Hobj. unfold bind at 1, lift_res at 1.
  unfold AccessHandle.get_subprocess_, AccessHandle.getattr, AccessHandle.instance_dict.
  simpl. rewrite Hsub. simpl. eexists; split; [reflexivity|]. done.
Qed.

(** ** get_subprocess *)

Lemma cache_invariant_empty : cache_invariant empty_host.
Proof.
  split; unfold empty_host; simpl; [intros r sub Hs|intros r [sub Hs]];
    by rewrite lookup_empty in Hs.
Qed.

Lemma cache_invariant_quiet X h h' : quiet X h h' -> cache_invariant h -> cache_invariant h'.
Proof.
  intros [[Hn _] Hc Ha] [Hcached Halloc]. split.
  - intros r sub Hsub. rewrite Hc. specialize (Ha r). rewrite Hsub in Ha. simpl in Ha.
    destruct (subprocesses h !! r) as [sub0|] eqn:Hsub0; [|done].
    simpl in Ha. inversion Ha as [Hargs]. unfold executable_of. rewrite Hargs.
    by apply Hcached.
  - intros r [sub Hsub]. specialize (Ha r). rewrite Hsub in Ha.
    destruct (subprocesses h !! r) as [sub0|] eqn:Hsub0; [|done].
    specialize (Halloc r ltac:(by rewrite Hsub0)). lia.
Qed.

Lemma get_subprocess_eq `{Functions} executable h :
  get_subprocess executable h =
    match _subprocesses h !! executable with
    | Some sub => (h, Ok sub)
    | None =>
        let self := next_ref (host_memory h) in
        (MkHost (MkMemory (handles (host_memory h)) (endpoints (host_memory h))
                   (evaluators (host_memory h)) (S self))
           (<[executable := self]> (_subprocesses h))
           (<[self := CompiledSubprocess (executable, _MAIN_PATH, parso_root) None []]>
              (subprocesses h)),
         Ok self)
    end.
Proof.
  unfold get_subprocess, try_except, bind, get, from_option.
  destruct (_subprocesses h !! executable); reflexivity.
Qed.

Lemma cache_invariant_get_subprocess `{Functions} executable h :
  cache_invariant h -> cache_invariant (get_subprocess executable h).1.
Proof.
  intros [Hcached Halloc]. rewrite get_subprocess_eq.
  destruct (_subprocesses h !! executable) as [sub|] eqn:Hc; [done|]. simpl. split; simpl.
  - intros r sub. destruct (decide (r = next_ref (host_memory h))) as [->|Hne].
    + rewrite lookup_insert_eq. intros [= <-]. unfold executable_of. simpl.
      by rewrite lookup_insert_eq.
    + rewrite lookup_insert_ne; [|done]. intros Hsub.
      pose proof (Hcached r sub Hsub) as Hr.
      rewrite lookup_insert_ne; [done|]. intros Heq. congruence.
  - intros r. destruct (decide (r = next_ref (host_memory h))) as [->|Hne]; [lia|].
    rewrite lookup_insert_ne; [|done]. intros Hr. specialize (Halloc r Hr). lia.
Qed.

Lemma endpoint_kept_weaken (c c' : bool) ep ep' :
  (c = true -> c' = true) -> endpoint_kept c ep ep' -> endpoint_kept c' ep ep'.
Proof.
  unfold endpoint_kept. intros Hc (? & ? & Hs). split; [done|split; [done|]].
  destruct (subclass ep), (subclass ep'); try done. destruct Hs as [? Hu]. split; [done|].
  destruct c, c'; auto; try congruence. by specialize (Hc eq_refl).
Qed.

Lemma quiet_weaken (X X' : ref -> bool) h h' :
  (forall r, X r = true -> X' r = true) -> quiet X h h' -> quiet X' h h'.
Proof.
  intros HX [[Hn He] Hc Ha]. split; [split|done|done]; [done|].
  intros r ep Hr Hep. destruct (He r ep Hr Hep) as (ep' & Hep' & K).
  exists ep'. split; [done|]. eapply endpoint_kept_weaken; [apply HX|done].
Qed.

Lemma quiet_rebuild X (h : Host) :
  quiet X h (MkHost (host_memory h) (_subprocesses h) (subprocesses h)).
Proof. split; simpl; [reflexivity|done|done]. Qed.

Section operations.
Context `{Functions}.

Lemma steps_call X s name args kwargs :
  (has_attribute name = true -> X s = true) ->
  steps (quiet X) (EvaluatorSubprocess.call s name args kwargs).
Proof.
  intros HX h. unfold EvaluatorSubprocess.call, EvaluatorSubprocess.__getattr__,
    _get_function, bind at 1.
  destruct (has_attribute name); simpl; [|reflexivity].
  apply steps_wrapper; auto.
Qed.

Lemma compiled_method_quiet handle name args kwargs h :
  quiet (fun r => bool_decide (issuer (OpMethod handle name args kwargs) h = Some r))
    h (compiled_method handle name args kwargs h).1.
Proof.
  unfold compiled_method, issuer, bind at 1, in_host_memory at 1.
  rewrite read_handle_eq.
  destruct (handles (host_memory h) !! handle) as [obj|] eqn:Hobj; simpl;
    [|apply quiet_rebuild].
  unfold bind at 1, lift_res at 1.
  unfold AccessHandle.get_subprocess_, AccessHandle.getattr, AccessHandle.instance_dict.
  simpl. destruct (AccessHandle._subprocess obj) as [s|]; simpl; [|apply quiet_rebuild].
  unfold EvaluatorSubprocess.__getattr__, _get_function, bind at 1.
  destruct (has_attribute "get_compiled_method_return"); simpl;
    [|destruct (AccessHandle.id obj); apply quiet_rebuild].
  unfold bind at 1, lift_res at 1.
  unfold AccessHandle.get_id, AccessHandle.getattr, AccessHandle.instance_dict. simpl.
  destruct (AccessHandle.id obj) as [i|]; simpl; [|apply quiet_rebuild].
  etrans; [apply quiet_rebuild|].
  apply steps_wrapper. by apply bool_decide_eq_true_2.
Qed.

Lemma exec_op_quiet op h :
  (forall executable, op <> OpGetSubprocess executable) ->
  quiet (fun r => bool_decide (issuer op h = Some r)) h (exec_op op h).
Proof.
  intros Hop. destruct op; simpl; unfold forget.
  - by destruct (Hop executable).
  - apply steps_new_Evaluator.
  - apply steps_session_init.
  - apply steps_call. intros ->. by apply bool_decide_eq_true_2.
  - apply compiled_method_quiet.
  - apply steps_del.
  - apply steps_get_sys_path.
  - apply steps_end_process.
  - apply steps_end_process.
Qed.

Lemma cache_invariant_exec_op op h : cache_invariant h -> cache_invariant (exec_op op h).
Proof.
  intros Hinv.
  assert ((exists e, op = OpGetSubprocess e) \/ forall e, op <> OpGetSubprocess e)
    as [[e ->]|Hne] by (destruct op; eauto; right; done).
  - by apply cache_invariant_get_subprocess.
  - eapply cache_invariant_quiet; [|done]. by apply exec_op_quiet.
Qed.

Lemma cache_invariant_exec_ops ops h :
  cache_invariant h -> cache_invariant (exec_ops ops h).
Proof.
  revert h. induction ops as [|op ops IH]; intros h Hinv; simpl; [done|].
  apply IH. by apply cache_invariant_exec_op.
Qed.
End operations.

(** C8. In any state the host reaches from its start by the operations of
    this module, [get_subprocess] returns a wrapper, a second call with the
    same executable returns the identical wrapper and changes nothing; a
    cached executable makes the call a plain lookup, a new wrapper is made
    only when the dictionary has none for the executable, and no other
    wrapper for that executable exists. *)
Theorem get_subprocess_one_wrapper_per_executable `{Functions}
  (ops : list host_op) (executable : string) :
  let h := exec_ops ops empty_host in
  exists h1 sub,
    get_subprocess executable h = (h1, Ok sub) /\
    get_subprocess executable h1 = (h1, Ok sub) /\
    (forall sub0, _subprocesses h !! executable = Some sub0 -> h1 = h /\ sub = sub0) /\
    (_subprocesses h !! executable = None ->
       subprocesses h !! sub = None /\
       subprocesses h1 =
         <[sub := CompiledSubprocess (executable, _MAIN_PATH, parso_root) None []]>
           (subprocesses h)) /\
    (forall r w, subprocesses h1 !! r = Some w -> executable_of w = executable -> r = sub).
Proof.
  intros h.
  assert (Hinv : cache_invariant h) by apply cache_invariant_exec_ops, cache_invariant_empty.
  pose proof (cache_invariant_get_subprocess executable h Hinv) as Hinv1.
  destruct (get_subprocess executable h) as [h1 r1] eqn:Hget. simpl in Hinv1.
  rewrite get_subprocess_eq in Hget.
  destruct (_subprocesses h !! executable) as [sub|] eqn:Hc.
  - inversion Hget; subst h1 r1. exists h, sub.
    split; [done|]. split; [by rewrite get_subprocess_eq, Hc|].
    split; [by intros ? [= <-]|]. split; [done|].
    intros r w Hw <-. destruct Hinv as [Hcached _]. specialize (Hcached r w Hw). congruence.
  - simpl in Hget. inversion Hget; subst h1 r1. clear Hget.
    eexists _, _. split; [reflexivity|].
    split; [rewrite get_subprocess_eq; simpl; by rewrite lookup_insert_eq|].
    split; [done|]. split.
    + intros _. split; [|done].
      destruct (subprocesses h !! next_ref (host_memory h)) eqn:Hn; [|done].
      destruct Hinv as [_ Halloc]. specialize (Halloc _ ltac:(by rewrite Hn)). lia.
    + intros r w Hw Hexe. destruct Hinv1 as [Hcached _]. specialize (Hcached r w Hw).
      simpl in Hcached. rewrite Hexe, lookup_insert_eq in Hcached. congruence.
Qed.

(** ** EvaluatorSubprocess: teardown *)

Lemma steps_after {S A B} (R : relation S) (m : Py S A) (k : A -> Py S B) s s1 a :
  m s = (s1, Ok a) -> steps R (k a) -> R s1 (bind m k s).1.
Proof. intros Hm Hk. unfold bind. rewrite Hm. apply Hk. Qed.

Section teardown.
Context `{Functions}.

Lemma session_state_quiet X s evaluator sub u h h' :
  quiet X h h' -> session_state s evaluator sub u h ->
  exists u', session_state s evaluator sub u' h' /\
    (if X s then u = true -> u' = true else u' = u).
Proof.
  intros [[Hn He] _ Ha] (Hs & Hsub & ep & Hep & Hid & Hattrs).
  destruct (He s ep Hs Hep) as (ep' & Hep' & Hw & Hid' & K).
  rewrite Hattrs in K. destruct (subclass ep') as [[u' sub']|] eqn:Hattrs'; [|done].
  simpl in K. destruct K as [-> Hu]. exists u'. split; [|done].
  split; [lia|]. split.
  - destruct Hsub as [w Hw']. specialize (Ha sub). rewrite Hw' in Ha.
    destruct (subprocesses h' !! sub); [eauto|done].
  - exists ep'. split; [done|]. split; [congruence|done].
Qed.

Lemma set_used_eq s evaluator sub u (h : Host) :
  session_state s evaluator sub u h ->
  exists h', EvaluatorSubprocess.set_used s h = (h', Ok tt) /\
    session_state s evaluator sub true h'.
Proof.
  destruct h as [m c subs]. intros (Hs & Hsub & ep & Hep & Hid & Hattrs). simpl in *.
  unfold EvaluatorSubprocess.set_used, EvaluatorSubprocess.read_attrs.
  unfold bind at 1. unfold in_host_memory at 1. rewrite read_endpoint_eq. simpl.
  rewrite Hep. unfold bind at 1. unfold bind at 1. unfold in_host_memory at 1. simpl.
  rewrite read_endpoint_eq, Hep, Hattrs. simpl.
  eexists. split; [reflexivity|]. split; [done|]. split; [done|]. simpl.
  eexists. rewrite lookup_insert_eq. split; [done|]. done.
Qed.

Lemma wrapper_sets_used s evaluator sub u func args kwargs h :
  session_state s evaluator sub u h ->
  session_state s evaluator sub true (EvaluatorSubprocess.wrapper s func args kwargs h).1.
Proof.
  intros Hst. destruct (set_used_eq _ _ _ _ _ Hst) as (h' & Hset & Hst').
  unfold EvaluatorSubprocess.wrapper.
  match goal with
  | |- context [bind (EvaluatorSubprocess.set_used s) ?k] =>
      assert (quiet (fun _ => true) h' (bind (EvaluatorSubprocess.set_used s) k h).1) as Hq
        by (apply (steps_after _ _ k h h' tt Hset); steps_go)
  end.
  destruct (session_state_quiet _ _ _ _ _ _ _ Hq Hst') as (u' & Hst'' & Hu).
  simpl in Hu. by rewrite (Hu eq_refl) in Hst''.
Qed.

Lemma issuer_sets_used s evaluator sub u op h :
  session_state s evaluator sub u h -> issuer op h = Some s ->
  session_state s evaluator sub true (exec_op op h).
Proof.
  intros Hst Hiss. destruct op; simpl in Hiss; try done; simpl; unfold forget.
  - destruct (has_attribute name) eqn:Hname; [|done]. inversion Hiss; subst session.
    unfold EvaluatorSubprocess.call, EvaluatorSubprocess.__getattr__, _get_function,
      bind at 1. rewrite Hname. simpl. by eapply wrapper_sets_used.
  - destruct (handles (host_memory h) !! handle) as [obj|] eqn:Hobj; [|done].
    destruct (AccessHandle._subprocess obj) as [s'|] eqn:Hsp; [|done].
    destruct (AccessHandle.id obj) as [i|] eqn:Hi; [|done].
    destruct (has_attribute "get_compiled_method_return") eqn:Hname; [|done].
    inversion Hiss; subst s'.
    unfold compiled_method, bind at 1, in_host_memory at 1.
    rewrite read_handle_eq, Hobj. unfold bind at 1, lift_res at 1.
    unfold AccessHandle.get_subprocess_, AccessHandle.getattr, AccessHandle.instance_dict.
    simpl. rewrite Hsp. simpl.
    unfold EvaluatorSubprocess.__getattr__, _get_function, bind at 1. rewrite Hname. simpl.
    unfold bind at 1, lift_res at 1.
    unfold AccessHandle.get_id, AccessHandle.getattr, AccessHandle.instance_dict. simpl.
    rewrite Hi. simpl. eapply wrapper_sets_used.
    destruct h; exact Hst.
Qed.

Lemma session_state_get_subprocess s evaluator sub u executable h :
  session_state s evaluator sub u h ->
  session_state s evaluator sub u (get_subprocess executable h).1.
Proof.
  intros (Hs & Hsub & Hep). rewrite get_subprocess_eq.
  destruct (_subprocesses h !! executable); [done|]. simpl.
  split; [simpl; lia|]. split; [|done]. simpl.
  destruct (decide (sub = next_ref (host_memory h))) as [->|Hne].
  - rewrite lookup_insert_eq. eauto.
  - by rewrite lookup_insert_ne.
Qed.

Lemma session_state_exec_op s evaluator sub u op h :
  session_state s evaluator sub u h ->
  session_state s evaluator sub (u || bool_decide (issuer op h = Some s)) (exec_op op h).
Proof.
  intros Hst. destruct (decide (issuer op h = Some s)) as [Hiss|Hiss].
  - rewrite (bool_decide_eq_true_2 _ Hiss), orb_true_r. by eapply issuer_sets_used.
  - rewrite (bool_decide_eq_false_2 _ Hiss), orb_false_r.
    assert ((exists e, op = OpGetSubprocess e) \/ forall e, op <> OpGetSubprocess e)
      as [[e ->]|Hne] by (destruct op; eauto; right; done).
    + by apply session_state_get_subprocess.
    + pose proof (exec_op_quiet op h Hne) as Hq.
      destruct (session_state_quiet _ _ _ _ _ _ _ Hq Hst) as (u' & Hst' & Hu).
      simpl in Hu. rewrite (bool_decide_eq_false_2 _ Hiss) in Hu. by subst u'.
Qed.

Lemma session_state_exec_ops s evaluator sub u ops h :
  session_state s evaluator sub u h ->
  session_state s evaluator sub (u || issued s ops h) (exec_ops ops h).
Proof.
  revert u h. induction ops as [|op ops IH]; intros u h Hst; simpl.
  - by rewrite orb_false_r.
  - rewrite orb_assoc. apply IH. by apply session_state_exec_op.
Qed.

Lemma del_eq s evaluator sub u h :
  session_state s evaluator sub u h ->
  exists h', EvaluatorSubprocess.__del__ s h = (h', Ok tt) /\
    queue_of h' sub = queue_of h sub ++ (if u then [py_id evaluator] else []) /\
    (forall sub', sub' <> sub -> queue_of h' sub' = queue_of h sub').
Proof.
  destruct h as [m c subs]. intros (Hs & [w Hw] & ep & Hep & Hid & Hattrs). simpl in *.
  unfold EvaluatorSubprocess.__del__, EvaluatorSubprocess.read_attrs.
  unfold bind at 1. unfold in_host_memory at 1. rewrite read_endpoint_eq. simpl.
  rewrite Hep. unfold bind at 1. unfold bind at 1. unfold in_host_memory at 1. simpl.
  rewrite read_endpoint_eq, Hep, Hattrs. simpl. destruct u.
  - unfold delete_evaluator, set_queue. unfold bind at 1. rewrite read_subprocess_eq. simpl.
    rewrite Hw. unfold bind at 1. rewrite read_subprocess_eq. simpl. rewrite Hw.
    eexists. split; [reflexivity|]. unfold queue_of. simpl. split.
    + rewrite lookup_insert_eq, Hw, Hid. done.
    + intros sub' Hne. by rewrite lookup_insert_ne.
  - eexists. split; [reflexivity|]. unfold queue_of. simpl. split; [|done].
    by rewrite app_nil_r.
Qed.
End teardown.


(** ** Listener._run *)

Lemma get_id_eq obj :
  AccessHandle.get_id obj =
    match AccessHandle.id obj with
    | Some i => Ok i
    | None => Raise (PyExc AttributeError (StrArg "Something went wrong with unpickling"))
    end.
Proof.
  unfold AccessHandle.get_id, AccessHandle.getattr, AccessHandle.instance_dict. simpl.
  destruct (AccessHandle.id obj); reflexivity.
Qed.

Lemma handle_id_eq h m :
  handle_id h m =
    (m, match handles m !! h with
        | Some obj => AccessHandle.get_id obj
        | None => Raise dangling
        end).
Proof.
  unfold handle_id, bind. rewrite read_handle_eq. destruct (handles m !! h); reflexivity.
Qed.

Lemma get_access_handle_eq self id_ m :
  get_access_handle self id_ m =
    (m, match endpoints m !! self with
        | Some ep =>
            match _handles ep !! id_ with
            | Some h => Ok h
            | None => Raise (PyExc KeyError (IntArg id_))
            end
        | None => Raise dangling
        end).
Proof.
  unfold get_access_handle, bind. rewrite read_endpoint_eq.
  destruct (endpoints m !! self) as [ep|]; [|reflexivity].
  unfold from_option. destruct (_handles ep !! id_); reflexivity.
Qed.

Lemma exchange_exchanged m evaluator arg arg' :
  exchanged m evaluator arg arg' -> exchange evaluator arg m = (m, Ok arg').
Proof.
  intros [h obj id_ ev ep h' Hobj Hid Hev Hep Hh'|v Hv].
  - unfold exchange, bind. rewrite read_evaluator_eq, Hev, handle_id_eq, Hobj, get_id_eq, Hid.
    rewrite get_access_handle_eq, Hep, Hh'. reflexivity.
  - destruct v; try reflexivity. discriminate.
Qed.

Lemma mapM_exchanged m evaluator args args' :
  Forall2 (exchanged m evaluator) args args' ->
  mapM (exchange evaluator) args m = (m, Ok args').
Proof.
  induction 1 as [|a a' l l' Ha _ IH]; simpl; [done|].
  unfold bind. rewrite (exchange_exchanged _ _ _ _ Ha). fold (mapM (exchange evaluator)).
  rewrite IH. reflexivity.
Qed.

Lemma mapM_items_exchanged m evaluator kwargs kwargs' :
  Forall2 (exchanged_item m evaluator) kwargs kwargs' ->
  mapM_items (exchange evaluator) kwargs m = (m, Ok kwargs').
Proof.
  unfold mapM_items.
  induction 1 as [|[k a] [k' a'] l l' [Hk Ha] _ IH]; simpl in *; [done|]. subst k'.
  unfold bind at 1. unfold bind at 1. rewrite (exchange_exchanged _ _ _ _ Ha). simpl.
  unfold bind at 1. rewrite IH. reflexivity.
Qed.

(** A handle whose id the registry does not hold stops the call. *)
Lemma exchange_unknown_handle m evaluator h obj id_ ev ep :
  handles m !! h = Some obj ->
  AccessHandle.id obj = Some id_ ->
  evaluators m !! evaluator = Some ev ->
  endpoints m !! compiled_subprocess ev = Some ep ->
  _handles ep !! id_ = None ->
  exchange evaluator (VHandle h) m = (m, Raise (PyExc KeyError (IntArg id_))).
Proof.
  intros Hobj Hid Hev Hep Hh'.
  unfold exchange, bind. rewrite read_evaluator_eq, Hev, handle_id_eq, Hobj, get_id_eq, Hid.
  rewrite get_access_handle_eq, Hep, Hh'. reflexivity.
Qed.

Lemma _get_evaluator_eq function evaluator_id w :
  _get_evaluator function evaluator_id w =
    match _evaluators (listener w) !! evaluator_id with
    | Some evaluator => (w, Ok evaluator)
    | None => (with_new_session evaluator_id w, Ok (next_ref (memory w)))
    end.
Proof.
  unfold _get_evaluator, try_except, bind, get, from_option.
  destruct (_evaluators (listener w) !! evaluator_id); reflexivity.
Qed.

(** C9. A request with a session id and a function: the session's
    evaluator is looked up, and made and stored when the id is new; then,
    where every argument and keyword argument that is an [AccessHandle] has
    its id in the registry of that evaluator, each is replaced by the
    registry's entry and the function is called with the evaluator first,
    the exchanged arguments after it, and the exchanged keywords. *)
Theorem run_resolves_session_and_handles `{Functions}
  (w : Worker) (evaluator_id : Z) (f : string)
  (args : list pyobj) (kwargs : list (string * pyobj)) :
  exists w1 evaluator,
    _get_evaluator f evaluator_id w = (w1, Ok evaluator) /\
    _evaluators (listener w1) !! evaluator_id = Some evaluator /\
    (forall ev0, _evaluators (listener w) !! evaluator_id = Some ev0 ->
       w1 = w /\ evaluator = ev0) /\
    (_evaluators (listener w) !! evaluator_id = None ->
       w1 = with_new_session evaluator_id w /\ evaluator = next_ref (memory w)) /\
    forall args' kwargs',
      Forall2 (exchanged (memory w1) evaluator) args args' ->
      Forall2 (exchanged_item (memory w1) evaluator) kwargs kwargs' ->
      _run (Some evaluator_id) (Some f) args kwargs w =
        in_memory (py_call (Some f) (ArgEvaluator evaluator :: (ArgValue <$> args')) kwargs') w1
      /\ (callable f = true ->
          _run (Some evaluator_id) (Some f) args kwargs w =
            in_memory (call_function f (ArgEvaluator evaluator :: (ArgValue <$> args')) kwargs')
              w1).
Proof.
  assert (forall w1 evaluator args' kwargs',
    _get_evaluator f evaluator_id w = (w1, Ok evaluator) ->
    Forall2 (exchanged (memory w1) evaluator) args args' ->
    Forall2 (exchanged_item (memory w1) evaluator) kwargs kwargs' ->
    _run (Some evaluator_id) (Some f) args kwargs w =
      in_memory (py_call (Some f) (ArgEvaluator evaluator :: (ArgValue <$> args')) kwargs') w1)
    as Hrun.
  { intros w1 evaluator args' kwargs' Hget Hargs Hkwargs.
    unfold _run. unfold bind at 1. rewrite Hget.
    unfold bind at 1. unfold in_memory at 1. rewrite (mapM_exchanged _ _ _ _ Hargs).
    unfold bind at 1. unfold in_memory at 1. simpl.
    rewrite (mapM_items_exchanged _ _ _ _ Hkwargs). destruct w1; reflexivity. }
  rewrite _get_evaluator_eq in *.
  destruct (_evaluators (listener w) !! evaluator_id) as [ev0|] eqn:Hev.
  - exists w, ev0. split; [done|]. split; [done|].
    split; [intros ev1 [= ->]; done|]. split; [done|].
    intros args' kwargs' Hargs Hkwargs. split.
    + by apply Hrun.
    + intros Hc. rewrite (Hrun _ _ _ _ eq_refl Hargs Hkwargs). unfold py_call. by rewrite Hc.
  - eexists _, _. split; [reflexivity|]. split; [simpl; by rewrite lookup_insert_eq|].
    split; [done|]. split; [done|]. intros args' kwargs' Hargs Hkwargs. split.
    + by apply Hrun.
    + intros Hc. rewrite (Hrun _ _ _ _ eq_refl Hargs Hkwargs). unfold py_call. by rewrite Hc.
Qed.

(** ** Listener.listen *)

Lemma returns_ret {S A} (a : A) : returns (@ret S A a).
Proof. intros s. by eexists _, _. Qed.

Lemma returns_bind {S A B} (m : Py S A) (k : A -> Py S B) :
  returns m -> (forall a, returns (k a)) -> returns (bind m k).
Proof.
  intros Hm Hk s. destruct (Hm s) as (s1 & a & Hms). unfold bind. rewrite Hms. apply Hk.
Qed.

Lemma returns_mapM_Forall {S A B} (f : A -> Py S B) (l : list A) :
  Forall (fun a => returns (f a)) l -> returns (mapM f l).
Proof.
  induction 1 as [|x l Hx _ IH]; simpl; [apply returns_ret|].
  apply returns_bind; [done|]. intros ?. apply returns_bind; [done|]. intros ?.
  apply returns_ret.
Qed.

Lemma returns_traverse {S H1 H2} (f : H1 -> Py S H2) v :
  (forall h, returns (f h)) -> returns (traverse f v).
Proof.
  intros Hf. induction v as [| | | |l IH| |] using pyval_rect'; try apply returns_ret.
  - rewrite traverse_tuple. apply returns_bind; [|intros; apply returns_ret].
    by apply returns_mapM_Forall.
  - simpl. apply returns_bind; [apply Hf|]. intros ?. apply returns_ret.
Qed.

Lemma returns_pickle_loads w : returns (pickle_loads w).
Proof.
  apply returns_traverse. intros state m. unfold load_build, new_handle.
  by eexists _, _.
Qed.

Lemma returns_load_request data : returns (load_request data).
Proof.
  unfold load_request. apply returns_bind.
  { apply returns_mapM_Forall, Forall_forall. intros ? _. apply returns_pickle_loads. }
  intros args. apply returns_bind; [|intros; apply returns_ret].
  apply returns_mapM_Forall, Forall_forall. intros [k v] _.
  apply returns_bind; [apply returns_pickle_loads|]. intros ?. apply returns_ret.
Qed.

Lemma load_request_ids data m m' payload :
  load_request data m = (m', Ok payload) ->
  req_evaluator_id payload = req_evaluator_id data /\
  req_function payload = req_function data.
Proof.
  unfold load_request. intros Hl.
  apply bind_inv in Hl as [(m1 & args & _ & Hl)|(e & _ & ?)]; [|done].
  apply bind_inv in Hl as [(m2 & kwargs & _ & Hl)|(e & _ & ?)]; [|done].
  inversion Hl. done.
Qed.

#[global] Instance same_streams_preorder : PreOrder same_streams.
Proof.
  split; [done|]. intros w1 w2 w3 [? ?] [? ?]. split; congruence.
Qed.

Lemma steps_in_memory {A} (m : Py Memory A) : steps same_streams (in_memory m).
Proof. intros w. unfold in_memory. by destruct (m (memory w)). Qed.

Lemma same_streams_set_evaluators_dict f w : same_streams w (set_evaluators_dict f w).
Proof. done. Qed.

#[global] Hint Resolve steps_in_memory same_streams_set_evaluators_dict : steps.

Lemma steps_run_streams `{Functions} evaluator_id function args kwargs :
  steps same_streams (_run evaluator_id function args kwargs).
Proof. unfold _run, _get_evaluator. steps_go. Qed.

Section listen.
Context `{Functions}.

(** The request decodes: the first [try] of the loop is passed. *)
Lemma read_stdin_pickled w data rest :
  stdin w = Pickled data :: rest ->
  exists w1 payload,
    read_stdin w = (w1, Ok payload) /\
    try_except read_stdin EOFError (exit 1) w = (w1, Ok payload) /\
    stdin w1 = rest /\ stdout w1 = stdout w /\ listener w1 = listener w /\
    load_request data (memory w) = (memory w1, Ok payload).
Proof.
  intros Hin. destruct (returns_load_request data (memory w)) as (m' & payload & Hl).
  exists (MkWorker (listener w) m' rest (stdout w)), payload.
  assert (read_stdin w = (MkWorker (listener w) m' rest (stdout w), Ok payload)) as Hr.
  { unfold read_stdin, bind at 1, get. rewrite Hin. unfold bind, modify, in_memory. simpl.
    by rewrite Hl. }
  split; [done|]. split; [|done]. unfold try_except. by rewrite Hr.
Qed.

Lemma listen_body_malformed w e rest :
  stdin w = Malformed e :: rest ->
  listen_body w =
    (set_stdin rest w,
     Raise (if is_EOFError (exc_type e) then PyExc SystemExit (IntArg 1) else e)).
Proof.
  intros Hin. unfold listen_body, bind at 1, try_except.
  unfold read_stdin, bind at 1, get. rewrite Hin. unfold bind, modify, raise. simpl.
  destruct e as [[] a]; reflexivity.
Qed.

Lemma listen_body_closed w :
  stdin w = [] -> listen_body w = (w, Raise (PyExc SystemExit (IntArg 1))).
Proof.
  intros Hin. unfold listen_body, bind at 1, try_except.
  unfold read_stdin, bind at 1, get. rewrite Hin. reflexivity.
Qed.

Lemma listen_body_pickled w data rest w1 payload :
  stdin w = Pickled data :: rest ->
  read_stdin w = (w1, Ok payload) ->
  listen_body w = respond payload w1.
Proof.
  intros Hin Hr. unfold listen_body, bind at 1, try_except. rewrite Hr. reflexivity.
Qed.

Lemma respond_Exception payload w1 w2 e :
  _run (req_evaluator_id payload) (req_function payload)
       (req_args payload) (req_kwargs payload) w1 = (w2, Raise e) ->
  derives_Exception (exc_type e) = true ->
  respond payload w1 = (write_stdout (true, VExc e) w2, Ok tt).
Proof.
  intros Hrun He. unfold respond, bind at 1, try_except_Exception, bind at 1.
  rewrite Hrun, He. destruct w2; reflexivity.
Qed.

Lemma respond_BaseException payload w1 w2 e :
  _run (req_evaluator_id payload) (req_function payload)
       (req_args payload) (req_kwargs payload) w1 = (w2, Raise e) ->
  derives_Exception (exc_type e) = false ->
  respond payload w1 = (w2, Raise e).
Proof.
  intros Hrun He. unfold respond, bind at 1, try_except_Exception, bind at 1.
  by rewrite Hrun, He.
Qed.

Lemma listen_continues n w w' :
  listen_body w = (w', Ok tt) -> listen (S n) w = listen n w'.
Proof. intros Hb. simpl. by rewrite Hb. Qed.

Lemma listen_ends n w w' e :
  listen_body w = (w', Raise e) -> listen (S n) w = Some (w', e).
Proof. intros Hb. simpl. by rewrite Hb. Qed.
End listen.

Section listen_streams.
Context `{Functions}.

Lemma steps_dispatch payload :
  steps same_streams
    (try_except_Exception
       (v <- _run (req_evaluator_id payload) (req_function payload)
                  (req_args payload) (req_kwargs payload) ;;
        ret (false, v))
       (fun e => ret (true, VExc e))).
Proof.
  apply steps_try_except_Exception; [apply _| |intros; apply steps_ret; apply _].
  apply steps_bind; [apply _|apply steps_run_streams|]. intros. apply steps_ret; apply _.
Qed.

(** One answered request: one response more on standard output. *)
Lemma respond_streams payload w1 w' r :
  respond payload w1 = (w', r) ->
  stdin w' = stdin w1 /\
  match r with
  | Ok _ => exists resp, stdout w' = stdout w1 ++ [resp]
  | Raise _ => stdout w' = stdout w1
  end.
Proof.
  unfold respond. intros Hr.
  apply bind_inv in Hr as [(w2 & result & Hd & Hr)|(e & Hd & ->)].
  - pose proof (steps_dispatch payload w1) as [Hin Hout]. rewrite Hd in Hin, Hout.
    simpl in Hin, Hout.
    apply bind_inv in Hr as [(w3 & data & Hp & Hr)|(e & Hp & ->)].
    + pose proof (steps_in_memory (dump_response result) w2) as [Hin' Hout'].
      rewrite Hp in Hin', Hout'. simpl in Hin', Hout'.
      inversion Hr; subst w' r. simpl. split; [congruence|].
      exists data. congruence.
    + pose proof (steps_in_memory (dump_response result) w2) as [Hin' Hout'].
      rewrite Hp in Hin', Hout'. simpl in Hin', Hout'. split; congruence.
  - pose proof (steps_dispatch payload w1) as [Hin Hout]. rewrite Hd in Hin, Hout.
    done.
Qed.

(** An iteration that does not end the loop took one frame off standard
    input and put one response on standard output. *)
Lemma listen_body_ok w w' :
  listen_body w = (w', Ok tt) ->
  exists data resp,
    stdin w = Pickled data :: stdin w' /\ stdout w' = stdout w ++ [resp].
Proof.
  intros Hb. destruct (stdin w) as [|[e|data] rest] eqn:Hin.
  - by rewrite (listen_body_closed w Hin) in Hb.
  - by rewrite (listen_body_malformed w e rest Hin) in Hb.
  - destruct (read_stdin_pickled w data rest Hin) as
      (w1 & payload & Hr & _ & Hin1 & Hout1 & _).
    rewrite (listen_body_pickled w data rest w1 payload Hin Hr) in Hb.
    apply respond_streams in Hb as [Hin' [resp Hout']].
    exists data, resp. split; congruence.
Qed.

(** The loop ends once standard input is used up, if not before. *)
Lemma listen_total fuel w :
  (length (stdin w) < fuel)%nat -> exists w' e, listen fuel w = Some (w', e).
Proof.
  revert w. induction fuel as [|n IH]; intros w Hlen; [lia|]. simpl.
  destruct (listen_body w) as [w' [[]|e]] eqn:Hb; [|by eexists _, _].
  apply IH. apply listen_body_ok in Hb as (data & resp & Hin & _).
  rewrite Hin in Hlen. simpl in Hlen. lia.
Qed.
End listen_streams.



(** ** _Subprocess._send *)

Lemma set_process_eq self p sub h :
  subprocesses h !! self = Some sub ->
  set_process self p h = (set_subprocesses <[self := with_process sub p]> h, Ok tt).
Proof.
  intros Hsub. unfold set_process, bind. by rewrite read_subprocess_eq, Hsub.
Qed.

Lemma set_queue_eq self q sub h :
  subprocesses h !! self = Some sub ->
  set_queue self q h = (set_subprocesses <[self := with_queue sub q]> h, Ok tt).
Proof.
  intros Hsub. unfold set_queue, bind. by rewrite read_subprocess_eq, Hsub.
Qed.

Lemma get_process_eq self sub h :
  subprocesses h !! self = Some sub ->
  get_process self h =
    match _process sub with
    | Some p => (h, Ok p)
    | None => (set_subprocesses <[self := with_process sub Popen]> h, Ok Popen)
    end.
Proof.
  intros Hsub. unfold get_process, bind at 1. rewrite read_subprocess_eq, Hsub.
  destruct (_process sub); [reflexivity|].
  unfold bind. by rewrite (set_process_eq _ _ _ _ Hsub).
Qed.

(** After [self._process] was read the wrapper has its child. *)
Lemma get_process_spec self sub h :
  subprocesses h !! self = Some sub ->
  exists h0,
    get_process self h = (h0, Ok (process_or_new sub)) /\
    subprocesses h0 !! self = Some (with_process sub (process_or_new sub)) /\
    host_memory h0 = host_memory h /\
    pipe_of h0 self = pipe_of h self.
Proof.
  intros Hsub. rewrite (get_process_eq _ _ _ Hsub). unfold pipe_of, process_or_new.
  rewrite Hsub. destruct sub as [a [p|] q]; simpl.
  - exists h. by rewrite Hsub.
  - eexists. split; [reflexivity|]. simpl. by rewrite lookup_insert_eq.
Qed.

Lemma in_host_memory_eq {A} (m : Py Memory A) h :
  in_host_memory m h = (with_memory (m (host_memory h)).1 h, (m (host_memory h)).2).
Proof. unfold in_host_memory. by destruct (m (host_memory h)). Qed.

Lemma pipe_deliver `{Functions} d p : pipe (deliver d p) = pipe p ++ [Written d].
Proof. unfold deliver. by destruct (listen_body _) as [w' [[]|e]]. Qed.

(** What [stdin_write] leaves for the wrapper it wrote through. *)
Lemma stdin_write_spec `{Functions} self data sub h h1 r :
  subprocesses h !! self = Some sub ->
  stdin_write self data h = (h1, r) ->
  let p := process_or_new sub in
  match r with
  | Ok _ =>
      exists d,
        dump_request data (host_memory h) = (host_memory h1, Ok d) /\
        state p = Running /\
        subprocesses h1 !! self = Some (with_process sub (deliver d p))
  | Raise _ =>
      subprocesses h1 !! self = Some (with_process sub p)
  end.
Proof.
  intros Hsub Hw p. destruct (get_process_spec _ _ _ Hsub) as (h0 & Hg & Hsub0 & Hm0 & _).
  unfold stdin_write, bind at 1 in Hw. rewrite Hg in Hw.
  unfold bind at 1 in Hw. rewrite in_host_memory_eq, Hm0 in Hw.
  destruct (dump_request data (host_memory h)) as [m1 [d|e]] eqn:Hd; simpl in Hw.
  - fold p in Hw. destruct (state p) eqn:Hst.
    + erewrite set_process_eq in Hw; [|simpl; exact Hsub0].
      inversion Hw; subst h1 r. exists d. simpl. split; [done|]. split; [done|].
      by rewrite lookup_insert_eq.
    + inversion Hw; subst h1 r. done.
    + inversion Hw; subst h1 r. done.
    + inversion Hw; subst h1 r. done.
  - inversion Hw; subst h1 r. done.
Qed.

Lemma stdout_read_eq self sub p h :
  subprocesses h !! self = Some sub -> _process sub = Some p ->
  stdout_read self h =
    match stdout (worker p) with
    | [] => (h, Raise (PyExc EOFError NoArg))
    | resp :: rest =>
        (set_subprocesses <[self := with_process sub (read_off p resp rest)]> h, Ok resp)
    end.
Proof.
  intros Hsub Hp. unfold stdout_read, bind at 1.
  rewrite (get_process_eq _ _ _ Hsub), Hp.
  destruct (stdout (worker p)) as [|resp rest]; [reflexivity|].
  unfold bind. by rewrite (set_process_eq _ _ _ _ Hsub).
Qed.

Lemma call_unpickler_eq u self h :
  call_unpickler (Some u) self h =
    (r <- stdout_read self ;; v <- in_host_memory (decode u r.2) ;; ret (r.1, v)) h.
Proof. by destruct u. Qed.

Lemma call_unpickler_spec u self sub p h h2 r :
  subprocesses h !! self = Some sub -> _process sub = Some p ->
  call_unpickler u self h = (h2, r) ->
  (subprocesses h2 !! self = Some sub /\ exists e, r = Raise e) \/
  (exists resp rest u0 rv,
     stdout (worker p) = resp :: rest /\
     u = Some u0 /\
     subprocesses h2 !! self = Some (with_process sub (read_off p resp rest)) /\
     decode u0 resp.2 (host_memory h) = (host_memory h2, rv) /\
     r = match rv with Ok v => Ok (resp.1, v) | Raise e => Raise e end).
Proof.
  intros Hsub Hp Hc. destruct u as [u|]; [|left; inversion Hc; subst; eauto].
  rewrite call_unpickler_eq in Hc. unfold bind at 1 in Hc.
  rewrite (stdout_read_eq _ _ _ _ Hsub Hp) in Hc.
  destruct (stdout (worker p)) as [|resp rest]; [left; inversion Hc; subst; eauto|].
  right. exists resp, rest, u. unfold bind at 1 in Hc. rewrite in_host_memory_eq in Hc.
  simpl in Hc. destruct (decode u resp.2 (host_memory h)) as [m' rv] eqn:Hd. simpl in Hc.
  exists rv. split; [done|]. split; [done|].
  destruct rv as [v|e]; inversion Hc; subst h2 r; simpl; by rewrite lookup_insert_eq.
Qed.

(** What one [_send] does to the wrapper it goes through: the queue is left
    alone, and the pipe sees the request, then the response if there is
    one. [sent d] says that [d] is the request as pickled. *)
Lemma send_spec `{Functions} self evaluator_id function args kwargs u sub h h' r :
  subprocesses h !! self = Some sub ->
  _send self evaluator_id function args kwargs u h = (h', r) ->
  let sent d :=
    exists m, dump_request (Request evaluator_id function args kwargs) (host_memory h)
              = (m, Ok d) in
  exists sub' evs,
    subprocesses h' !! self = Some sub' /\
    _evaluator_deletion_queue sub' = _evaluator_deletion_queue sub /\
    pipe (process_or_new sub') = pipe (process_or_new sub) ++ evs /\
    match r with
    | Ok _ => exists d resp, evs = [Written d; Received resp] /\ sent d
    | Raise _ =>
        evs = [] \/
        exists d, sent d /\ (evs = [Written d] \/ exists resp, evs = [Written d; Received resp])
    end.
Proof.
  intros Hsub Hs sent. unfold _send in Hs.
  apply bind_inv in Hs as [(h1 & [] & Hw & Hs)|(e & Hw & ->)].
  - pose proof (stdin_write_spec _ _ _ _ _ _ Hsub Hw) as (d & Hd & Hst & Hsub1). simpl in *.
    assert (sent d) as Hsent by (by eexists).
    apply bind_inv in Hs as [(h2 & resp' & Hc & Hs)|(e & Hc & ->)].
    + destruct (call_unpickler_spec _ _ _ _ _ _ _ Hsub1 eq_refl Hc)
        as [(_ & e & ?)|(resp & rest & u0 & rv & Hout & -> & Hsub2 & Hdec & Hr)]; [done|].
      assert (subprocesses h' !! self = Some (with_process sub (read_off (deliver d
                (process_or_new sub)) resp rest))) as Hsub'.
      { destruct (resp'.1); [|by inversion Hs; subst].
        unfold py_raise in Hs. destruct (resp'.2); inversion Hs; by subst. }
      eexists _, [Written d; Received resp]. split; [exact Hsub'|]. split; [done|].
      split.
      { unfold process_or_new at 1. simpl. rewrite pipe_deliver, <- app_assoc. done. }
      destruct r; eauto 10.
    + destruct (call_unpickler_spec _ _ _ _ _ _ _ Hsub1 eq_refl Hc)
        as [(Hsub2 & _)|(resp & rest & u0 & rv & Hout & -> & Hsub2 & Hdec & Hr)].
      * eexists _, [Written d]. split; [exact Hsub2|]. split; [done|].
        split; [unfold process_or_new at 1; simpl; by rewrite pipe_deliver|]. eauto 10.
      * eexists _, [Written d; Received resp]. split; [exact Hsub2|]. split; [done|].
        split.
        { unfold process_or_new at 1. simpl. rewrite pipe_deliver, <- app_assoc. done. }
        eauto 10.
  - pose proof (stdin_write_spec _ _ _ _ _ _ Hsub Hw) as Hsub1. simpl in Hsub1.
    eexists _, []. split; [exact Hsub1|]. split; [done|].
    split; [unfold process_or_new at 1; simpl; by rewrite app_nil_r|]. by left.
Qed.

(** ** _CompiledSubprocess.run *)

Lemma answered_alternating evs : answered evs -> alternating evs.
Proof. induction 1; by constructor. Qed.

Lemma answered_app_alternating evs evs' :
  answered evs -> alternating evs' -> alternating (evs ++ evs').
Proof. induction 1; simpl; [done|]. intros. constructor. auto. Qed.

Lemma deque_pop_None q : deque_pop q = None -> q = [].
Proof.
  unfold deque_pop. destruct (reverse q) as [|x r] eqn:Hr; [|done]. intros _.
  apply (f_equal reverse) in Hr. by rewrite reverse_involutive in Hr.
Qed.

Lemma deque_pop_Some q x rest :
  deque_pop q = Some (x, rest) -> q = rest ++ [x] /\ reverse q = x :: reverse rest.
Proof.
  unfold deque_pop. destruct (reverse q) as [|y r] eqn:Hr; [done|]. intros [= -> <-].
  rewrite reverse_involutive. split; [|done].
  apply (f_equal reverse) in Hr. rewrite reverse_involutive in Hr. rewrite Hr.
  by rewrite reverse_cons.
Qed.

Lemma dump_destroy x m :
  dump_request (Request (Some x) None [] []) m = (m, Ok (destroy x)).
Proof. reflexivity. Qed.

Section flush.
Context `{Functions}.

(** The loop of [run]: the pending ids are popped from the right, one
    destroy message each, every one answered before the next is written;
    when the loop is left normally the queue is empty. *)
Lemma flush_spec self n : forall h sub h' r,
  subprocesses h !! self = Some sub ->
  (length (_evaluator_deletion_queue sub) <= n)%nat ->
  flush n self h = (h', r) ->
  let q := _evaluator_deletion_queue sub in
  exists sub' evs j,
    subprocesses h' !! self = Some sub' /\
    pipe (process_or_new sub') = pipe (process_or_new sub) ++ evs /\
    alternating evs /\
    (j <= length q)%nat /\
    writes evs = destroy <$> take j (reverse q) /\
    match r with
    | Ok _ => j = length q /\ _evaluator_deletion_queue sub' = [] /\ answered evs
    | Raise _ => True
    end.
Proof.
  induction n as [|n IH]; intros h sub h' r Hsub Hlen Hf q.
  - destruct (_evaluator_deletion_queue sub) as [|x q0] eqn:Hq; [|simpl in Hlen; lia].
    simpl in Hf. unfold bind in Hf. rewrite read_subprocess_eq, Hsub, Hq in Hf.
    simpl in Hf. inversion Hf; subst h' r. exists sub, [], 0%nat.
    rewrite Hsub, app_nil_r. subst q. rewrite Hq. repeat split; try done; constructor.
  - simpl in Hf. unfold bind at 1 in Hf. rewrite read_subprocess_eq, Hsub in Hf.
    destruct (deque_pop (_evaluator_deletion_queue sub)) as [[x rest]|] eqn:Hpop.
    + apply deque_pop_Some in Hpop as [Hq Hrev]. fold q in Hq, Hrev.
      unfold bind at 1 in Hf. rewrite (set_queue_eq _ _ _ _ Hsub) in Hf.
      set (h1 := set_subprocesses <[self := with_queue sub rest]> h) in *.
      assert (subprocesses h1 !! self = Some (with_queue sub rest)) as Hsub1
        by (subst h1; simpl; by rewrite lookup_insert_eq).
      apply bind_inv in Hf as [(h2 & v & Hs & Hf)|(e & Hs & ->)].
      * destruct (send_spec _ _ _ _ _ _ _ _ _ _ Hsub1 Hs)
          as (sub2 & evs1 & Hsub2 & Hq2 & Hpipe2 & d & resp & -> & m & Hd).
        rewrite dump_destroy in Hd. inversion Hd; subst d. simpl in Hq2.
        assert (length rest <= n)%nat as Hlen'.
        { fold q in Hlen. rewrite Hq, length_app in Hlen. simpl in Hlen. lia. }
        rewrite <- Hq2 in Hlen'.
        destruct (IH _ _ _ _ Hsub2 Hlen' Hf) as (sub' & evs & j & Hsub' & Hpipe & Halt & Hj & Hw & Hr).
        rewrite Hq2 in Hj, Hw, Hr.
        exists sub', (Written (destroy x) :: Received resp :: evs), (S j).
        split; [done|]. split.
        { rewrite Hpipe, Hpipe2. unfold process_or_new. simpl. by rewrite <- app_assoc. }
        split; [by constructor|]. split; [rewrite Hq, length_app; simpl; lia|].
        split; [rewrite Hrev; simpl; by rewrite Hw|].
        destruct r; [|done]. destruct Hr as (-> & Hq' & Hans).
        split; [rewrite Hq, length_app; simpl; lia|]. split; [done|]. by constructor.
      * destruct (send_spec _ _ _ _ _ _ _ _ _ _ Hsub1 Hs)
          as (sub2 & evs1 & Hsub2 & Hq2 & Hpipe2 & Hev).
        assert (pipe (process_or_new sub2) = pipe (process_or_new sub) ++ evs1) as Hpipe
          by (rewrite Hpipe2; done).
        assert (1 <= length q)%nat as Hq1 by (rewrite Hq, length_app; simpl; lia).
        destruct Hev as [->|(d & [m Hd] & Hev)].
        { exists sub2, [], 0%nat. repeat split; try done; try constructor. lia. }
        rewrite dump_destroy in Hd. inversion Hd; subst d.
        destruct Hev as [->|[resp ->]].
        { exists sub2, [Written (destroy x)], 1%nat. rewrite Hrev.
          repeat split; try done; constructor. }
        { exists sub2, [Written (destroy x); Received resp], 1%nat. rewrite Hrev.
          repeat split; try done; repeat constructor. }
    + apply deque_pop_None in Hpop. fold q in Hpop. simpl in Hf.
      inversion Hf; subst h' r. exists sub, [], 0%nat.
      rewrite Hsub, app_nil_r. fold q. rewrite Hpop.
      repeat split; try done; constructor.
Qed.
End flush.

Lemma dump_request_ids data m m' d :
  dump_request data m = (m', Ok d) ->
  req_evaluator_id d = req_evaluator_id data /\ req_function d = req_function data.
Proof.
  unfold dump_request. intros Hl.
  apply bind_inv in Hl as [(m1 & args & _ & Hl)|(e & _ & ?)]; [|done].
  apply bind_inv in Hl as [(m2 & kwargs & _ & Hl)|(e & _ & ?)]; [|done].
  inversion Hl. done.
Qed.

Lemma writes_app evs evs' : writes (evs ++ evs') = writes evs ++ writes evs'.
Proof. unfold writes. apply omap_app. Qed.

Section run.
Context `{Functions}.

(** What [run] writes: destroy messages for the ids popped so far, and
    after all of them, with the queue empty, the request itself. *)
Lemma run_spec self evaluator function args kwargs u sub h h' r :
  subprocesses h !! self = Some sub ->
  run self evaluator function args kwargs u h = (h', r) ->
  let q := _evaluator_deletion_queue sub in
  exists sub' evs,
    subprocesses h' !! self = Some sub' /\
    pipe (process_or_new sub') = pipe (process_or_new sub) ++ evs /\
    alternating evs /\
    ((exists j, (j <= length q)%nat /\ writes evs = destroy <$> take j (reverse q) /\
                exists e, r = Raise e) \/
     (exists d, req_evaluator_id d = Some (id_of evaluator) /\
                req_function d = Some function /\
                writes evs = (destroy <$> reverse q) ++ [d] /\
                _evaluator_deletion_queue sub' = [])).
Proof.
  intros Hsub Hrun q. unfold run, bind at 1 in Hrun.
  rewrite read_subprocess_eq, Hsub in Hrun.
  apply bind_inv in Hrun as [(h1 & [] & Hf & Hrun)|(e & Hf & ->)].
  - destruct (flush_spec _ _ _ _ _ _ Hsub (le_n _) Hf)
      as (sub1 & evs1 & j & Hsub1 & Hpipe1 & Halt1 & Hj & Hw1 & -> & Hq1 & Hans1).
    fold q in Hw1. rewrite <- (length_reverse q), firstn_all in Hw1.
    destruct (callable function); simpl in Hrun.
    + unfold bind at 1 in Hrun. simpl in Hrun.
      destruct (send_spec _ _ _ _ _ _ _ _ _ _ Hsub1 Hrun)
        as (sub2 & evs2 & Hsub2 & Hq2 & Hpipe2 & Hev).
      exists sub2, (evs1 ++ evs2). split; [done|].
      split; [by rewrite Hpipe2, Hpipe1, app_assoc|].
      assert (forall d, (exists m, dump_request
               (Request (Some (id_of evaluator)) (Some function) args kwargs)
               (host_memory h1) = (m, Ok d)) ->
             req_evaluator_id d = Some (id_of evaluator) /\
             req_function d = Some function) as Hids.
      { intros d [m Hd]. by apply dump_request_ids in Hd. }
      assert (_evaluator_deletion_queue sub2 = []) as Hq2' by congruence.
      destruct r as [v|e].
      * destruct Hev as (d & resp & -> & Hd). destruct (Hids d Hd).
        split; [apply answered_app_alternating; [done|repeat constructor]|].
        right. exists d. rewrite writes_app, Hw1. done.
      * destruct Hev as [->|(d & Hd & [->|[resp ->]])].
        -- rewrite app_nil_r. split; [by apply answered_alternating|].
           left. exists (length q). rewrite <- (length_reverse q), firstn_all.
           rewrite length_reverse. eauto.
        -- destruct (Hids d Hd).
           split; [apply answered_app_alternating; [done|constructor]|].
           right. exists d. rewrite writes_app, Hw1. done.
        -- destruct (Hids d Hd).
           split; [apply answered_app_alternating; [done|repeat constructor]|].
           right. exists d. rewrite writes_app, Hw1. done.
    + unfold bind, raise in Hrun. inversion Hrun; subst h' r.
      exists sub1, evs1. split; [done|]. split; [done|].
      split; [by apply answered_alternating|].
      left. exists (length q). rewrite <- (length_reverse q), firstn_all.
      rewrite length_reverse. eauto.
  - destruct (flush_spec _ _ _ _ _ _ Hsub (le_n _) Hf)
      as (sub1 & evs1 & j & Hsub1 & Hpipe1 & Halt1 & Hj & Hw1 & _).
    exists sub1, evs1. split; [done|]. split; [done|]. split; [done|].
    left. exists j. eauto.
Qed.
End run.

(** C1, as the code has it. Whenever [run] writes the caller's request (a
    request that carries a function), every session id that was pending has
    been popped and a destroy-session message written for each before it,
    most recently enqueued first: the order of the messages is the reverse
    of the order in which [delete_evaluator] appended the ids. Nothing but
    these messages precedes the request, and the queue is then empty. A call
    that returns has written its request. *)
Theorem run_flushes_queue_before_request `{Functions}
  self evaluator function args kwargs u sub h h' r :
  subprocesses h !! self = Some sub ->
  run self evaluator function args kwargs u h = (h', r) ->
  let q := _evaluator_deletion_queue sub in
  exists sub' evs,
    subprocesses h' !! self = Some sub' /\
    pipe (process_or_new sub') = pipe (process_or_new sub) ++ evs /\
    (forall d, d ∈ writes evs -> req_function d <> None ->
       req_evaluator_id d = Some (id_of evaluator) /\
       req_function d = Some function /\
       writes evs = (destroy <$> reverse q) ++ [d] /\
       _evaluator_deletion_queue sub' = []) /\
    (forall v, r = Ok v -> exists d, d ∈ writes evs /\ req_function d <> None).
Proof.
  intros Hsub Hrun q.
  destruct (run_spec _ _ _ _ _ _ _ _ _ _ Hsub Hrun)
    as (sub' & evs & Hsub' & Hpipe & _ & Hcases).
  exists sub', evs. split; [done|]. split; [done|]. fold q in Hcases.
  assert (forall (l : list Z) d, d ∈ destroy <$> l -> req_function d = None) as Hdestroy.
  { intros l d Hd. apply list_elem_of_fmap in Hd as (x & -> & _). done. }
  destruct Hcases as [(j & Hj & Hw & e & ->)|(d & Hid & Hfn & Hw & Hq)].
  - split; [|done]. intros d Hd Hfn. rewrite Hw in Hd. by apply Hdestroy in Hd.
  - split.
    + intros d0 Hd0 Hfn0. rewrite Hw in Hd0. apply elem_of_app in Hd0 as [Hd0|Hd0].
      * by apply Hdestroy in Hd0.
      * apply list_elem_of_singleton in Hd0 as ->. done.
    + intros v _. exists d. split; [rewrite Hw; set_solver|]. by rewrite Hfn.
Qed.

(** ** The protocol: one request, one response *)

Section protocol.
Context `{Functions}.

(** The worker answers a destroy-session request with one response: the
    session is deleted, or there was none and the [KeyError] comes back. *)
Lemma listen_body_destroy w evaluator_id args kwargs rest :
  stdin w = Pickled (Request (Some evaluator_id) None args kwargs) :: rest ->
  exists w' resp,
    listen_body w = (w', Ok tt) /\
    stdin w' = rest /\
    stdout w' = stdout w ++ [resp] /\
    (resp = (false, VNone) \/
     resp = (true, VExc (PyExc KeyError (IntArg evaluator_id)))).
Proof.
  intros Hin.
  destruct (read_stdin_pickled w _ rest Hin)
    as (w1 & payload & Hr & _ & Hin1 & Hout1 & _ & Hl).
  apply load_request_ids in Hl as [Hid Hfn]. simpl in Hid, Hfn.
  rewrite (listen_body_pickled w _ rest w1 payload Hin Hr).
  unfold respond, bind at 1, try_except_Exception, bind at 1. rewrite Hid, Hfn.
  unfold _run, bind at 1, get.
  destruct (_evaluators (listener w1) !! evaluator_id) eqn:Hev.
  - eexists _, _. split; [reflexivity|]. simpl. rewrite Hin1, Hout1. eauto.
  - eexists _, _. split; [reflexivity|]. simpl. rewrite Hin1, Hout1. eauto.
Qed.

(** Written to a running child that has read all its input, a destroy
    message leaves the child running with one response more to read. *)
Lemma deliver_destroy p evaluator_id :
  stdin (worker p) = [] ->
  exists resp,
    state (deliver (destroy evaluator_id) p) = Running /\
    stdout (worker (deliver (destroy evaluator_id) p)) = stdout (worker p) ++ [resp].
Proof.
  intros Hin. unfold deliver.
  set (w := MkWorker _ _ _ _).
  destruct (listen_body_destroy w evaluator_id [] [] [])
    as (w' & resp & Hb & _ & Hout & _).
  { subst w. simpl. by rewrite Hin. }
  unfold destroy. rewrite Hb. simpl. eauto.
Qed.

Lemma stdin_write_ok self data sub d m1 h :
  subprocesses h !! self = Some sub ->
  dump_request data (host_memory h) = (m1, Ok d) ->
  state (process_or_new sub) = Running ->
  exists h1,
    stdin_write self data h = (h1, Ok tt) /\
    subprocesses h1 !! self = Some (with_process sub (deliver d (process_or_new sub))) /\
    host_memory h1 = m1.
Proof.
  intros Hsub Hd Hst. destruct (get_process_spec _ _ _ Hsub) as (h0 & Hg & Hsub0 & Hm0 & _).
  unfold stdin_write, bind at 1. rewrite Hg.
  unfold bind at 1. rewrite in_host_memory_eq, Hm0, Hd. simpl. rewrite Hst.
  erewrite set_process_eq; [|simpl; exact Hsub0].
  eexists. split; [reflexivity|]. simpl. by rewrite lookup_insert_eq.
Qed.

Lemma call_unpickler_ok u self sub p resp rest m2 v h :
  subprocesses h !! self = Some sub -> _process sub = Some p ->
  stdout (worker p) = resp :: rest ->
  decode u resp.2 (host_memory h) = (m2, Ok v) ->
  exists h2,
    call_unpickler (Some u) self h = (h2, Ok (resp.1, v)) /\
    subprocesses h2 !! self = Some (with_process sub (read_off p resp rest)) /\
    host_memory h2 = m2.
Proof.
  intros Hsub Hp Hout Hd. rewrite call_unpickler_eq. unfold bind at 1.
  rewrite (stdout_read_eq _ _ _ _ Hsub Hp), Hout.
  unfold bind at 1. rewrite in_host_memory_eq. simpl. rewrite Hd. simpl.
  eexists. split; [reflexivity|]. simpl. by rewrite lookup_insert_eq.
Qed.

Lemma decode_exception u e m : decode u (VExc e) m = (m, Ok (VExc e)).
Proof. by destruct u. Qed.

(** What the child does with a request whose dispatch raises. *)
Lemma deliver_Exception p d w1 payload w2 e :
  read_stdin (MkWorker (listener (worker p)) (memory (worker p))
                (stdin (worker p) ++ [Pickled d]) (stdout (worker p))) = (w1, Ok payload) ->
  stdin (worker p) = [] ->
  _run (req_evaluator_id payload) (req_function payload)
       (req_args payload) (req_kwargs payload) w1 = (w2, Raise e) ->
  derives_Exception (exc_type e) = true ->
  deliver d p = MkProcess (write_stdout (true, VExc e) w2) Running (pipe p ++ [Written d]) /\
  stdout w2 = stdout (worker p).
Proof.
  intros Hr Hin Hrun He. unfold deliver.
  set (w := MkWorker _ _ _ _) in *.
  assert (stdin w = Pickled d :: []) as Hinw by (subst w; simpl; by rewrite Hin).
  rewrite (listen_body_pickled w d [] w1 payload Hinw Hr).
  rewrite (respond_Exception _ _ _ _ Hrun He). split; [done|].
  destruct (read_stdin_pickled w d [] Hinw) as (w1' & payload' & Hr' & _ & _ & Hout1 & _).
  rewrite Hr in Hr'. inversion Hr'; subst w1' payload'.
  pose proof (steps_run_streams (req_evaluator_id payload) (req_function payload)
    (req_args payload) (req_kwargs payload) w1) as [_ Hout2].
  rewrite Hrun in Hout2. simpl in Hout2. by rewrite Hout2, Hout1.
Qed.
End protocol.

(** C4. Deletion traffic keeps the cadence of the protocol. The worker
    answers a destroy-session request with exactly one response and goes on;
    a running child that is sent one has exactly one response more to be
    read; and the events the loop of [run] adds to the pipe are destroy
    requests, each followed by the one response read for it before the next
    is written (all of them when the loop is left normally). *)
Theorem deletion_keeps_alternation `{Functions} :
  (forall w evaluator_id args kwargs rest,
     stdin w = Pickled (Request (Some evaluator_id) None args kwargs) :: rest ->
     exists w' resp,
       listen_body w = (w', Ok tt) /\ stdin w' = rest /\ stdout w' = stdout w ++ [resp]) /\
  (forall p evaluator_id,
     stdin (worker p) = [] ->
     exists resp,
       state (deliver (destroy evaluator_id) p) = Running /\
       stdout (worker (deliver (destroy evaluator_id) p)) = stdout (worker p) ++ [resp]) /\
  (forall self sub h h' r,
     subprocesses h !! self = Some sub ->
     flush (length (_evaluator_deletion_queue sub)) self h = (h', r) ->
     exists sub' evs,
       subprocesses h' !! self = Some sub' /\
       pipe (process_or_new sub') = pipe (process_or_new sub) ++ evs /\
       alternating evs /\
       (forall d, d ∈ writes evs -> exists evaluator_id, d = destroy evaluator_id) /\
       (r = Ok tt -> answered evs)).
Proof.
  split; [|split].
  - intros w evaluator_id args kwargs rest Hin.
    destruct (listen_body_destroy w evaluator_id args kwargs rest Hin)
      as (w' & resp & Hb & Hi & Ho & _). eauto.
  - intros p evaluator_id Hin. by apply deliver_destroy.
  - intros self sub h h' r Hsub Hf.
    destruct (flush_spec _ _ _ _ _ _ Hsub (le_n _) Hf)
      as (sub' & evs & j & Hsub' & Hpipe & Halt & Hj & Hw & Hr).
    exists sub', evs. split; [done|]. split; [done|]. split; [done|]. split.
    + intros d Hd. rewrite Hw in Hd. apply list_elem_of_fmap in Hd as (x & -> & _). eauto.
    + intros ->. by destruct Hr as (_ & _ & ?).
Qed.


(** ** _ModifiedUnpickler: one instance per id *)

Lemma lifted_tuple {H1 H2} (Q : H1 -> H2 -> Prop) l l' :
  lifted Q (VTuple l) (VTuple l') <-> Forall2 (lifted Q) l l'.
Proof.
  simpl. revert l'. induction l as [|x l IH]; intros [|x' l']; split; try done.
  - intros H; inversion H.
  - intros H; inversion H.
  - intros [Hx Hl]. constructor; [done|]. by apply IH.
  - intros H. inversion H; subst. split; [done|]. by apply IH.
Qed.

Lemma lifted_mono {H1 H2} (Q Q' : H1 -> H2 -> Prop) w v :
  (forall h h', Q h h' -> Q' h h') -> lifted Q w v -> lifted Q' w v.
Proof.
  intros HQ. revert v. induction w as [| | | |l IH| |] using pyval_rect';
    intros [| | | |l'| |]; try done.
  - rewrite !lifted_tuple. intros Hl. revert IH.
    induction Hl as [|x x' l l' Hx _ IHl]; intros IH; constructor.
    + inversion IH; subst. auto.
    + apply IHl. by inversion IH.
  - simpl. apply HQ.
Qed.

Lemma bindings_lifted reg w v id_ h :
  reconciled reg w v -> (id_, h) ∈ bindings w v -> reg !! id_ = Some h.
Proof.
  unfold reconciled. revert v. induction w as [| | | |l IH| |] using pyval_rect';
    intros [| | | |l'| |]; try (simpl; by intros ? ?%elem_of_nil).
  - rewrite lifted_tuple. intros Hl. simpl. revert IH.
    induction Hl as [|x x' l l' Hx _ IHl]; intros IH; [by intros ?%elem_of_nil|].
    inversion IH; subst. intros Hin. apply elem_of_app in Hin as [Hin|Hin]; eauto.
  - simpl. intros Hreg Hin. apply list_elem_of_singleton in Hin. by inversion Hin; subst.
Qed.

#[global] Instance decoded_on_preorder s : PreOrder (decoded_on s).
Proof.
  split.
  - intros m. split; auto.
  - intros m1 m2 m3 [He1 Hr1 Hn1 Hh1 Hw1] [He2 Hr2 Hn2 Hh2 Hw2]. split; auto.
    + by etrans.
    + lia.
    + intros h Hh. rewrite Hh2; [|lia]. by apply Hh1.
    + intros id_ h Hreg. destruct (Hw2 id_ h Hreg) as [Hreg2|[Hh Hobj]].
      * destruct (Hw1 id_ h Hreg2) as [?|[Hh Hobj]]; [by left|]. right.
        split; [lia|]. rewrite Hh2; [done|lia].
      * right. split; [lia|done].
Qed.

(** One BUILD of the modified unpickler. *)
Lemma modified_load_build_spec s ep id_ m :
  endpoints m !! s = Some ep ->
  exists m' h,
    _ModifiedUnpickler.load_build s id_ m = (m', Ok h) /\
    decoded_on s m m' /\
    registry m' s !! id_ = Some h /\
    match _handles ep !! id_ with
    | Some h0 => h = h0 /\ registry m' s = registry m s
    | None =>
        h = next_ref m /\
        registry m' s = <[id_ := h]> (registry m s) /\
        handles m' !! h = Some (AccessHandle.Make None (Some s) (Some id_))
    end.
Proof.
  intros Hep. unfold _ModifiedUnpickler.load_build, bind at 1.
  unfold load_build, new_handle. simpl.
  set (h := next_ref m).
  set (m1 := set_handles _ _).
  assert (handles m1 !! h = Some (AccessHandle.Make None None (Some id_))) as Hh1
    by (subst m1; simpl; by rewrite lookup_insert_eq).
  assert (endpoints m1 !! s = Some ep) as Hep1 by done.
  unfold _ModifiedUnpickler.get_access_handle, try_except, bind at 1.
  rewrite handle_id_eq, Hh1, get_id_eq. simpl.
  rewrite get_access_handle_eq, Hep1.
  destruct (_handles ep !! id_) as [h0|] eqn:Hreg.
  - exists m1, h0. split; [done|]. unfold registry. rewrite Hep1, Hep. split; [|done].
    split; simpl; [by rewrite Hep| |lia| |].
    + unfold registry. simpl. by rewrite Hep.
    + intros h' Hh'. subst h. rewrite lookup_insert_ne; [done|lia].
    + intros i h'. unfold registry. simpl. rewrite Hep. by left.
  - simpl. unfold bind at 1. unfold handle_add_subprocess, bind at 1.
    rewrite read_handle_eq, Hh1. unfold modify at 1. simpl.
    set (m2 := set_handles _ m1).
    assert (handles m2 !! h = Some (AccessHandle.Make None (Some s) (Some id_))) as Hh2
      by (subst m2; simpl; by rewrite lookup_insert_eq).
    unfold bind at 1. unfold set_access_handle, bind at 1.
    rewrite handle_id_eq, Hh2, get_id_eq. simpl.
    unfold bind at 1. rewrite read_endpoint_eq.
    assert (endpoints m2 !! s = Some ep) as Hep2 by done. rewrite Hep2.
    unfold modify, ret. simpl.
    eexists _, h. split; [reflexivity|]. unfold registry. simpl.
    rewrite lookup_insert_eq, Hep. simpl. split; [|split; [by rewrite lookup_insert_eq|done]].
    split; simpl.
    + by rewrite lookup_insert_eq.
    + unfold registry. simpl. rewrite lookup_insert_eq, Hep. simpl.
      by apply insert_subseteq.
    + lia.
    + intros h' Hh'. subst h. rewrite !lookup_insert_ne; [done|lia|lia].
    + intros i h'. unfold registry. simpl. rewrite lookup_insert_eq, Hep. simpl.
      destruct (decide (i = id_)) as [->|Hne].
      * rewrite lookup_insert_eq. intros [= <-]. right. split; [subst h; lia|done].
      * rewrite lookup_insert_ne; [|done]. by left.
Qed.

(** Decoding a whole value. *)
Lemma modified_load_spec s w : forall m,
  is_Some (endpoints m !! s) ->
  exists m' v,
    _ModifiedUnpickler.load s w m = (m', Ok v) /\
    decoded_on s m m' /\
    reconciled (registry m' s) w v.
Proof.
  unfold _ModifiedUnpickler.load, reconciled.
  induction w as [| | | |l IH|id_|] using pyval_rect'; intros m Hep;
    try (eexists _, _; split; [reflexivity|]; split; [reflexivity|done]).
  - rewrite traverse_tuple.
    assert (exists m' l',
      mapM (traverse (_ModifiedUnpickler.load_build s)) l m = (m', Ok l') /\
      decoded_on s m m' /\
      Forall2 (lifted (fun id_ h => registry m' s !! id_ = Some h)) l l')
      as (m' & l' & Hl & Hd & Hrec).
    { revert m Hep. induction IH as [|x l Hx _ IHl]; intros m Hep.
      - exists m, []. split; [done|]. split; [reflexivity|constructor].
      - destruct (Hx m Hep) as (m1 & x' & Hx1 & Hd1 & Hr1).
        destruct (IHl m1 (do_endpoint _ _ _ Hd1 Hep)) as (m2 & l' & Hl2 & Hd2 & Hr2).
        exists m2, (x' :: l'). simpl. unfold bind at 1. rewrite Hx1.
        unfold bind at 1. rewrite Hl2. split; [done|]. split; [by etrans|].
        constructor; [|done]. eapply lifted_mono; [|exact Hr1].
        intros i h. simpl. intros Hi. eapply lookup_weaken; [exact Hi|]. apply Hd2. }
    exists m', (VTuple l'). unfold bind. rewrite Hl. split; [done|]. split; [done|].
    by apply lifted_tuple.
  - destruct Hep as [ep Hep].
    destruct (modified_load_build_spec s ep id_ m Hep) as (m' & h & Hb & Hd & Hreg & _).
    exists m', (VHandle h). simpl. unfold bind. rewrite Hb. done.
Qed.


(** * Further properties *)

(** ** _EvaluatorProcess: the registry of handles *)

Lemma deref_weakref_eq self m :
  deref_weakref self m =
    (m, match endpoints m !! self with
        | Some ep => Ok (match evaluators m !! _evaluator_weakref ep with
                         | Some _ => Some (_evaluator_weakref ep)
                         | None => None
                         end)
        | None => Raise dangling
        end).
Proof.
  unfold deref_weakref, bind. rewrite read_endpoint_eq.
  destruct (endpoints m !! self); reflexivity.
Qed.

Lemma set_access_handle_eq self handle m ep obj id_ :
  endpoints m !! self = Some ep ->
  handles m !! handle = Some obj ->
  AccessHandle.id obj = Some id_ ->
  set_access_handle self handle m =
    (set_endpoints <[self := EvaluatorProcess (_evaluator_weakref ep) (_evaluator_id ep)
                               (<[id_ := handle]> (_handles ep)) (subclass ep)]> m, Ok tt).
Proof.
  intros Hep Hobj Hid. unfold set_access_handle, bind at 1.
  rewrite handle_id_eq, Hobj, get_id_eq, Hid. unfold bind. rewrite read_endpoint_eq, Hep.
  reflexivity.
Qed.

(** X1. [get_or_create_access_handle] makes at most one handle per object:
    it returns the handle registered for the object's id, and where there
    is none it makes one (bound to this endpoint, with the access object of
    the object and the id set), registers it under the id and returns it.
    No other entry of the registry changes, and a second call with the same
    object returns the same handle and changes nothing. *)
Theorem get_or_create_access_handle_once (self : ref) (obj : Z) (m : Memory)
  (ep : _EvaluatorProcess) :
  endpoints m !! self = Some ep ->
  exists m' h,
    get_or_create_access_handle self obj m = (m', Ok h) /\
    registry m' self !! obj = Some h /\
    (forall i, i <> obj -> registry m' self !! i = registry m self !! i) /\
    get_or_create_access_handle self obj m' = (m', Ok h) /\
    match _handles ep !! obj with
    | Some h0 => h = h0 /\ m' = m
    | None =>
        h = next_ref m /\
        handles m' !! h =
          Some (AccessHandle.__init__ self (DirectObjectAccess_new (weakref_id m ep) obj) obj)
    end.
Proof.
  intros Hep. unfold get_or_create_access_handle, try_except.
  rewrite get_access_handle_eq, Hep.
  destruct (_handles ep !! obj) as [h0|] eqn:Hreg.
  - exists m, h0. rewrite get_access_handle_eq, Hep, Hreg. unfold registry. rewrite Hep.
    done.
  - simpl. unfold bind at 1. rewrite deref_weakref_eq, Hep.
    unfold bind at 1. unfold new_handle, bind at 1. simpl.
    set (access := DirectObjectAccess_new _ obj).
    set (m1 := set_handles _ _).
    assert (endpoints m1 !! self = Some ep) as Hep1 by done.
    assert (handles m1 !! next_ref m = Some (AccessHandle.__init__ self access obj)) as Hh1
      by (subst m1; simpl; by rewrite lookup_insert_eq).
    unfold bind at 1. rewrite (set_access_handle_eq _ _ _ _ _ obj Hep1 Hh1); [|done].
    eexists _, _. split; [reflexivity|]. unfold registry.
    rewrite get_access_handle_eq. cbn [endpoints set_endpoints handles set_handles].
    rewrite !lookup_insert_eq. cbn [_handles]. rewrite lookup_insert_eq, Hep.
    split; [done|]. split.
    { intros i Hi. by rewrite lookup_insert_ne. }
    split; [done|]. split; [done|]. subst m1. cbn [handles set_handles].
    rewrite lookup_insert_eq. unfold weakref_id.
    subst access. by destruct (evaluators m !! _evaluator_weakref ep).
Qed.

(** X2. [set_access_handle] followed by [get_access_handle]: a handle that
    carries an id is stored under that id, whatever was stored there
    before, and is what a lookup of the id then returns; the lookups of the
    other ids return or raise what they did, and no handle is changed. *)
Theorem set_access_handle_then_get (self handle : ref) (m : Memory)
  (ep : _EvaluatorProcess) (obj : AccessHandle.t) (id_ : Z) :
  endpoints m !! self = Some ep ->
  handles m !! handle = Some obj ->
  AccessHandle.id obj = Some id_ ->
  exists m',
    set_access_handle self handle m = (m', Ok tt) /\
    get_access_handle self id_ m' = (m', Ok handle) /\
    (forall i, i <> id_ ->
       get_access_handle self i m' = (m', (get_access_handle self i m).2)) /\
    handles m' = handles m.
Proof.
  intros Hep Hobj Hid. rewrite (set_access_handle_eq _ _ _ _ _ _ Hep Hobj Hid).
  eexists. split; [reflexivity|]. split; [|split; [|done]].
  - rewrite get_access_handle_eq. cbn [endpoints set_endpoints].
    rewrite lookup_insert_eq. cbn [_handles]. by rewrite lookup_insert_eq.
  - intros i Hi. rewrite !get_access_handle_eq. cbn [endpoints set_endpoints snd].
    rewrite lookup_insert_eq, Hep. cbn [_handles]. by rewrite lookup_insert_ne.
Qed.

(** X3. The two ways the registry fails. [get_access_handle] of an id that
    is not registered raises [KeyError] with that id; [set_access_handle]
    of a handle whose [id] was never set raises the [AttributeError] of
    [AccessHandle.__getattr__] and stores nothing. Both leave the memory as
    it was. *)
Theorem registry_errors (self : ref) (m : Memory) (ep : _EvaluatorProcess) :
  endpoints m !! self = Some ep ->
  (forall i, _handles ep !! i = None ->
     get_access_handle self i m = (m, Raise (PyExc KeyError (IntArg i)))) /\
  (forall handle obj, handles m !! handle = Some obj -> AccessHandle.id obj = None ->
     set_access_handle self handle m =
       (m, Raise (PyExc AttributeError (StrArg "Something went wrong with unpickling")))).
Proof.
  intros Hep. split.
  - intros i Hi. by rewrite get_access_handle_eq, Hep, Hi.
  - intros handle obj Hobj Hid. unfold set_access_handle, bind.
    by rewrite handle_id_eq, Hobj, get_id_eq, Hid.
Qed.

(** ** Pickling handles: __getstate__ and __setstate__ *)

Lemma mapM_pure {S A B} (f : A -> Py S B) (s : S) l l' :
  Forall2 (fun a b => f a s = (s, Ok b)) l l' -> mapM f l s = (s, Ok l').
Proof.
  induction 1 as [|a b l l' Ha _ IH]; simpl; [done|].
  unfold bind at 1. rewrite Ha. unfold bind. by rewrite IH.
Qed.

Lemma mapM_inv_pure {S A B} (f : A -> Py S B) (Q : A -> B -> Prop) (s : S) l :
  Forall (fun a => forall s' r, f a s = (s', r) ->
                   s' = s /\ forall b, r = Ok b -> Q a b) l ->
  forall s' r, mapM f l s = (s', r) ->
    s' = s /\ forall l', r = Ok l' -> Forall2 Q l l'.
Proof.
  induction 1 as [|a l Ha _ IH]; simpl; intros s' r Hm.
  - inversion Hm; subst. split; [done|]. intros l' [= <-]. constructor.
  - apply bind_inv in Hm as [(s1 & b & Hf & Hm)|(e & Hf & ->)].
    + destruct (Ha _ _ Hf) as [-> Hb].
      apply bind_inv in Hm as [(s2 & l' & Hl & Hm)|(e & Hl & ->)].
      * destruct (IH _ _ Hl) as [-> Hl']. inversion Hm; subst. split; [done|].
        intros ? [= <-]. constructor; auto.
      * destruct (IH _ _ Hl) as [-> _]. done.
    + destruct (Ha _ _ Hf) as [-> _]. done.
Qed.

Lemma pickle_handle_eq h m :
  pickle_handle h m =
    (m, match handles m !! h with
        | Some obj => AccessHandle.get_id obj
        | None => Raise dangling
        end).
Proof.
  unfold pickle_handle, bind. rewrite read_handle_eq. destruct (handles m !! h); reflexivity.
Qed.

Lemma pickle_dumps_lifted m v : forall w,
  lifted (carries_id m) v w -> pickle_dumps v m = (m, Ok w).
Proof.
  unfold pickle_dumps.
  induction v as [| | | |l IH|h|] using pyval_rect'; intros [| | | |l'|i|]; try done;
    try (simpl; by intros ->).
  - rewrite lifted_tuple, traverse_tuple. intros Hl. unfold bind.
    rewrite (mapM_pure _ m l l'); [done|].
    revert IH. induction Hl as [|x x' l l' Hx _ IHl]; intros IH; [constructor|].
    inversion IH; subst. constructor; auto.
  - simpl. intros (obj & Hobj & Hid). unfold bind.
    by rewrite pickle_handle_eq, Hobj, get_id_eq, Hid.
Qed.

Lemma pickle_dumps_inv m v : forall m' r,
  pickle_dumps v m = (m', r) ->
  m' = m /\ forall w, r = Ok w -> lifted (carries_id m) v w.
Proof.
  unfold pickle_dumps.
  induction v as [| | | |l IH|h|] using pyval_rect'; intros m' r Hd;
    try (inversion Hd; subst; split; [done|]; by intros ? [= <-]).
  - rewrite traverse_tuple in Hd.
    apply bind_inv in Hd as [(m1 & l' & Hl & Hd)|(e & Hl & ->)].
    + destruct (mapM_inv_pure _ (lifted (carries_id m)) m l IH _ _ Hl) as [-> Hl'].
      inversion Hd; subst. split; [done|]. intros ? [= <-]. apply lifted_tuple. auto.
    + destruct (mapM_inv_pure _ (lifted (carries_id m)) m l IH _ _ Hl) as [-> _]. done.
  - simpl in Hd. unfold bind in Hd. rewrite pickle_handle_eq in Hd.
    destruct (handles m !! h) as [obj|] eqn:Hobj; [|inversion Hd; by subst].
    rewrite get_id_eq in Hd. destruct (AccessHandle.id obj) as [i|] eqn:Hid.
    + inversion Hd; subst. split; [done|]. intros ? [= <-]. simpl. by exists obj.
    + inversion Hd; by subst.
Qed.

(** X4. Pickling a value reads the memory and never changes it, and it
    succeeds exactly when every handle in the value carries an id: the
    pickled value is then the same value with each handle replaced by its
    id, which is all that [__getstate__] lets through. *)
Theorem pickle_dumps_needs_ids (v : pyobj) (m : Memory) :
  (forall m' r, pickle_dumps v m = (m', r) -> m' = m) /\
  (forall w, pickle_dumps v m = (m, Ok w) <-> lifted (carries_id m) v w).
Proof.
  split.
  - intros m' r Hd. by apply pickle_dumps_inv in Hd as [-> _].
  - intros w. split.
    + intros Hd. apply pickle_dumps_inv in Hd as [_ Hw]. by apply Hw.
    + apply pickle_dumps_lifted.
Qed.

#[global] Instance grown_preorder : PreOrder grown.
Proof.
  split; [by split|]. intros m1 m2 m3 [Hn1 Hh1 He1 Hv1] [Hn2 Hh2 He2 Hv2].
  split; [lia| |congruence|congruence]. intros h Hh. rewrite Hh2; [auto|lia].
Qed.

Lemma loaded_grown m m1 m2 w v : grown m1 m2 -> loaded m m1 w v -> loaded m m2 w v.
Proof.
  intros [Hn Hh _ _]. apply lifted_mono. intros i h [Hlt Hobj]. split; [lia|].
  rewrite Hh; [done|lia].
Qed.

Lemma loaded_from m0 m m' w v :
  (next_ref m0 <= next_ref m)%nat -> loaded m m' w v -> loaded m0 m' w v.
Proof. intros Hn. apply lifted_mono. intros i h [Hlt Hobj]. split; [lia|done]. Qed.

(** What [pickle.loads] builds: new handles only, each with its id set and
    nothing else; the memory it found is left as it was. *)
Lemma pickle_loads_grown w : forall m,
  exists m' v, pickle_loads w m = (m', Ok v) /\ grown m m' /\ loaded m m' w v.
Proof.
  unfold pickle_loads, loaded.
  induction w as [| | | |l IH|id_|] using pyval_rect'; intros m;
    try (eexists _, _; split; [reflexivity|]; split; [reflexivity|done]).
  - rewrite traverse_tuple.
    assert (exists m' l',
      mapM (traverse load_build) l m = (m', Ok l') /\ grown m m' /\
      Forall2 (loaded m m') l l') as (m' & l' & Hl & Hg & Hrec).
    { revert m. induction IH as [|x l Hx _ IHl]; intros m.
      - exists m, []. split; [done|]. split; [reflexivity|constructor].
      - destruct (Hx m) as (m1 & x' & Hx1 & Hg1 & Hr1).
        destruct (IHl m1) as (m2 & l' & Hl2 & Hg2 & Hr2).
        exists m2, (x' :: l'). simpl. unfold bind at 1. rewrite Hx1.
        unfold bind at 1. rewrite Hl2. split; [done|]. split; [by etrans|].
        constructor; [by eapply loaded_grown|].
        eapply Forall2_impl; [exact Hr2|]. intros a b. apply loaded_from, Hg1. }
    exists m', (VTuple l'). unfold bind. rewrite Hl. split; [done|]. split; [done|].
    by apply lifted_tuple.
  - eexists _, _. simpl. unfold bind, load_build, new_handle, bind. simpl.
    split; [reflexivity|]. split.
    { split; simpl; [lia| |done|done]. intros h Hh. rewrite lookup_insert_ne; [done|lia]. }
    simpl. split; [lia|]. by rewrite lookup_insert_eq.
Qed.

Lemma lifted_flip {H1 H2} (Q : H1 -> H2 -> Prop) w v :
  lifted Q w v -> lifted (fun h' h => Q h h') v w.
Proof.
  revert v. induction w as [| | | |l IH| |] using pyval_rect';
    intros [| | | |l'| |]; try done.
  - rewrite !lifted_tuple. intros Hl. revert IH.
    induction Hl as [|x x' l l' Hx _ IHl]; intros IH; constructor.
    + inversion IH; subst. auto.
    + apply IHl. by inversion IH.
Qed.


Lemma registry_sound_decoded s m m' :
  decoded_on s m m' -> registry_sound m s -> registry_sound m' s.
Proof.
  intros Hd Hs i h Hreg. destruct (do_new _ _ _ Hd i h Hreg) as [Hold|[Hlt Hobj]].
  - destruct (Hs i h Hold) as [Hlt (obj & Hobj & Hid)].
    split; [pose proof (do_next _ _ _ Hd); lia|].
    exists obj. split; [|done]. by rewrite (do_handles _ _ _ Hd).
  - split; [lia|]. eexists. split; [exact Hobj|done].
Qed.

(** X6. The same round trip through the modified unpickler. Where every
    handle in the registry of a session is allocated and carries the id it
    is registered for, decoding a response keeps the registry so, and the
    decoded value pickles back to the response: a handle the host got from
    the worker goes back to the worker as the id it came with. *)
Theorem modified_load_then_dumps (s : ref) (w : wire) (m : Memory) :
  is_Some (endpoints m !! s) ->
  registry_sound m s ->
  exists m' v,
    _ModifiedUnpickler.load s w m = (m', Ok v) /\
    registry_sound m' s /\
    pickle_dumps v m' = (m', Ok w).
Proof.
  intros Hep Hs. destruct (modified_load_spec s w m Hep) as (m' & v & Hl & Hd & Hrec).
  pose proof (registry_sound_decoded _ _ _ Hd Hs) as Hs'.
  exists m', v. split; [done|]. split; [done|].
  apply pickle_dumps_lifted, lifted_flip. eapply lifted_mono; [|exact Hrec].
  intros i h Hreg. simpl. by apply Hs'.
Qed.

(** ** AccessHandle.__getattr__ *)

(** X7. The names of a handle that are never forwarded to the worker. A
    name the class defines evaluates to its method; one of the three
    bookkeeping names evaluates to what the instance holds for it, or
    raises [AttributeError] when the instance holds nothing; and whenever
    an access does evaluate to the closure [compiled_method], the closure
    is for the name that was asked and that name is neither a bookkeeping
    name nor defined by the class. *)
Theorem own_names_are_not_forwarded (self : AccessHandle.t) (name : string) :
  (name ∈ AccessHandle.class_dict ->
     AccessHandle.getattr self name = Ok (AccessHandle.AttrMethod name)) /\
  (name ∈ AccessHandle.bookkeeping ->
     AccessHandle.getattr self name =
       match AccessHandle.instance_dict self name with
       | Some v => Ok v
       | None => Raise (PyExc AttributeError (StrArg "Something went wrong with unpickling"))
       end) /\
  (forall name', AccessHandle.getattr self name = Ok (AccessHandle.AttrCompiledMethod name') ->
     name' = name /\ (name ∉ AccessHandle.bookkeeping) /\ (name ∉ AccessHandle.class_dict)).
Proof.
  assert (name ∈ AccessHandle.class_dict ->
          AccessHandle.getattr self name = Ok (AccessHandle.AttrMethod name)) as Hclass.
  { intros Hc. unfold AccessHandle.class_dict in Hc.
    repeat (apply elem_of_cons in Hc as [->|Hc]; [reflexivity|]).
    by apply elem_of_nil in Hc. }
  assert (name ∈ AccessHandle.bookkeeping ->
          AccessHandle.getattr self name =
            match AccessHandle.instance_dict self name with
            | Some v => Ok v
            | None =>
                Raise (PyExc AttributeError (StrArg "Something went wrong with unpickling"))
            end) as Hbook.
  { intros Hb. unfold AccessHandle.bookkeeping in Hb.
    repeat (apply elem_of_cons in Hb as [->|Hb];
            [destruct self as [[a|] [s|] [i|]]; reflexivity|]).
    by apply elem_of_nil in Hb. }
  split; [done|]. split; [done|]. intros name' Hget. split; [|split].
  - unfold AccessHandle.getattr in Hget.
    destruct (AccessHandle.instance_dict self name) as [v|] eqn:Hdict.
    + unfold AccessHandle.instance_dict in Hdict.
      destruct (String.eqb name "access"); [destruct (AccessHandle.access self); simplify_eq|].
      destruct (String.eqb name "_subprocess");
        [destruct (AccessHandle._subprocess self); simplify_eq|].
      destruct (String.eqb name "id"); [destruct (AccessHandle.id self); simplify_eq|].
      done.
    + destruct (bool_decide (name ∈ AccessHandle.class_dict)); [simplify_eq|].
      unfold AccessHandle.__getattr__ in Hget.
      destruct (bool_decide (name ∈ AccessHandle.bookkeeping)); by simplify_eq.
  - intros Hb. rewrite (Hbook Hb) in Hget.
    unfold AccessHandle.instance_dict in Hget.
    destruct (String.eqb name "access"); [destruct (AccessHandle.access self); simplify_eq|].
    destruct (String.eqb name "_subprocess");
      [destruct (AccessHandle._subprocess self); simplify_eq|].
    destruct (String.eqb name "id"); [destruct (AccessHandle.id self); simplify_eq|].
    done.
  - intros Hc. rewrite (Hclass Hc) in Hget. discriminate.
Qed.

(** ** Listener: the sessions of the worker *)

#[global] Instance other_sessions_kept_preorder evaluator_id :
  PreOrder (other_sessions_kept evaluator_id).
Proof.
  split; [done|]. intros w1 w2 w3 H12 H23 other Hne. rewrite H23; auto.
Qed.

Lemma steps_in_memory_sessions evaluator_id {A} (m : Py Memory A) :
  steps (other_sessions_kept evaluator_id) (in_memory m).
Proof. intros w other _. unfold in_memory. by destruct (m (memory w)). Qed.

Lemma steps_run_sessions `{Functions} evaluator_id function args kwargs :
  steps (other_sessions_kept evaluator_id) (_run evaluator_id function args kwargs).
Proof.
  destruct evaluator_id as [evaluator_id|]; [|apply steps_in_memory_sessions].
  unfold _run, _get_evaluator. destruct function as [f|].
  - repeat first
      [ apply steps_in_memory_sessions
      | apply steps_bind; [apply _| |intros ?]
      | apply steps_try_except; [apply _| |]
      | apply steps_get; apply _ | apply steps_ret; apply _
      | apply steps_from_option; apply _ ].
    apply steps_modify. intros w other Hne. simpl.
    rewrite lookup_insert_ne; [done|congruence].
  - apply steps_bind; [apply _|apply steps_get; apply _|]. intros w0.
    destruct (_evaluators (listener w0) !! evaluator_id); [|apply steps_raise; apply _].
    apply steps_bind; [apply _| |intros ?; apply steps_ret; apply _].
    apply steps_modify. intros w other Hne. simpl.
    rewrite lookup_delete_ne; [done|congruence].
Qed.

(** X8. Sessions do not touch one another. Dispatching a request, and the
    whole turn of the loop on it, leaves the entry of [_evaluators] of
    every session id other than the request's own as it was, present or
    absent, whatever the call returns or raises; a request without a
    session id leaves them all. *)
Theorem run_keeps_other_sessions `{Functions} (evaluator_id : option Z) (other : Z) :
  evaluator_id <> Some other ->
  (forall function args kwargs w,
     _evaluators (listener (_run evaluator_id function args kwargs w).1) !! other =
       _evaluators (listener w) !! other) /\
  (forall w data rest,
     stdin w = Pickled data :: rest -> req_evaluator_id data = evaluator_id ->
     _evaluators (listener (listen_body w).1) !! other = _evaluators (listener w) !! other).
Proof.
  intros Hne. split.
  - intros function args kwargs w.
    by apply (steps_run_sessions evaluator_id function args kwargs w).
  - intros w data rest Hin Hid.
    destruct (read_stdin_pickled w data rest Hin) as (w1 & payload & Hr & _ & _ & _ & Hl1 & Hl).
    apply load_request_ids in Hl as [Hid' _].
    rewrite (listen_body_pickled w data rest w1 payload Hin Hr), <- Hl1.
    assert (steps (other_sessions_kept evaluator_id) (respond payload)) as Hs.
    { unfold respond.
      apply steps_bind; [apply _| |intros ?].
      - apply steps_try_except_Exception; [apply _| |intros; apply steps_ret; apply _].
        apply steps_bind; [apply _| |intros; apply steps_ret; apply _].
        rewrite Hid', Hid. apply steps_run_sessions.
      - apply steps_bind; [apply _|apply steps_in_memory_sessions|]. intros ?.
        apply steps_modify. by intros ? ? ?. }
    by apply (Hs w1).
Qed.

(** X9. Destroying a session. A destroy request for a session the worker
    holds removes exactly that entry and returns [None], whatever arguments
    came with it; a second one raises [KeyError] with the session id and
    changes nothing; and the next call for the id starts from a new
    evaluator whose registry is empty. *)
Theorem destroy_session_once `{Functions} (evaluator_id : Z)
  (args : list pyobj) (kwargs : list (string * pyobj)) (w : Worker) :
  is_Some (_evaluators (listener w) !! evaluator_id) ->
  exists w',
    _run (Some evaluator_id) None args kwargs w = (w', Ok VNone) /\
    _evaluators (listener w') = delete evaluator_id (_evaluators (listener w)) /\
    _run (Some evaluator_id) None args kwargs w' =
      (w', Raise (PyExc KeyError (IntArg evaluator_id))) /\
    forall f, exists w'',
      _get_evaluator f evaluator_id w' = (w'', Ok (next_ref (memory w'))) /\
      _evaluators (listener w'') !! evaluator_id = Some (next_ref (memory w')) /\
      evaluators (memory w'') !! next_ref (memory w') =
        Some (MkEvaluator (S (next_ref (memory w')))) /\
      registry (memory w'') (S (next_ref (memory w'))) = ∅.
Proof.
  intros [ev Hev]. eexists. split; [|split; [|split]].
  - unfold _run, bind at 1, get. rewrite Hev. reflexivity.
  - reflexivity.
  - unfold _run, bind at 1, get. cbn [listener set_evaluators_dict _evaluators].
    by rewrite lookup_delete_eq.
  - intros f. rewrite _get_evaluator_eq. cbn [listener set_evaluators_dict _evaluators].
    rewrite lookup_delete_eq. eexists. split; [reflexivity|].
    unfold with_new_session, registry. cbn.
    rewrite !lookup_insert_eq. done.
Qed.

Lemma mapM_exchange_first_handle m evaluator pre x post e :
  Forall (fun v => is_AccessHandle v = false) pre ->
  exchange evaluator x m = (m, Raise e) ->
  mapM (exchange evaluator) (pre ++ x :: post) m = (m, Raise e).
Proof.
  intros Hpre Hx. induction Hpre as [|a pre Ha _ IH]; simpl.
  - unfold bind. by rewrite Hx.
  - unfold bind at 1.
    rewrite (exchange_exchanged m evaluator a a (exchanged_other _ _ _ Ha)).
    unfold bind at 1. by rewrite IH.
Qed.

(** X10. A session that is new to the worker knows no handle. A request
    for a session id the worker does not hold, with a handle among its
    arguments, makes the session and then fails on the first handle:
    [KeyError] with the id of that handle, the target function not called.
    The session stays: the state left is the one with the new session. *)
Theorem new_session_knows_no_handle `{Functions} (evaluator_id : Z) (f : string)
  (pre post : list pyobj) (h : ref) (kwargs : list (string * pyobj)) (w : Worker)
  (obj : AccessHandle.t) (id_ : Z) :
  _evaluators (listener w) !! evaluator_id = None ->
  Forall (fun v => is_AccessHandle v = false) pre ->
  handles (memory w) !! h = Some obj ->
  AccessHandle.id obj = Some id_ ->
  _run (Some evaluator_id) (Some f) (pre ++ VHandle h :: post) kwargs w =
    (with_new_session evaluator_id w, Raise (PyExc KeyError (IntArg id_))) /\
  _evaluators (listener (with_new_session evaluator_id w)) !! evaluator_id =
    Some (next_ref (memory w)).
Proof.
  intros Hnew Hpre Hobj Hid. split; [|simpl; by rewrite lookup_insert_eq].
  unfold _run, bind at 1. rewrite _get_evaluator_eq, Hnew.
  unfold bind at 1, in_memory.
  rewrite (mapM_exchange_first_handle _ _ pre (VHandle h) post (PyExc KeyError (IntArg id_)));
    [reflexivity|done|].
  eapply exchange_unknown_handle.
  - exact Hobj.
  - exact Hid.
  - cbn. by rewrite lookup_insert_eq.
  - cbn. by rewrite lookup_insert_eq.
  - done.
Qed.

Lemma mapM_loads_grown l : forall m,
  exists m' l', mapM pickle_loads l m = (m', Ok l') /\ grown m m' /\
                Forall2 (loaded m m') l l'.
Proof.
  induction l as [|x l IH]; intros m.
  - exists m, []. split; [done|]. split; [reflexivity|constructor].
  - destruct (pickle_loads_grown x m) as (m1 & x' & Hx1 & Hg1 & Hr1).
    destruct (IH m1) as (m2 & l' & Hl2 & Hg2 & Hr2).
    exists m2, (x' :: l'). simpl. unfold bind at 1. rewrite Hx1.
    unfold bind at 1. rewrite Hl2. split; [done|]. split; [by etrans|].
    constructor; [by eapply loaded_grown|].
    eapply Forall2_impl; [exact Hr2|]. intros a b. apply loaded_from, Hg1.
Qed.

Lemma mapM_items_loads_grown d : forall m,
  exists m' d', mapM_items pickle_loads d m = (m', Ok d') /\ grown m m' /\
                Forall2 (fun kw kv => kw.1 = kv.1 /\ loaded m m' kw.2 kv.2) d d'.
Proof.
  unfold mapM_items. induction d as [|[k x] d IH]; intros m.
  - exists m, []. split; [done|]. split; [reflexivity|constructor].
  - destruct (pickle_loads_grown x m) as (m1 & x' & Hx1 & Hg1 & Hr1).
    destruct (IH m1) as (m2 & d' & Hl2 & Hg2 & Hr2).
    exists m2, ((k, x') :: d'). simpl. unfold bind at 1, bind at 1. rewrite Hx1. simpl.
    unfold bind at 1. rewrite Hl2. split; [done|]. split; [by etrans|].
    constructor; [split; [done|by eapply loaded_grown]|].
    eapply Forall2_impl; [exact Hr2|]. intros a b [? ?]. split; [done|].
    eapply loaded_from; [apply Hg1|done].
Qed.

Lemma load_request_grown data m :
  exists m' args kwargs,
    load_request data m =
      (m', Ok (Request (req_evaluator_id data) (req_function data) args kwargs)) /\
    grown m m' /\
    Forall2 (loaded m m') (req_args data) args /\
    Forall2 (fun kw kv => kw.1 = kv.1 /\ loaded m m' kw.2 kv.2) (req_kwargs data) kwargs.
Proof.
  destruct (mapM_loads_grown (req_args data) m) as (m1 & args & Ha & Hg1 & Hr1).
  destruct (mapM_items_loads_grown (req_kwargs data) m1) as (m2 & kwargs & Hk & Hg2 & Hr2).
  exists m2, args, kwargs. unfold load_request, bind at 1. rewrite Ha.
  unfold bind at 1. rewrite Hk. split; [done|]. split; [by etrans|]. split.
  - eapply Forall2_impl; [exact Hr1|]. intros a b. by apply loaded_grown.
  - eapply Forall2_impl; [exact Hr2|]. intros a b [? ?]. split; [done|].
    eapply loaded_from; [apply Hg1|done].
Qed.

Lemma run_exchanged `{Functions} evaluator_id f args kwargs w w1 evaluator args' kwargs' :
  _get_evaluator f evaluator_id w = (w1, Ok evaluator) ->
  Forall2 (exchanged (memory w1) evaluator) args args' ->
  Forall2 (exchanged_item (memory w1) evaluator) kwargs kwargs' ->
  _run (Some evaluator_id) (Some f) args kwargs w =
    in_memory (py_call (Some f) (ArgEvaluator evaluator :: (ArgValue <$> args')) kwargs') w1.
Proof.
  intros Hget Hargs Hkwargs.
  unfold _run. unfold bind at 1. rewrite Hget.
  unfold bind at 1. unfold in_memory at 1. rewrite (mapM_exchanged _ _ _ _ Hargs).
  unfold bind at 1. unfold in_memory at 1. simpl.
  rewrite (mapM_items_exchanged _ _ _ _ Hkwargs). destruct w1; reflexivity.
Qed.

Lemma loaded_exchanged m m' evaluator ev ep w v :
  evaluators m' !! evaluator = Some ev ->
  endpoints m' !! compiled_subprocess ev = Some ep ->
  (forall id_, w = VHandle id_ -> is_Some (_handles ep !! id_)) ->
  loaded m m' w v ->
  exists v', exchanged m' evaluator v v' /\ resolved m' (_handles ep) w v'.
Proof.
  intros Hev Hep Hreg Hl. unfold loaded in Hl.
  destruct (is_AccessHandle w) eqn:Hw.
  - destruct w as [| | | | |id_|]; try done. destruct v as [| | | | |h|]; try done.
    simpl in Hl. destruct Hl as [_ Hobj]. destruct (Hreg id_ eq_refl) as [h0 Hh0].
    exists (VHandle h0). split; [|simpl; eauto].
    eapply exchanged_handle; eauto.
  - exists v. split.
    + apply exchanged_other. destruct w, v; done.
    + assert (resolved m' (_handles ep) w v =
              lifted (fun id_ h => handles m' !! h = Some (unpickled_as id_)) w v) as ->
        by (by destruct w).
      eapply lifted_mono; [|exact Hl]. by intros i h [_ ?].
Qed.

(** X11. A handle sent back resolves to the worker's own. For a request of
    a session the worker holds, in which every argument and keyword
    argument that is a handle has its id in the registry of the session,
    the request decodes and the target function is called with the
    session's evaluator first and, for each such handle, the instance the
    registry holds for its id, not the copy that unpickling made. Anything
    else arrives as unpickled; a handle inside a tuple is not exchanged. *)
Theorem pickled_handle_resolves `{Functions}
  (w : Worker) (data : CallRequest Z) (rest : list frame)
  (evaluator_id : Z) (f : string) (evaluator : ref) (ev : Evaluator) (ep : _EvaluatorProcess) :
  stdin w = Pickled data :: rest ->
  req_evaluator_id data = Some evaluator_id ->
  req_function data = Some f ->
  _evaluators (listener w) !! evaluator_id = Some evaluator ->
  evaluators (memory w) !! evaluator = Some ev ->
  endpoints (memory w) !! compiled_subprocess ev = Some ep ->
  Forall (fun a => forall id_, a = VHandle id_ -> is_Some (_handles ep !! id_))
    (req_args data) ->
  Forall (fun kw => forall id_, kw.2 = VHandle id_ -> is_Some (_handles ep !! id_))
    (req_kwargs data) ->
  exists w1 payload args kwargs,
    read_stdin w = (w1, Ok payload) /\
    Forall2 (resolved (memory w1) (_handles ep)) (req_args data) args /\
    Forall2 (fun kw kv => kw.1 = kv.1 /\ resolved (memory w1) (_handles ep) kw.2 kv.2)
      (req_kwargs data) kwargs /\
    _run (req_evaluator_id payload) (req_function payload)
         (req_args payload) (req_kwargs payload) w1 =
      in_memory (py_call (Some f) (ArgEvaluator evaluator :: (ArgValue <$> args)) kwargs) w1.
Proof.
  intros Hin Hid Hf Hsession Hev Hep Hargs Hkwargs.
  destruct (load_request_grown data (memory w)) as (m' & args0 & kwargs0 & Hl & Hg & Ha & Hk).
  destruct (read_stdin_pickled w data rest Hin) as (w1 & payload & Hr & _ & _ & _ & Hl1 & Hl').
  rewrite Hl in Hl'. inversion Hl' as [[Hm Hp]]. clear Hl'.
  rewrite <- (gr_evaluators _ _ Hg), Hm in Hev.
  rewrite <- (gr_endpoints _ _ Hg), Hm in Hep.
  rewrite Hm in Ha, Hk.
  assert (exists args, Forall2 (exchanged (memory w1) evaluator) args0 args /\
            Forall2 (resolved (memory w1) (_handles ep)) (req_args data) args)
    as (args & Hex & Hres).
  { clear -Ha Hargs Hev Hep. induction Ha as [|a b l l' Hab _ IH].
    - exists []. split; constructor.
    - inversion Hargs as [|? ? Ha' Hl']; subst.
      destruct (loaded_exchanged _ _ _ _ _ _ _ Hev Hep Ha' Hab) as (v' & Hv1 & Hv2).
      destruct (IH Hl') as (args & H1 & H2). exists (v' :: args). split; by constructor. }
  assert (exists kwargs, Forall2 (exchanged_item (memory w1) evaluator) kwargs0 kwargs /\
            Forall2 (fun kw kv => kw.1 = kv.1 /\ resolved (memory w1) (_handles ep) kw.2 kv.2)
              (req_kwargs data) kwargs)
    as (kwargs & Hexk & Hresk).
  { clear -Hk Hkwargs Hev Hep. induction Hk as [|a b l l' [Hkey Hab] _ IH].
    - exists []. split; constructor.
    - inversion Hkwargs as [|? ? Ha' Hl']; subst.
      destruct (loaded_exchanged _ _ _ _ _ _ _ Hev Hep Ha' Hab) as (v' & Hv1 & Hv2).
      destruct (IH Hl') as (kwargs & H1 & H2). exists ((b.1, v') :: kwargs).
      split; constructor; done. }
  exists w1, payload, args, kwargs. split; [done|]. split; [done|]. split; [done|].
  rewrite <- Hp. simpl. rewrite Hid, Hf.
  apply (run_exchanged evaluator_id f args0 kwargs0 w1 w1 evaluator args kwargs); [|done|done].
  rewrite _get_evaluator_eq, Hl1, Hsession. done.
Qed.

(** ** Listener.listen: requests and responses *)

(** X12. When [listen] ends, the worker has written one response for each
    request it answered, in their order, and nothing else: what it read is
    the answered requests and then either nothing more, the input being
    used up and the exit status 1, or the one frame on which the loop
    ended, which got no response. What is left on standard input was never
    looked at. *)
Theorem listen_one_response_per_request `{Functions} (fuel : nat) (w w' : Worker) (e : pyexc) :
  listen fuel w = Some (w', e) ->
  exists requests responses final,
    stdin w = (Pickled <$> requests) ++ final ++ stdin w' /\
    stdout w' = stdout w ++ responses /\
    length responses = length requests /\
    ((final = [] /\ stdin w' = [] /\ e = PyExc SystemExit (IntArg 1)) \/
     exists fr, final = [fr]).
Proof.
  revert w. induction fuel as [|n IH]; intros w Hl; [done|]. simpl in Hl.
  destruct (listen_body w) as [w1 [[]|e1]] eqn:Hb.
  - destruct (listen_body_ok w w1 Hb) as (data & resp & Hin & Hout).
    destruct (IH w1 Hl) as (requests & responses & final & Hin' & Hout' & Hlen & Hfin).
    exists (data :: requests), (resp :: responses), final.
    split; [rewrite Hin, Hin'; done|]. split; [rewrite Hout', Hout, <- app_assoc; done|].
    split; [simpl; lia|done].
  - inversion Hl; subst w1 e1. clear Hl.
    destruct (stdin w) as [|[e0|data] rest] eqn:Hin.
    + rewrite (listen_body_closed w Hin) in Hb. inversion Hb; subst w' e.
      exists [], [], []. rewrite Hin, !app_nil_r. split; [done|]. split; [done|].
      split; [done|]. by left.
    + rewrite (listen_body_malformed w e0 rest Hin) in Hb. inversion Hb; subst w'.
      exists [], [], [Malformed e0]. simpl. rewrite !app_nil_r. split; [done|].
      split; [done|]. split; [done|]. right. eauto.
    + destruct (read_stdin_pickled w data rest Hin) as
        (w1 & payload & Hr & _ & Hin1 & Hout1 & _).
      rewrite (listen_body_pickled w data rest w1 payload Hin Hr) in Hb.
      apply respond_streams in Hb as [Hin' Hout'].
      exists [], [], [Pickled data]. simpl. rewrite !app_nil_r.
      split; [congruence|]. split; [congruence|]. split; [done|]. right. eauto.
Qed.

(** ** _Subprocess: the child *)



(** ** _CompiledSubprocess: the deletion queue *)

Lemma deque_pop_append q x : deque_pop (deque_append q x) = Some (x, q).
Proof.
  unfold deque_pop, deque_append. rewrite reverse_app. simpl.
  by rewrite reverse_involutive.
Qed.

Section flush_queue.
Context `{Functions}.

Lemma flush_queue_spec self n : forall h sub h' r,
  subprocesses h !! self = Some sub ->
  (length (_evaluator_deletion_queue sub) <= n)%nat ->
  flush n self h = (h', r) ->
  let q := _evaluator_deletion_queue sub in
  exists sub' evs k j,
    subprocesses h' !! self = Some sub' /\
    pipe (process_or_new sub') = pipe (process_or_new sub) ++ evs /\
    _evaluator_deletion_queue sub' = take k q /\
    writes evs = destroy <$> take j (reverse q) /\
    ((k + j)%nat = length q \/ ((k + S j)%nat = length q /\ exists e, r = Raise e)) /\
    (r = Ok tt -> k = 0%nat).
Proof.
  induction n as [|n IH]; intros h sub h' r Hsub Hlen Hf q.
  - destruct (_evaluator_deletion_queue sub) as [|x q0] eqn:Hq; [|simpl in Hlen; lia].
    simpl in Hf. unfold bind in Hf. rewrite read_subprocess_eq, Hsub, Hq in Hf.
    simpl in Hf. inversion Hf; subst h' r. exists sub, [], 0%nat, 0%nat.
    rewrite Hsub, app_nil_r. subst q. rewrite Hq. repeat split; try done. by left.
  - simpl in Hf. unfold bind at 1 in Hf. rewrite read_subprocess_eq, Hsub in Hf.
    destruct (deque_pop (_evaluator_deletion_queue sub)) as [[x rest]|] eqn:Hpop.
    + apply deque_pop_Some in Hpop as [Hq Hrev]. fold q in Hq, Hrev.
      unfold bind at 1 in Hf. rewrite (set_queue_eq _ _ _ _ Hsub) in Hf.
      set (h1 := set_subprocesses <[self := with_queue sub rest]> h) in *.
      assert (subprocesses h1 !! self = Some (with_queue sub rest)) as Hsub1
        by (subst h1; simpl; by rewrite lookup_insert_eq).
      assert (length q = S (length rest)) as Hlq by (rewrite Hq, length_app; simpl; lia).
      apply bind_inv in Hf as [(h2 & v & Hs & Hf)|(e & Hs & ->)].
      * destruct (send_spec _ _ _ _ _ _ _ _ _ _ Hsub1 Hs)
          as (sub2 & evs1 & Hsub2 & Hq2 & Hpipe2 & d & resp & -> & m & Hd).
        rewrite dump_destroy in Hd. inversion Hd; subst d. simpl in Hq2.
        assert (length rest <= n)%nat as Hlen' by (fold q in Hlen; lia).
        rewrite <- Hq2 in Hlen'.
        destruct (IH _ _ _ _ Hsub2 Hlen' Hf)
          as (sub' & evs & k & j & Hsub' & Hpipe & Hk & Hw & Hkj & Hr).
        rewrite Hq2 in Hk, Hw, Hkj.
        assert (k <= length rest)%nat as Hkl by (destruct Hkj as [?|[? _]]; lia).
        exists sub', (Written (destroy x) :: Received resp :: evs), k, (S j).
        split; [done|]. split.
        { rewrite Hpipe, Hpipe2. unfold process_or_new. simpl. by rewrite <- app_assoc. }
        split; [rewrite Hk, Hq, take_app_le; done|].
        split; [rewrite Hrev; simpl; by rewrite Hw|].
        split; [|done]. destruct Hkj as [?|[? ?]]; [left|right]; [lia|split; [lia|done]].
      * destruct (send_spec _ _ _ _ _ _ _ _ _ _ Hsub1 Hs)
          as (sub2 & evs1 & Hsub2 & Hq2 & Hpipe2 & Hev).
        assert (pipe (process_or_new sub2) = pipe (process_or_new sub) ++ evs1) as Hpipe
          by (rewrite Hpipe2; done).
        simpl in Hq2.
        assert (_evaluator_deletion_queue sub2 = take (length rest) q) as Hk.
        { rewrite Hq2, Hq, take_app_le, firstn_all; done. }
        destruct Hev as [->|(d & [m Hd] & Hev)].
        { exists sub2, [], (length rest), 0%nat. repeat split; try done.
          right. split; [lia|eauto]. }
        rewrite dump_destroy in Hd. inversion Hd; subst d.
        destruct Hev as [->|[resp ->]].
        { exists sub2, [Written (destroy x)], (length rest), 1%nat. rewrite Hrev.
          repeat split; try done. left. lia. }
        { exists sub2, [Written (destroy x); Received resp], (length rest), 1%nat.
          rewrite Hrev. repeat split; try done. left. lia. }
    + apply deque_pop_None in Hpop. fold q in Hpop. simpl in Hf.
      inversion Hf; subst h' r. exists sub, [], 0%nat, 0%nat.
      rewrite Hsub, app_nil_r. fold q. rewrite Hpop.
      repeat split; try done. by left.
Qed.

(** The worker's answer to a destroy-session message, by whether it holds
    the session. *)
Lemma listen_body_destroy_eq w evaluator_id rest :
  stdin w = Pickled (destroy evaluator_id) :: rest ->
  listen_body w =
    match _evaluators (listener w) !! evaluator_id with
    | Some _ =>
        (write_stdout (false, VNone)
           (set_evaluators_dict (delete evaluator_id) (set_stdin rest w)), Ok tt)
    | None =>
        (write_stdout (true, VExc (PyExc KeyError (IntArg evaluator_id))) (set_stdin rest w),
         Ok tt)
    end.
Proof.
  intros Hin. unfold listen_body, bind at 1, try_except.
  unfold read_stdin, bind at 1, get. rewrite Hin. destruct w as [l m i o]. simpl in *.
  unfold try_except_Exception, bind, _run, get. simpl.
  destruct (_evaluators l !! evaluator_id); reflexivity.
Qed.

Lemma deliver_destroy_unknown p evaluator_id :
  stdin (worker p) = [] ->
  _evaluators (listener (worker p)) !! evaluator_id = None ->
  deliver (destroy evaluator_id) p =
    MkProcess
      (MkWorker (listener (worker p)) (memory (worker p)) []
         (stdout (worker p) ++ [(true, VExc (PyExc KeyError (IntArg evaluator_id)))]))
      Running (pipe p ++ [Written (destroy evaluator_id)]).
Proof.
  intros Hin Hev. unfold deliver.
  rewrite (listen_body_destroy_eq _ evaluator_id []); [|simpl; by rewrite Hin].
  simpl. by rewrite Hev.
Qed.
Lemma flush_step self n h sub x rest :
  subprocesses h !! self = Some sub ->
  deque_pop (_evaluator_deletion_queue sub) = Some (x, rest) ->
  flush (S n) self h =
    match _send self (Some x) None [] [] (Some pickle_load)
            (set_subprocesses <[self := with_queue sub rest]> h) with
    | (h2, Ok _) => flush n self h2
    | (h2, Raise e) => (h2, Raise e)
    end.
Proof.
  intros Hsub Hpop. simpl. unfold bind at 1. rewrite read_subprocess_eq, Hsub, Hpop.
  unfold bind at 1. rewrite (set_queue_eq _ _ _ _ Hsub). reflexivity.
Qed.

(** The bound of [flush] is never what ends the loop: it ends when the
    queue is empty, within as many turns as the queue held ids. *)
Lemma flush_bound self n : forall h sub,
  subprocesses h !! self = Some sub ->
  (length (_evaluator_deletion_queue sub) <= n)%nat ->
  flush n self h = flush (length (_evaluator_deletion_queue sub)) self h.
Proof.
  induction n as [|n IH]; intros h sub Hsub Hlen.
  - by replace (length (_evaluator_deletion_queue sub)) with 0%nat by lia.
  - destruct (deque_pop (_evaluator_deletion_queue sub)) as [[x rest]|] eqn:Hpop.
    + pose proof Hpop as Hpop'. apply deque_pop_Some in Hpop' as [Hq _].
      assert (length (_evaluator_deletion_queue sub) = S (length rest)) as Hlq
        by (rewrite Hq, length_app; simpl; lia).
      rewrite Hlq, !(flush_step _ _ _ _ _ _ Hsub Hpop).
      set (h1 := set_subprocesses _ h).
      assert (subprocesses h1 !! self = Some (with_queue sub rest)) as Hsub1
        by (subst h1; simpl; by rewrite lookup_insert_eq).
      destruct (_send self (Some x) None [] [] (Some pickle_load) h1) as [h2 [v|e]] eqn:Hs;
        [|done].
      destruct (send_spec _ _ _ _ _ _ _ _ _ _ Hsub1 Hs) as (sub2 & evs & Hsub2 & Hq2 & _).
      simpl in Hq2. rewrite <- Hq2. apply IH; [done|]. rewrite Hq2. lia.
    + assert (forall k, flush k self h = (h, Ok tt)) as Hk.
      { intros [|k]; simpl; unfold bind; by rewrite read_subprocess_eq, Hsub, Hpop. }
      by rewrite !Hk.
Qed.
End flush_queue.

(** X15. The loop of [run] takes the ids from the right end of the queue
    and never adds or reorders one: what is left is a prefix of the queue
    as it was, empty when the loop is left normally. An id is taken off
    before its destroy message is written, so every id taken off was
    written, in reverse order of the queue, except that the last one taken
    is lost without a message when its write fails. *)
Theorem flush_drops_what_it_pops `{Functions}
  (self : ref) (sub : _CompiledSubprocess) (h h' : Host) (r : res unit) :
  subprocesses h !! self = Some sub ->
  flush (length (_evaluator_deletion_queue sub)) self h = (h', r) ->
  let q := _evaluator_deletion_queue sub in
  exists sub' evs k j,
    subprocesses h' !! self = Some sub' /\
    pipe (process_or_new sub') = pipe (process_or_new sub) ++ evs /\
    _evaluator_deletion_queue sub' = take k q /\
    writes evs = destroy <$> take j (reverse q) /\
    ((k + j)%nat = length q \/ ((k + S j)%nat = length q /\ exists e, r = Raise e)) /\
    (r = Ok tt -> k = 0%nat).
Proof.
  intros Hsub Hf. exact (flush_queue_spec _ _ _ _ _ _ Hsub (le_n _) Hf).
Qed.

(** X16. A pending id that the worker does not hold fails the next call.
    With such an id last in the queue and the child running and at rest,
    [run] sends the destroy message for it, reads the [KeyError] the worker
    answers with and raises it: the caller's request is not written, the id
    is gone from the queue and the ids before it stay pending. *)
Theorem stale_id_fails_next_run `{Functions}
  (self : ref) (evaluator : option ref) (function : string)
  (args : list pyobj) (kwargs : list (string * pyobj)) (u : option Unpickler)
  (sub : _CompiledSubprocess) (h : Host) (x : Z) (rest : list Z) :
  subprocesses h !! self = Some sub ->
  _evaluator_deletion_queue sub = deque_append rest x ->
  let p := process_or_new sub in
  state p = Running -> stdin (worker p) = [] -> stdout (worker p) = [] ->
  _evaluators (listener (worker p)) !! x = None ->
  exists h' sub',
    run self evaluator function args kwargs u h =
      (h', Raise (PyExc KeyError (IntArg x))) /\
    subprocesses h' !! self = Some sub' /\
    _evaluator_deletion_queue sub' = rest /\
    pipe (process_or_new sub') =
      pipe p ++ [Written (destroy x); Received (true, VExc (PyExc KeyError (IntArg x)))].
Proof.
  intros Hsub Hq p Hst Hin Hout Hev.
  unfold run, bind at 1. rewrite read_subprocess_eq, Hsub, Hq.
  unfold deque_append at 1. rewrite length_app. simpl. rewrite Nat.add_1_r.
  unfold bind at 1. simpl. unfold bind at 1. rewrite read_subprocess_eq, Hsub, Hq.
  rewrite deque_pop_append. unfold bind at 1. rewrite (set_queue_eq _ _ _ _ Hsub).
  set (h1 := set_subprocesses <[self := with_queue sub rest]> h).
  assert (subprocesses h1 !! self = Some (with_queue sub rest)) as Hsub1
    by (subst h1; simpl; by rewrite lookup_insert_eq).
  destruct (stdin_write_ok self (Request (Some x) None [] []) _ _ _ h1 Hsub1
              (dump_destroy x (host_memory h1)) Hst) as (h2 & Hw & Hsub2 & Hm2).
  change (process_or_new (with_queue sub rest)) with p in Hsub2.
  rewrite (deliver_destroy_unknown p x Hin Hev), Hout in Hsub2. simpl in Hsub2.
  destruct (call_unpickler_ok pickle_load self _ _
              (true, VExc (PyExc KeyError (IntArg x))) [] (host_memory h2)
              (VExc (PyExc KeyError (IntArg x))) h2 Hsub2 eq_refl eq_refl)
    as (h3 & Hc & Hsub3 & _); [apply decode_exception|].
  assert (_send self (Some x) None [] [] (Some pickle_load) h1
          = (h3, Raise (PyExc KeyError (IntArg x)))) as Hs.
  { unfold _send, bind at 1. rewrite Hw. unfold bind at 1. by rewrite Hc. }
  unfold bind at 1. rewrite Hs.
  eexists _, _. split; [reflexivity|]. split; [exact Hsub3|]. split; [done|].
  simpl. by rewrite <- app_assoc.
Qed.

(** X17. The assertion of [run] comes after the deletions. Called with
    something that is not callable, [run] has flushed the queue all the
    same: it leaves the state the loop left and raises what the loop
    raised or, the loop done, [AssertionError] with the queue empty. All it
    wrote is destroy messages; no request for the caller was written. *)
Theorem run_asserts_after_flush `{Functions}
  (self : ref) (evaluator : option ref) (function : string)
  (args : list pyobj) (kwargs : list (string * pyobj)) (u : option Unpickler)
  (sub : _CompiledSubprocess) (h : Host) :
  subprocesses h !! self = Some sub ->
  callable function = false ->
  let flushed := flush (length (_evaluator_deletion_queue sub)) self h in
  run self evaluator function args kwargs u h =
    (flushed.1, match flushed.2 with
                | Ok _ => Raise (PyExc AssertionError NoArg)
                | Raise e => Raise e
                end) /\
  (flushed.2 = Ok tt -> queue_of flushed.1 self = []) /\
  (forall d, d ∈ writes (drop (length (pipe_of h self)) (pipe_of flushed.1 self)) ->
     exists evaluator_id, d = destroy evaluator_id).
Proof.
  intros Hsub Hc flushed. split; [|split].
  - unfold run, bind at 1. rewrite read_subprocess_eq, Hsub. unfold bind at 1.
    fold flushed. destruct flushed as [h1 [[]|e]]; [|done]. simpl. by rewrite Hc.
  - intros Hok. destruct flushed as [h1 r1] eqn:Hf. simpl in *. subst r1.
    destruct (flush_spec _ _ _ _ _ _ Hsub (le_n _) Hf)
      as (sub' & evs & j & Hsub' & _ & _ & _ & _ & _ & Hq & _).
    unfold queue_of. by rewrite Hsub'.
  - destruct flushed as [h1 r1] eqn:Hf. simpl.
    destruct (flush_spec _ _ _ _ _ _ Hsub (le_n _) Hf)
      as (sub' & evs & j & Hsub' & Hpipe & _ & _ & Hw & _).
    unfold pipe_of. rewrite Hsub', Hsub, Hpipe, drop_app_length, Hw.
    intros d Hd. apply list_elem_of_fmap in Hd as (x & -> & _). eauto.
Qed.

(** X18. [get_sys_path] goes past the deletion queue: the pending ids stay
    pending, and the one request it writes carries no session id, the
    function [get_sys_path] and no arguments. When it returns, that
    request and the response to it are all that was added to the pipe. *)
Theorem get_sys_path_leaves_queue `{Functions}
  (self : ref) (sub : _CompiledSubprocess) (h h' : Host) (r : res pyobj) :
  subprocesses h !! self = Some sub ->
  get_sys_path self h = (h', r) ->
  exists sub' evs,
    subprocesses h' !! self = Some sub' /\
    _evaluator_deletion_queue sub' = _evaluator_deletion_queue sub /\
    pipe (process_or_new sub') = pipe (process_or_new sub) ++ evs /\
    (forall d, d ∈ writes evs -> d = Request None (Some "get_sys_path") [] []) /\
    (forall v, r = Ok v ->
       exists resp, evs = [Written (Request None (Some "get_sys_path") [] []); Received resp]).
Proof.
  intros Hsub Hg. unfold get_sys_path, _get_function in Hg.
  destruct (has_attribute "get_sys_path").
  - unfold bind at 1 in Hg. simpl in Hg.
    destruct (send_spec _ _ _ _ _ _ _ _ _ _ Hsub Hg)
      as (sub' & evs & Hsub' & Hq & Hpipe & Hev).
    exists sub', evs. split; [done|]. split; [done|]. split; [done|].
    assert (forall d, (exists m, dump_request (Request None (Some "get_sys_path") [] [])
                         (host_memory h) = (m, Ok d)) ->
                      d = Request None (Some "get_sys_path") [] []) as Hd.
    { intros d [m Hd]. by inversion Hd. }
    destruct r as [v|e].
    + destruct Hev as (d & resp & -> & Hsent). apply Hd in Hsent as ->. split.
      * intros d. simpl. by intros ->%list_elem_of_singleton.
      * intros ? _. eauto.
    + split; [|done]. destruct Hev as [->|(d & Hsent & [->|[resp ->]])].
      * by intros d ?%elem_of_nil.
      * apply Hd in Hsent as ->. intros d. simpl. by intros ->%list_elem_of_singleton.
      * apply Hd in Hsent as ->. intros d. simpl. by intros ->%list_elem_of_singleton.
  - inversion Hg; subst h' r. exists sub, []. rewrite app_nil_r.
    split; [done|]. split; [done|]. split; [done|]. split; [|done].
    by intros d ?%elem_of_nil.
Qed.

Lemma alternating_head evs d ds :
  alternating evs -> writes evs = d :: ds -> exists rest, evs = Written d :: rest.
Proof.
  intros Halt Hw. destruct Halt as [|d0|d0 r0 evs Halt]; simpl in Hw; [done| |].
  - inversion Hw; subst. eauto.
  - inversion Hw; subst. eauto.
Qed.

(** X19. [delete_evaluator] sends nothing: the id is appended to the queue
    and the memory and the pipe stay as they were. The id is what the next
    [run] deals with first: whatever that call adds to the pipe starts with
    the destroy message for it. *)
Theorem delete_evaluator_sent_first_by_next_run `{Functions}
  (self : ref) (x : Z) (sub : _CompiledSubprocess) (h : Host) :
  subprocesses h !! self = Some sub ->
  exists h1,
    delete_evaluator self x h = (h1, Ok tt) /\
    subprocesses h1 !! self =
      Some (with_queue sub (deque_append (_evaluator_deletion_queue sub) x)) /\
    host_memory h1 = host_memory h /\
    pipe_of h1 self = pipe_of h self /\
    forall evaluator function args kwargs u h2 r,
      run self evaluator function args kwargs u h1 = (h2, r) ->
      exists evs,
        pipe_of h2 self = pipe_of h self ++ evs /\
        (evs = [] \/ exists rest, evs = Written (destroy x) :: rest).
Proof.
  intros Hsub. unfold delete_evaluator, bind. rewrite read_subprocess_eq, Hsub.
  rewrite (set_queue_eq _ _ _ _ Hsub). eexists. split; [reflexivity|].
  set (h1 := set_subprocesses _ h).
  assert (subprocesses h1 !! self =
            Some (with_queue sub (deque_append (_evaluator_deletion_queue sub) x))) as Hsub1
    by (subst h1; simpl; by rewrite lookup_insert_eq).
  split; [done|]. split; [done|].
  assert (pipe_of h1 self = pipe_of h self) as Hp1.
  { unfold pipe_of. by rewrite Hsub1, Hsub. }
  split; [done|]. intros evaluator function args kwargs u h2 r Hrun.
  destruct (run_spec _ _ _ _ _ _ _ _ _ _ Hsub1 Hrun)
    as (sub' & evs & Hsub' & Hpipe & Halt & Hcases).
  exists evs. split.
  { unfold pipe_of. rewrite Hsub', Hsub, Hpipe. done. }
  simpl in Hcases. unfold deque_append in Hcases. rewrite reverse_app in Hcases.
  simpl in Hcases.
  destruct Hcases as [(j & Hj & Hw & _)|(d & _ & _ & Hw & _)].
  - destruct j as [|j]; simpl in Hw.
    + left. destruct Halt; simpl in Hw; done.
    + right. by apply (alternating_head _ _ _ Halt Hw).
  - right. by apply (alternating_head _ _ _ Halt Hw).
Qed.

(** ** EvaluatorSubprocess and EvaluatorSameProcess: calls by name *)

(** X20. A name that the module [functions] does not have raises
    [AttributeError] when the attribute is looked up, in both kinds of
    session, before anything is done: the session is not marked as used,
    nothing is written to a worker, no function is called. *)
Theorem unknown_function_raises_untouched `{Functions} (name : string) :
  has_attribute name = false ->
  (forall s args kwargs h,
     EvaluatorSubprocess.call s name args kwargs h =
       (h, Raise (PyExc AttributeError (StrArg name)))) /\
  (forall s args kwargs m,
     EvaluatorSameProcess.call s name args kwargs m =
       (m, Raise (PyExc AttributeError (StrArg name)))).
Proof.
  intros Hn. split.
  - intros s args kwargs h.
    unfold EvaluatorSubprocess.call, EvaluatorSubprocess.__getattr__, _get_function, bind.
    by rewrite Hn.
  - intros s args kwargs m. unfold EvaluatorSameProcess.call, _get_function, bind.
    by rewrite Hn.
Qed.

(** X21. The local session does what the worker does. For a session the
    worker holds, a request whose handle arguments are the registry's own
    instances is dispatched to the very call that [EvaluatorSameProcess]
    makes for the same name and arguments on the session's endpoint: the
    function of that name, given the evaluator first. *)
Theorem same_process_call_is_dispatch `{Functions}
  (w : Worker) (evaluator_id : Z) (f : string) (evaluator : ref) (ev : Evaluator)
  (ep : _EvaluatorProcess) (args : list pyobj) (kwargs : list (string * pyobj)) :
  _evaluators (listener w) !! evaluator_id = Some evaluator ->
  evaluators (memory w) !! evaluator = Some ev ->
  endpoints (memory w) !! compiled_subprocess ev = Some ep ->
  _evaluator_weakref ep = evaluator ->
  has_attribute f = true ->
  Forall2 (exchanged (memory w) evaluator) args args ->
  Forall2 (exchanged_item (memory w) evaluator) kwargs kwargs ->
  _run (Some evaluator_id) (Some f) args kwargs w =
    in_memory (EvaluatorSameProcess.call (compiled_subprocess ev) f args kwargs) w.
Proof.
  intros Hsession Hev Hep Hweak Hattr Hargs Hkwargs.
  rewrite (run_exchanged evaluator_id f args kwargs w w evaluator args kwargs);
    [|by rewrite _get_evaluator_eq, Hsession|done|done].
  unfold in_memory. f_equal.
  unfold EvaluatorSameProcess.call, _get_function. rewrite Hattr.
  unfold bind at 1, ret. unfold bind at 1. rewrite deref_weakref_eq, Hep, Hweak, Hev.
  reflexivity.
Qed.

Lemma get_subprocess__eq obj :
  AccessHandle.get_subprocess_ obj =
    match AccessHandle._subprocess obj with
    | Some s => Ok s
    | None => Raise (PyExc AttributeError (StrArg "Something went wrong with unpickling"))
    end.
Proof.
  unfold AccessHandle.get_subprocess_, AccessHandle.getattr, AccessHandle.instance_dict. simpl.
  destruct (AccessHandle._subprocess obj); reflexivity.
Qed.

Lemma with_memory_id h : with_memory (host_memory h) h = h.
Proof. by destruct h. Qed.

(** What a method call on a bound handle with an id comes to. *)
Lemma compiled_method_bound `{Functions} handle obj s id_ name args kwargs h :
  handles (host_memory h) !! handle = Some obj ->
  AccessHandle._subprocess obj = Some s ->
  AccessHandle.id obj = Some id_ ->
  has_attribute "get_compiled_method_return" = true ->
  compiled_method handle name args kwargs h =
    EvaluatorSubprocess.wrapper s "get_compiled_method_return"
      (VInt id_ :: VStr name :: args) kwargs h.
Proof.
  intros Hobj Hs Hid Hattr. unfold compiled_method, bind at 1.
  rewrite in_host_memory_eq, read_handle_eq, Hobj. simpl. rewrite with_memory_id.
  unfold bind at 1, lift_res. rewrite get_subprocess__eq, Hs.
  unfold bind at 1, EvaluatorSubprocess.__getattr__, _get_function. rewrite Hattr.
  unfold ret. unfold bind at 1. by rewrite get_id_eq, Hid.
Qed.

(** X22. A handle that a remote call returns is bound to the session that
    made the call: its [_subprocess] is that session. A method called on
    it is therefore the session's remote call of
    [get_compiled_method_return] with the handle's id and the method's
    name before the arguments. *)
Theorem wrapper_binds_returned_handle `{Functions}
  (self : ref) (func : string) (args : list pyobj) (kwargs : list (string * pyobj))
  (h h' : Host) (hd : ref) :
  EvaluatorSubprocess.wrapper self func args kwargs h = (h', Ok (VHandle hd)) ->
  exists obj,
    handles (host_memory h') !! hd = Some obj /\
    AccessHandle._subprocess obj = Some self /\
    forall id_ name args' kwargs',
      AccessHandle.id obj = Some id_ ->
      has_attribute "get_compiled_method_return" = true ->
      compiled_method hd name args' kwargs' h' =
        EvaluatorSubprocess.wrapper self "get_compiled_method_return"
          (VInt id_ :: VStr name :: args') kwargs' h'.
Proof.
  unfold EvaluatorSubprocess.wrapper. intros Hw.
  apply bind_inv in Hw as [(h1 & [] & _ & Hw)|(e & _ & ?)]; [|done].
  apply bind_inv in Hw as [(h2 & a & _ & Hw)|(e & _ & ?)]; [|done].
  apply bind_inv in Hw as [(h3 & evaluator & _ & Hw)|(e & _ & ?)]; [|done].
  apply bind_inv in Hw as [(h4 & result & _ & Hw)|(e & _ & ?)]; [|done].
  destruct result as [| | | | |hd'|]; try (by inversion Hw).
  apply bind_inv in Hw as [(h5 & [] & Ha & Hw)|(e & _ & ?)]; [|done].
  inversion Hw; subst h5 hd'. clear Hw.
  rewrite in_host_memory_eq in Ha. unfold handle_add_subprocess, bind in Ha.
  rewrite read_handle_eq in Ha.
  destruct (handles (host_memory h4) !! hd) as [obj0|] eqn:Hobj0; [|by inversion Ha].
  simpl in Ha. inversion Ha; subst h'. clear Ha.
  exists (AccessHandle.add_subprocess obj0 self). simpl. rewrite lookup_insert_eq.
  split; [done|]. split; [done|]. intros id_ name args' kwargs' Hid Hattr.
  apply (compiled_method_bound hd (AccessHandle.add_subprocess obj0 self) self id_); try done.
  simpl. by rewrite lookup_insert_eq.
Qed.

(** ** Invariants of the host *)

#[global] Instance keeps_preorder {S} (I : S -> Prop) : PreOrder (keeps I).
Proof.
  split; [intros s Hs; exact Hs|]. intros s1 s2 s3 H12 H23 Hs. apply H23, H12, Hs.
Qed.

#[global] Instance others_kept_preorder self : PreOrder (others_kept self).
Proof.
  split; [done|]. intros h1 h2 h3 H12 H23 r Hr. rewrite H23; auto.
Qed.

(** ** get_subprocess: what the dictionary holds *)

Section cache_sound.
Context `{Functions}.

Lemma cache_sound_quiet X h h' : quiet X h h' -> cache_sound h -> cache_sound h'.
Proof.
  intros [_ Hc Ha] Hs executable r Hr. rewrite Hc in Hr.
  destruct (Hs executable r Hr) as (sub & Hsub & Hargs).
  specialize (Ha r). rewrite Hsub in Ha.
  destruct (subprocesses h' !! r) as [sub'|]; [|done].
  exists sub'. split; [done|]. inversion Ha. congruence.
Qed.

Lemma cache_sound_get_subprocess executable h :
  cache_invariant h -> cache_sound h -> cache_sound (get_subprocess executable h).1.
Proof.
  intros [_ Halloc] Hs. rewrite get_subprocess_eq.
  destruct (_subprocesses h !! executable) as [sub|] eqn:Hc; [done|]. simpl.
  intros e r. simpl. destruct (decide (e = executable)) as [->|Hne].
  - rewrite lookup_insert_eq. intros [= <-]. rewrite lookup_insert_eq. eauto.
  - rewrite lookup_insert_ne; [|done]. intros Hr.
    destruct (Hs e r Hr) as (sub & Hsub & Hargs). exists sub. split; [|done].
    rewrite lookup_insert_ne; [done|]. intros <-.
    specialize (Halloc (next_ref (host_memory h)) ltac:(by rewrite Hsub)). lia.
Qed.

Lemma cache_sound_exec_ops ops h :
  cache_invariant h -> cache_sound h -> cache_sound (exec_ops ops h).
Proof.
  revert h. induction ops as [|op ops IH]; intros h Hinv Hs; simpl; [done|].
  apply IH; [by apply cache_invariant_exec_op|].
  assert ((exists e, op = OpGetSubprocess e) \/ forall e, op <> OpGetSubprocess e)
    as [[e ->]|Hne] by (destruct op; eauto; right; done).
  - by apply cache_sound_get_subprocess.
  - eapply cache_sound_quiet; [|done]. by apply exec_op_quiet.
Qed.
End cache_sound.

(** X23. What the dictionary [_subprocesses] holds, in any state the host
    reaches from its start by the operations of this module: an entry for
    an executable is a wrapper there is, whose launch command is that
    executable, [_MAIN_PATH] and the directory above parso's package, and
    no wrapper is cached for two executables. *)
Theorem cached_wrapper_launch_command `{Functions}
  (ops : list host_op) (executable : string) (r : ref) :
  let h := exec_ops ops empty_host in
  _subprocesses h !! executable = Some r ->
  (exists sub, subprocesses h !! r = Some sub /\
               _args sub = (executable, _MAIN_PATH, parso_root)) /\
  (forall executable', _subprocesses h !! executable' = Some r -> executable' = executable).
Proof.
  intros h Hr.
  assert (cache_sound h) as Hs.
  { apply cache_sound_exec_ops; [apply cache_invariant_empty|].
    intros e r0 Hr0. simpl in Hr0. by rewrite lookup_empty in Hr0. }
  split; [by apply Hs|]. intros e' Hr'.
  destruct (Hs _ _ Hr) as (sub & Hsub & Hargs). destruct (Hs _ _ Hr') as (sub' & Hsub' & Hargs').
  congruence.
Qed.

(** ** The pipe of every worker: request and response in turn *)

Lemma answered_snoc evs d r : answered evs -> answered (evs ++ [Written d; Received r]).
Proof. induction 1; simpl; repeat constructor. done. Qed.

Lemma at_rest_Popen : at_rest Popen.
Proof. split; simpl; try done; constructor. Qed.

Lemma at_rest_process_or_new h self sub :
  protocol_invariant h -> subprocesses h !! self = Some sub -> at_rest (process_or_new sub).
Proof.
  intros Hinv Hsub. unfold process_or_new.
  destruct (_process sub) as [p|] eqn:Hp; [by apply (Hinv self sub p)|apply at_rest_Popen].
Qed.

Lemma others_kept_insert self sub h :
  others_kept self h (set_subprocesses <[self := sub]> h).
Proof. intros r Hr. simpl. by rewrite lookup_insert_ne. Qed.

Lemma steps_in_host_memory_others self {A} (m : Py Memory A) :
  steps (others_kept self) (in_host_memory m).
Proof. intros h r _. rewrite in_host_memory_eq. done. Qed.

Lemma steps_in_host_memory_keeps {A} (m : Py Memory A) :
  steps (keeps protocol_invariant) (in_host_memory m).
Proof. intros h Hinv r sub p. rewrite in_host_memory_eq. apply Hinv. Qed.

#[global] Hint Resolve others_kept_insert steps_in_host_memory_others
  steps_in_host_memory_keeps : steps.

Lemma steps_py_raise_any {S A} (R : relation S) `{!PreOrder R} v : steps R (@py_raise S A v).
Proof. destruct v; apply steps_raise; apply _. Qed.

Section others.
Context `{Functions} (self : ref).

Lemma steps_read_subprocess_any (R : relation Host) `{!PreOrder R} r :
  steps R (read_subprocess r).
Proof. unfold read_subprocess. steps_go. Qed.

Lemma steps_set_process_others p : steps (others_kept self) (set_process self p).
Proof. unfold set_process, read_subprocess. steps_go. Qed.

Lemma steps_get_process_others : steps (others_kept self) (get_process self).
Proof.
  unfold get_process.
  apply steps_bind; [apply _|apply steps_read_subprocess_any; apply _|]. intros sub.
  destruct (_process sub); [apply steps_ret; apply _|].
  apply steps_bind; [apply _|apply steps_set_process_others|]. intros. apply steps_ret; apply _.
Qed.

Lemma steps_send_others evaluator_id function args kwargs u :
  steps (others_kept self) (_send self evaluator_id function args kwargs u).
Proof.
  unfold _send, stdin_write, call_unpickler, stdout_read.
  repeat first
    [ apply steps_get_process_others | apply steps_set_process_others
    | apply steps_in_host_memory_others
    | apply steps_py_raise_any; apply _
    | apply steps_ret; apply _ | apply steps_raise; apply _
    | apply steps_bind; [apply _| |intros ?]
    | match goal with |- steps _ (match ?x with _ => _ end) => destruct x end
    | match goal with |- steps _ (if ?x then _ else _) => destruct x end ].
Qed.
End others.

Section invariant.
Context `{Functions}.

(** What a request does to a child at rest. *)
Lemma write_leaves_answer_or_end d p :
  at_rest p -> state p = Running ->
  let p1 := deliver d p in
  stdin (worker p1) = [] /\ pipe p1 = pipe p ++ [Written d] /\
  ((state p1 = Running /\ exists resp, stdout (worker p1) = [resp]) \/
   (state p1 <> Running /\ stdout (worker p1) = [])).
Proof.
  intros [Hin Hout Halt Hans] Hst p1. subst p1. unfold deliver.
  set (w := MkWorker _ _ _ _).
  assert (stdin w = [Pickled d]) as Hinw by (subst w; simpl; by rewrite Hin).
  assert (stdout w = []) as Houtw by done.
  destruct (listen_body w) as [w' [[]|e]] eqn:Hb; simpl.
  - apply listen_body_ok in Hb as (data & resp & Hin' & Hout').
    rewrite Hinw in Hin'. inversion Hin'. split; [done|]. split; [done|]. left.
    split; [done|]. exists resp. by rewrite Hout', Houtw.
  - destruct (read_stdin_pickled w d [] Hinw) as (w1 & payload & Hr & _ & Hin1 & Hout1 & _).
    rewrite (listen_body_pickled w d [] w1 payload Hinw Hr) in Hb.
    apply respond_streams in Hb as [Hin' Hout'].
    split; [congruence|]. split; [done|]. right. split; [done|congruence].
Qed.

Lemma send_process_spec self evaluator_id function args kwargs u sub h h' r :
  subprocesses h !! self = Some sub ->
  _send self evaluator_id function args kwargs (Some u) h = (h', r) ->
  let p := process_or_new sub in
  exists p',
    subprocesses h' !! self = Some (with_process sub p') /\
    (p' = p \/
     exists d, state p = Running /\
       ((p' = deliver d p /\ stdout (worker (deliver d p)) = []) \/
        exists resp rest,
          stdout (worker (deliver d p)) = resp :: rest /\
          p' = read_off (deliver d p) resp rest)).
Proof.
  intros Hsub Hs p. unfold _send in Hs.
  apply bind_inv in Hs as [(h1 & [] & Hw & Hs)|(e & Hw & ->)].
  - pose proof (stdin_write_spec _ _ _ _ _ _ Hsub Hw) as (d & _ & Hst & Hsub1).
    simpl in Hst, Hsub1. fold p in Hsub1, Hst.
    assert (exists h2 r2, call_unpickler (Some u) self h1 = (h2, r2) /\
              subprocesses h' = subprocesses h2) as (h2 & r2 & Hc & Hsame).
    { destruct (call_unpickler (Some u) self h1) as [h2 [r2|e2]] eqn:Hc.
      - exists h2, (Ok r2). split; [done|]. unfold bind in Hs. rewrite Hc in Hs.
        destruct r2.1; [|by inversion Hs]. unfold py_raise in Hs.
        destruct r2.2; by inversion Hs.
      - exists h2, (Raise e2). split; [done|]. unfold bind in Hs. rewrite Hc in Hs.
        by inversion Hs. }
    rewrite Hsame. clear Hs Hsame.
    rewrite call_unpickler_eq in Hc. unfold bind at 1 in Hc.
    rewrite (stdout_read_eq _ _ _ _ Hsub1 eq_refl) in Hc.
    destruct (stdout (worker (deliver d p))) as [|resp rest] eqn:Hout.
    + inversion Hc; subst h2 r2. exists (deliver d p). split; [done|]. right.
      exists d. split; [done|]. by left.
    + unfold bind at 1 in Hc. rewrite in_host_memory_eq in Hc.
      set (h1' := set_subprocesses _ h1) in *.
      assert (subprocesses h2 = subprocesses h1') as ->.
      { destruct ((decode u resp.2 (host_memory h1')).2); by inversion Hc. }
      exists (read_off (deliver d p) resp rest). subst h1'. simpl. rewrite lookup_insert_eq.
      split; [done|]. right. exists d. split; [done|]. right. eauto.
  - pose proof (stdin_write_spec _ _ _ _ _ _ Hsub Hw) as Hsub1. simpl in Hsub1.
    exists p. split; [done|]. by left.
Qed.

Lemma send_at_rest self evaluator_id function args kwargs u sub h h' r :
  subprocesses h !! self = Some sub ->
  at_rest (process_or_new sub) ->
  _send self evaluator_id function args kwargs (Some u) h = (h', r) ->
  exists p', subprocesses h' !! self = Some (with_process sub p') /\ at_rest p'.
Proof.
  intros Hsub Hrest Hs.
  destruct (send_process_spec _ _ _ _ _ _ _ _ _ _ Hsub Hs) as (p' & Hsub' & Hp').
  exists p'. split; [done|].
  destruct Hp' as [->|(d & Hst & Hp')]; [done|].
  destruct (write_leaves_answer_or_end d _ Hrest Hst) as (Hin & Hpipe & Hcases).
  pose proof (ar_answered _ Hrest Hst) as Hans.
  destruct Hp' as [[-> Hout]|(resp & rest & Hout & ->)].
  - destruct Hcases as [[_ [resp Hresp]]|[Hnot _]]; [congruence|].
    split; [done|done| |done]. rewrite Hpipe.
    apply answered_app_alternating; [done|constructor].
  - destruct Hcases as [[Hrun [resp' Hresp]]|[_ Hnone]]; [|congruence].
    rewrite Hout in Hresp. inversion Hresp; subst resp' rest.
    assert (answered (pipe (read_off (deliver d (process_or_new sub)) resp []))) as Hans'.
    { simpl. rewrite Hpipe, <- app_assoc. simpl. by apply answered_snoc. }
    split; [done|done| |done]. by apply answered_alternating.
Qed.

Lemma steps_send_keeps self evaluator_id function args kwargs u :
  steps (keeps protocol_invariant)
    (_send self evaluator_id function args kwargs (Some u)).
Proof.
  intros h Hinv.
  destruct (_send self evaluator_id function args kwargs (Some u) h) as [h' r] eqn:Hs.
  simpl. intros r' sub' p' Hsub' Hp'.
  destruct (decide (r' = self)) as [->|Hne].
  - destruct (subprocesses h !! self) as [sub|] eqn:Hsub.
    + destruct (send_at_rest _ _ _ _ _ _ _ _ _ _ Hsub
                  (at_rest_process_or_new _ _ _ Hinv Hsub) Hs) as (p1 & Hsub1 & Hrest).
      rewrite Hsub1 in Hsub'. inversion Hsub'; subst sub'. simpl in Hp'. congruence.
    + unfold _send, stdin_write, get_process, bind in Hs.
      rewrite read_subprocess_eq, Hsub in Hs. inversion Hs; subst h'. congruence.
  - pose proof (steps_send_others self evaluator_id function args kwargs (Some u) h r' Hne)
      as Hsame.
    rewrite Hs in Hsame. simpl in Hsame. rewrite Hsame in Hsub'. by apply (Hinv r' sub' p').
Qed.

Lemma steps_set_queue_keeps self q : steps (keeps protocol_invariant) (set_queue self q).
Proof.
  intros h Hinv. unfold set_queue, bind. rewrite read_subprocess_eq.
  destruct (subprocesses h !! self) as [sub|] eqn:Hsub; [|done]. simpl.
  intros r sub' p. simpl. destruct (decide (r = self)) as [->|Hne].
  - rewrite lookup_insert_eq. intros [= <-]. simpl. by apply (Hinv self sub p).
  - rewrite lookup_insert_ne; [|done]. apply Hinv.
Qed.

Lemma steps_flush_keeps n self : steps (keeps protocol_invariant) (flush n self).
Proof.
  induction n as [|n IH]; simpl.
  - apply steps_bind; [apply _|apply steps_read_subprocess_any; apply _|]. intros sub.
    destruct (deque_pop _) as [[? ?]|]; apply steps_ret; apply _.
  - apply steps_bind; [apply _|apply steps_read_subprocess_any; apply _|]. intros sub.
    destruct (deque_pop _) as [[x rest]|]; [|apply steps_ret; apply _].
    apply steps_bind; [apply _|apply steps_set_queue_keeps|]. intros _.
    apply steps_bind; [apply _|apply steps_send_keeps|]. intros _. apply IH.
Qed.

Lemma steps_run_keeps self evaluator function args kwargs u :
  steps (keeps protocol_invariant) (run self evaluator function args kwargs (Some u)).
Proof.
  unfold run.
  apply steps_bind; [apply _|apply steps_read_subprocess_any; apply _|]. intros sub.
  apply steps_bind; [apply _|apply steps_flush_keeps|]. intros _.
  apply steps_bind; [apply _| |intros _; apply steps_send_keeps].
  destruct (callable function); [apply steps_ret|apply steps_raise]; apply _.
Qed.

Lemma steps_wrapper_keeps self func args kwargs :
  steps (keeps protocol_invariant) (EvaluatorSubprocess.wrapper self func args kwargs).
Proof.
  unfold EvaluatorSubprocess.wrapper, EvaluatorSubprocess.set_used,
    EvaluatorSubprocess.read_attrs.
  repeat first
    [ apply steps_in_host_memory_keeps | apply steps_run_keeps
    | apply steps_ret; apply _ | apply steps_raise; apply _
    | apply steps_from_option; apply _
    | apply steps_bind; [apply _| |intros ?]
    | match goal with |- steps _ (match ?x with _ => _ end) => destruct x end ].
Qed.

Lemma steps_end_process_keeps how self :
  steps (keeps protocol_invariant) (end_process how self).
Proof.
  intros h Hinv. unfold end_process, bind at 1.
  destruct (subprocesses h !! self) as [sub|] eqn:Hsub.
  - destruct (get_process_spec _ _ _ Hsub) as (h0 & Hg & Hsub0 & _). rewrite Hg.
    rewrite (set_process_eq _ _ _ _ Hsub0). simpl.
    pose proof (at_rest_process_or_new _ _ _ Hinv Hsub) as [Hin Hout Halt Hans].
    assert (subprocesses h0 = subprocesses h \/
            subprocesses h0 = <[self := with_process sub Popen]> (subprocesses h)) as Hh0.
    { rewrite (get_process_eq _ _ _ Hsub) in Hg. destruct (_process sub); inversion Hg; auto. }
    intros r sub' p. simpl. destruct (decide (r = self)) as [->|Hne].
    + rewrite lookup_insert_eq. intros [= <-]. simpl. intros [= <-].
      split; simpl; try done. intros Hst. apply Hans.
      destruct (state (process_or_new sub)); done.
    + rewrite lookup_insert_ne; [|done]. destruct Hh0 as [->| ->]; [apply Hinv|].
      rewrite lookup_insert_ne; [|done]. apply Hinv.
  - unfold get_process, bind. rewrite read_subprocess_eq, Hsub. done.
Qed.

Lemma exec_op_keeps op h : protocol_invariant h -> protocol_invariant (exec_op op h).
Proof.
  destruct op as [executable|sub|evaluator sub|s name args kwargs|handle name args kwargs
                 |s|sub|sub|sub]; simpl; unfold forget.
  - intros Hinv. rewrite get_subprocess_eq.
    destruct (_subprocesses h !! executable); [done|]. simpl.
    intros r sub p. simpl. destruct (decide (r = next_ref (host_memory h))) as [->|Hne].
    + rewrite lookup_insert_eq. by intros [= <-].
    + rewrite lookup_insert_ne; [|done]. apply Hinv.
  - generalize h. change (steps (keeps protocol_invariant) (new_Evaluator sub)).
    unfold new_Evaluator, EvaluatorSubprocess.__init__.
    repeat first
      [ apply steps_in_host_memory_keeps
      | apply steps_ret; apply _
      | apply steps_bind; [apply _| |intros ?] ].
  - apply steps_in_host_memory_keeps.
  - unfold EvaluatorSubprocess.call, EvaluatorSubprocess.__getattr__, _get_function.
    destruct (has_attribute name).
    + apply (steps_bind (keeps protocol_invariant)); [apply steps_ret; apply _|].
      intros ?. apply steps_wrapper_keeps.
    + done.
  - generalize h. change (steps (keeps protocol_invariant) (compiled_method handle name args kwargs)).
    unfold compiled_method, EvaluatorSubprocess.__getattr__, _get_function.
    repeat first
      [ apply steps_in_host_memory_keeps | apply steps_wrapper_keeps
      | apply steps_ret; apply _ | apply steps_raise; apply _
      | apply steps_lift_res; apply _
      | apply steps_bind; [apply _| |intros ?]
      | match goal with |- steps _ (if ?x then _ else _) => destruct x end ].
  - generalize h. change (steps (keeps protocol_invariant) (EvaluatorSubprocess.__del__ s)).
    unfold EvaluatorSubprocess.__del__, EvaluatorSubprocess.read_attrs, delete_evaluator.
    repeat first
      [ apply steps_in_host_memory_keeps | apply steps_set_queue_keeps
      | apply steps_read_subprocess_any; apply _
      | apply steps_ret; apply _ | apply steps_raise; apply _
      | apply steps_from_option; apply _
      | apply steps_bind; [apply _| |intros ?]
      | match goal with |- steps _ (if ?x then _ else _) => destruct x end ].
  - generalize h. change (steps (keeps protocol_invariant) (get_sys_path sub)).
    unfold get_sys_path, _get_function.
    destruct (has_attribute "get_sys_path").
    + apply steps_bind; [apply _|apply steps_ret; apply _|]. intros ?. apply steps_send_keeps.
    + apply steps_bind; [apply _|apply steps_raise; apply _|]. intros ?. apply steps_send_keeps.
  - apply steps_end_process_keeps.
  - apply steps_end_process_keeps.
Qed.
End invariant.

Lemma protocol_invariant_empty : protocol_invariant empty_host.
Proof. intros r sub p Hs. simpl in Hs. by rewrite lookup_empty in Hs. Qed.

Lemma protocol_invariant_exec_ops `{Functions} ops h :
  protocol_invariant h -> protocol_invariant (exec_ops ops h).
Proof.
  revert h. induction ops as [|op ops IH]; intros h Hinv; simpl; [done|].
  apply IH. by apply exec_op_keeps.
Qed.


(** ** _send: a call from end to end *)

Lemma respond_Ok `{Functions} payload w1 w2 v wv :
  _run (req_evaluator_id payload) (req_function payload)
       (req_args payload) (req_kwargs payload) w1 = (w2, Ok v) ->
  pickle_dumps v (memory w2) = (memory w2, Ok wv) ->
  respond payload w1 = (write_stdout (false, wv) w2, Ok tt).
Proof.
  intros Hrun Hd. unfold respond, bind at 1, try_except_Exception, bind at 1.
  rewrite Hrun. unfold ret. unfold bind at 1, in_memory, dump_response, bind at 1. simpl.
  rewrite Hd. destruct w2; reflexivity.
Qed.

(** X25. A call that succeeds, from end to end. With the child running
    and at rest, a request that pickles is written, the worker decodes and
    dispatches it, and where the target function returns a value that
    pickles, [_send] returns that value as the unpickler decodes it. The
    pipe has seen the request and the one response, flagged as no
    exception, and the child is at rest again in the state the call left. *)
Theorem send_returns_transported_value `{Functions}
  (self : ref) (evaluator_id : option Z) (function : option string)
  (args : list pyobj) (kwargs : list (string * pyobj)) (u : Unpickler)
  (sub : _CompiledSubprocess) (h : Host) (m1 m2 : Memory) (d : CallRequest Z)
  (w1 w2 : Worker) (payload : CallRequest ref) (v v' : pyobj) (wv : wire) :
  subprocesses h !! self = Some sub ->
  let p := process_or_new sub in
  state p = Running -> stdin (worker p) = [] -> stdout (worker p) = [] ->
  dump_request (Request evaluator_id function args kwargs) (host_memory h) = (m1, Ok d) ->
  read_stdin (MkWorker (listener (worker p)) (memory (worker p))
                (stdin (worker p) ++ [Pickled d]) (stdout (worker p))) = (w1, Ok payload) ->
  _run (req_evaluator_id payload) (req_function payload)
       (req_args payload) (req_kwargs payload) w1 = (w2, Ok v) ->
  pickle_dumps v (memory w2) = (memory w2, Ok wv) ->
  decode u wv m1 = (m2, Ok v') ->
  exists h',
    _send self evaluator_id function args kwargs (Some u) h = (h', Ok v') /\
    host_memory h' = m2 /\
    pipe_of h' self = pipe_of h self ++ [Written d; Received (false, wv)] /\
    exists p', subprocesses h' !! self = Some (with_process sub p') /\
               state p' = Running /\ stdin (worker p') = [] /\ stdout (worker p') = [] /\
               listener (worker p') = listener w2 /\ memory (worker p') = memory w2.
Proof.
  intros Hsub p Hst Hin Hout Hd Hr Hrun Hpickle Hdec.
  destruct (stdin_write_ok _ _ _ _ _ _ Hsub Hd Hst) as (h1 & Hw & Hsub1 & Hm1).
  fold p in Hsub1.
  set (w := MkWorker _ _ _ _) in Hr.
  assert (stdin w = Pickled d :: []) as Hinw by (subst w; simpl; by rewrite Hin).
  destruct (read_stdin_pickled w d [] Hinw) as (w1' & payload' & Hr' & _ & Hin1 & Hout1 & _).
  rewrite Hr in Hr'. inversion Hr'; subst w1' payload'. clear Hr'.
  pose proof (steps_run_streams (req_evaluator_id payload) (req_function payload)
    (req_args payload) (req_kwargs payload) w1) as [Hin2 Hout2].
  rewrite Hrun in Hin2, Hout2. simpl in Hin2, Hout2.
  assert (deliver d p = MkProcess (write_stdout (false, wv) w2) Running (pipe p ++ [Written d]))
    as Hdel.
  { unfold deliver. fold w. rewrite (listen_body_pickled w d [] w1 payload Hinw Hr).
    by rewrite (respond_Ok _ _ _ _ _ Hrun Hpickle). }
  rewrite Hdel in Hsub1.
  assert (stdout w2 = []) as Hout2' by (rewrite Hout2, Hout1; subst w; simpl; done).
  destruct (call_unpickler_ok u self _ _ (false, wv) [] m2 v' h1 Hsub1 eq_refl)
    as (h2 & Hc & Hsub2 & Hm2).
  { simpl. by rewrite Hout2'. }
  { simpl. by rewrite Hm1. }
  exists h2. split; [|split; [done|split]].
  - unfold _send, bind at 1. rewrite Hw. unfold bind at 1. rewrite Hc. reflexivity.
  - unfold pipe_of. rewrite Hsub2, Hsub. simpl. fold p. by rewrite <- app_assoc.
  - eexists. split; [exact Hsub2|]. simpl. split; [done|]. split; [congruence|done].
Qed.

(** X26. A worker that dies on a request. With the child running and at
    rest, a request on which the loop of the worker ends (it does not
    unpickle there, or the dispatch raises past [except Exception]) gets no
    response: [_send] raises [EOFError], the child has ended with the
    exception that ended the loop, and every later [_send] raises without
    writing. *)
Theorem dead_worker_raises_EOFError `{Functions}
  (self : ref) (evaluator_id : option Z) (function : option string)
  (args : list pyobj) (kwargs : list (string * pyobj)) (u : Unpickler)
  (sub : _CompiledSubprocess) (h : Host) (m1 : Memory) (d : CallRequest Z)
  (w' : Worker) (e : pyexc) :
  subprocesses h !! self = Some sub ->
  let p := process_or_new sub in
  at_rest p -> state p = Running ->
  dump_request (Request evaluator_id function args kwargs) (host_memory h) = (m1, Ok d) ->
  listen_body (MkWorker (listener (worker p)) (memory (worker p))
                 (stdin (worker p) ++ [Pickled d]) (stdout (worker p))) = (w', Raise e) ->
  exists h',
    _send self evaluator_id function args kwargs (Some u) h =
      (h', Raise (PyExc EOFError NoArg)) /\
    subprocesses h' !! self =
      Some (with_process sub (MkProcess w' (Ended e) (pipe p ++ [Written d]))) /\
    forall evaluator_id' function' args' kwargs' u' h2 r,
      _send self evaluator_id' function' args' kwargs' u' h' = (h2, r) ->
      (exists e', r = Raise e') /\ pipe_of h2 self = pipe_of h self ++ [Written d].
Proof.
  intros Hsub p Hrest Hst Hd Hb.
  destruct (stdin_write_ok _ _ _ _ _ _ Hsub Hd Hst) as (h1 & Hw & Hsub1 & Hm1).
  fold p in Hsub1.
  destruct (write_leaves_answer_or_end d p Hrest Hst) as (_ & _ & Hcases).
  assert (deliver d p = MkProcess w' (Ended e) (pipe p ++ [Written d])) as Hdel
    by (unfold deliver; by rewrite Hb).
  rewrite Hdel in Hsub1, Hcases. simpl in Hcases.
  destruct Hcases as [[? _]|[_ Hout]]; [done|].
  exists h1. split; [|split; [done|]].
  - unfold _send, bind at 1. rewrite Hw. unfold bind at 1.
    rewrite call_unpickler_eq. unfold bind at 1.
    rewrite (stdout_read_eq _ _ _ _ Hsub1 eq_refl). simpl. by rewrite Hout.
  - intros evaluator_id' function' args' kwargs' u' h2 r Hs.
    unfold _send in Hs. apply bind_inv in Hs as [(h3 & [] & Hw' & _)|(e' & Hw' & ->)].
    + pose proof (stdin_write_spec _ _ _ _ _ _ Hsub1 Hw') as (d' & _ & Hrun & _). done.
    + pose proof (stdin_write_spec _ _ _ _ _ _ Hsub1 Hw') as Hsub2. simpl in Hsub2.
      split; [eauto|]. unfold pipe_of. rewrite Hsub2, Hsub. done.
Qed.

(** * The claims at the scenarios *)

Import Catalogue.

Lemma bookkeeping_attribute_unset_raises_witness :
  "_subprocess" ∈ AccessHandle.bookkeeping /\
  AccessHandle.instance_dict Scenario.unpickled "_subprocess" = None /\
  AccessHandle.getattr Scenario.unpickled "_subprocess" =
    Raise (PyExc AttributeError (StrArg "Something went wrong with unpickling")).
Proof.
  assert ("_subprocess" ∈ AccessHandle.bookkeeping) as Hin by (repeat constructor).
  split; [exact Hin|]. split; [reflexivity|].
  exact (bookkeeping_attribute_unset_raises Scenario.unpickled "_subprocess" Hin eq_refl).
Defined.

(** C1 as stated fails: the ids 1 and 3 were enqueued in this order, and
    [run] sends the destroy message for 3 before the one for 1. *)
Lemma run_flushes_newest_first :
  queue_of Scenario.one_pending 0%nat = [1] /\
  queue_of Scenario.two_pending 0%nat = [1; 3] /\
  writes Scenario.new_events =
    [destroy 3; destroy 1; Request (Some 5) (Some "echo") [VInt 1] []] /\
  writes Scenario.new_events <>
    (destroy <$> queue_of Scenario.two_pending 0%nat)
      ++ [Request (Some 5) (Some "echo") [VInt 1] []].
Proof.
  split; [vm_compute; reflexivity|]. split; [vm_compute; reflexivity|].
  split; [vm_compute; reflexivity|]. vm_compute. discriminate.
Qed.

Lemma run_flushes_queue_before_request_witness :
  subprocesses Scenario.two_pending !! 0%nat = Some Scenario.pending_wrapper /\
  _evaluator_deletion_queue Scenario.pending_wrapper = [1; 3] /\
  exists sub' evs,
    subprocesses Scenario.third_call.1 !! 0%nat = Some sub' /\
    pipe (process_or_new sub') = pipe (process_or_new Scenario.pending_wrapper) ++ evs /\
    (forall d, d ∈ writes evs -> req_function d <> None ->
       req_evaluator_id d = Some (id_of (Some 5%nat)) /\
       req_function d = Some "echo" /\
       writes evs =
         (destroy <$> reverse (_evaluator_deletion_queue Scenario.pending_wrapper)) ++ [d] /\
       _evaluator_deletion_queue sub' = []) /\
    (forall v, Scenario.third_call.2 = Ok v ->
       exists d, d ∈ writes evs /\ req_function d <> None).
Proof.
  assert (subprocesses Scenario.two_pending !! 0%nat = Some Scenario.pending_wrapper) as Hsub
    by (vm_compute; reflexivity).
  split; [exact Hsub|]. split; [vm_compute; reflexivity|].
  apply (run_flushes_queue_before_request (H:=Catalogue.functions)
           0%nat (Some 5%nat) "echo" [VInt 1] [] (Some (modified_unpickler 6%nat))
           Scenario.pending_wrapper Scenario.two_pending
           Scenario.third_call.1 Scenario.third_call.2 Hsub).
  unfold Scenario.third_call. apply surjective_pairing.
Defined.





Lemma run_resolves_session_and_handles_witness :
  _run (Some 1) (Some "echo") [VHandle 3%nat] [("k", VHandle 4%nat)] Scenario.handle_back =
    in_memory (call_function "echo" [ArgEvaluator 0%nat; ArgValue (VHandle 2%nat)]
                 [("k", VHandle 2%nat)]) Scenario.handle_back.
Proof.
  destruct (run_resolves_session_and_handles Scenario.handle_back 1 "echo"
              [VHandle 3%nat] [("k", VHandle 4%nat)])
    as (w1 & evaluator & _ & _ & Hold & _ & Hrun).
  destruct (Hold 0%nat) as [-> ->]; [vm_compute; reflexivity|].
  assert (exchanged (memory Scenario.handle_back) 0%nat (VHandle 3%nat) (VHandle 2%nat)) as H3.
  { apply (exchanged_handle _ _ 3%nat (AccessHandle.Make None None (Some 77)) 77
             (MkEvaluator 1%nat) (EvaluatorProcess 0%nat 0 {[77 := 2%nat]} None) 2%nat);
      vm_compute; reflexivity. }
  assert (exchanged (memory Scenario.handle_back) 0%nat (VHandle 4%nat) (VHandle 2%nat)) as H4.
  { apply (exchanged_handle _ _ 4%nat (AccessHandle.Make None None (Some 77)) 77
             (MkEvaluator 1%nat) (EvaluatorProcess 0%nat 0 {[77 := 2%nat]} None) 2%nat);
      vm_compute; reflexivity. }
  destruct (Hrun [VHandle 2%nat] [("k", VHandle 2%nat)]) as [_ Hcall].
  - constructor; [exact H3|constructor].
  - constructor; [split; [reflexivity|exact H4]|constructor].
  - apply Hcall. vm_compute; reflexivity.
Defined.




Lemma deletion_keeps_alternation_witness :
  exists sub' evs,
    subprocesses (flush 2 0%nat Scenario.two_pending).1 !! 0%nat = Some sub' /\
    pipe (process_or_new sub') = pipe (process_or_new Scenario.pending_wrapper) ++ evs /\
    alternating evs /\
    (forall d, d ∈ writes evs -> exists evaluator_id, d = destroy evaluator_id) /\
    ((flush 2 0%nat Scenario.two_pending).2 = Ok tt -> answered evs).
Proof.
  destruct deletion_keeps_alternation as (_ & _ & Hf).
  assert (subprocesses Scenario.two_pending !! 0%nat = Some Scenario.pending_wrapper) as Hsub
    by (vm_compute; reflexivity).
  apply (Hf 0%nat Scenario.pending_wrapper Scenario.two_pending _ _ Hsub).
  change (length (_evaluator_deletion_queue Scenario.pending_wrapper)) with 2%nat.
  apply surjective_pairing.
Defined.

(** * The further properties at the scenarios *)

Lemma get_or_create_access_handle_once_witness :
  endpoints (memory Scenario.with_handle) !! 1%nat = Some Scenario.session_endpoint /\
  exists m' h,
    get_or_create_access_handle 1%nat 78 (memory Scenario.with_handle) = (m', Ok h) /\
    registry m' 1%nat !! 78 = Some h /\
    get_or_create_access_handle 1%nat 78 m' = (m', Ok h).
Proof.
  assert (endpoints (memory Scenario.with_handle) !! 1%nat = Some Scenario.session_endpoint)
    as Hep by (vm_compute; reflexivity).
  split; [exact Hep|].
  destruct (get_or_create_access_handle_once 1%nat 78 _ _ Hep)
    as (m' & h & H1 & H2 & _ & H3 & _).
  exists m', h. split; [exact H1|]. split; [exact H2|exact H3].
Defined.

Lemma set_access_handle_then_get_witness :
  exists m',
    set_access_handle 1%nat 3%nat (memory Scenario.handle_back) = (m', Ok tt) /\
    get_access_handle 1%nat 77 m' = (m', Ok 3%nat).
Proof.
  destruct (set_access_handle_then_get 1%nat 3%nat (memory Scenario.handle_back)
              Scenario.session_endpoint (unpickled_as 77) 77)
    as (m' & H1 & H2 & _); [vm_compute; reflexivity ..|].
  exists m'. split; [exact H1|exact H2].
Defined.

Lemma registry_errors_witness :
  get_access_handle 1%nat 5 (memory Scenario.with_handle) =
    (memory Scenario.with_handle, Raise (PyExc KeyError (IntArg 5))).
Proof.
  destruct (registry_errors 1%nat (memory Scenario.with_handle) Scenario.session_endpoint)
    as [Hget _]; [vm_compute; reflexivity|].
  apply Hget. vm_compute; reflexivity.
Defined.

Lemma modified_load_then_dumps_witness :
  exists m' v,
    _ModifiedUnpickler.load 2%nat Scenario.two_handles.2 (host_memory Scenario.one_pending) =
      (m', Ok v) /\
    pickle_dumps v m' = (m', Ok Scenario.two_handles.2).
Proof.
  destruct (modified_load_then_dumps 2%nat Scenario.two_handles.2
              (host_memory Scenario.one_pending)) as (m' & v & H1 & _ & H2).
  - apply (bool_decide_unpack _); vm_compute; exact I.
  - intros i h Hreg.
    assert (registry (host_memory Scenario.one_pending) 2%nat = {[77 := 7%nat]}) as Hr
      by (vm_compute; reflexivity).
    rewrite Hr in Hreg. apply lookup_singleton_Some in Hreg as [<- <-].
    split; [vm_compute; lia|].
    exists (AccessHandle.Make None (Some 2%nat) (Some 77)). split; vm_compute; reflexivity.
  - exists m', v. split; [exact H1|exact H2].
Defined.

Lemma run_keeps_other_sessions_witness :
  _evaluators (listener (_run (Some 2) (Some "boom") [] [] Scenario.with_handle).1) !! 1 =
    _evaluators (listener Scenario.with_handle) !! 1.
Proof.
  destruct (run_keeps_other_sessions (Some 2) 1) as [Hrun _]; [discriminate|].
  apply Hrun.
Defined.

Lemma destroy_session_once_witness :
  exists w',
    _run (Some 1) None [] [] Scenario.with_handle = (w', Ok VNone) /\
    _run (Some 1) None [] [] w' = (w', Raise (PyExc KeyError (IntArg 1))).
Proof.
  destruct (destroy_session_once 1 [] [] Scenario.with_handle) as (w' & H1 & _ & H2 & _).
  - apply (bool_decide_unpack _); vm_compute; exact I.
  - exists w'. split; [exact H1|exact H2].
Defined.

Lemma new_session_knows_no_handle_witness :
  _run (Some 2) (Some "echo") ([VInt 0] ++ VHandle 3%nat :: []) [] Scenario.handle_back =
    (with_new_session 2 Scenario.handle_back, Raise (PyExc KeyError (IntArg 77))).
Proof.
  destruct (new_session_knows_no_handle 2 "echo" [VInt 0] [] 3%nat [] Scenario.handle_back
              (unpickled_as 77) 77) as [Hrun _].
  - vm_compute; reflexivity.
  - repeat constructor.
  - vm_compute; reflexivity.
  - reflexivity.
  - exact Hrun.
Defined.

Lemma pickled_handle_resolves_witness :
  exists w1 payload args kwargs,
    read_stdin Scenario.handle_sent = (w1, Ok payload) /\
    Forall2 (resolved (memory w1) (_handles Scenario.session_endpoint))
      (req_args Scenario.handle_request) args /\
    Forall2 (fun kw kv => kw.1 = kv.1 /\
               resolved (memory w1) (_handles Scenario.session_endpoint) kw.2 kv.2)
      (req_kwargs Scenario.handle_request) kwargs /\
    _run (req_evaluator_id payload) (req_function payload)
         (req_args payload) (req_kwargs payload) w1 =
      in_memory (py_call (Some "echo") (ArgEvaluator 0%nat :: (ArgValue <$> args)) kwargs) w1.
Proof.
  assert (is_Some (_handles Scenario.session_endpoint !! 77)) as Hreg
    by (apply (bool_decide_unpack _); vm_compute; exact I).
  apply (pickled_handle_resolves (H:=Catalogue.functions) Scenario.handle_sent
           Scenario.handle_request [] 1 "echo" 0%nat (MkEvaluator 1%nat)
           Scenario.session_endpoint); try (vm_compute; reflexivity).
  - repeat constructor; intros i [= <-]; exact Hreg.
  - repeat constructor; intros i [= <-]; exact Hreg.
Defined.

Lemma listen_one_response_per_request_witness :
  exists requests responses final,
    stdin Scenario.failing = (Pickled <$> requests) ++ final ++ stdin Scenario.failing_end.1 /\
    stdout Scenario.failing_end.1 = stdout Scenario.failing ++ responses /\
    length responses = length requests /\
    ((final = [] /\ stdin Scenario.failing_end.1 = [] /\
      Scenario.failing_end.2 = PyExc SystemExit (IntArg 1)) \/
     exists fr, final = [fr]).
Proof.
  apply (listen_one_response_per_request (H:=Catalogue.functions) 3 Scenario.failing).
  vm_compute; reflexivity.
Defined.



Lemma flush_drops_what_it_pops_witness :
  exists sub' evs k j,
    subprocesses Scenario.flushed.1 !! 0%nat = Some sub' /\
    pipe (process_or_new sub') = pipe (process_or_new Scenario.pending_wrapper) ++ evs /\
    _evaluator_deletion_queue sub' =
      take k (_evaluator_deletion_queue Scenario.pending_wrapper) /\
    writes evs =
      destroy <$> take j (reverse (_evaluator_deletion_queue Scenario.pending_wrapper)) /\
    ((k + j)%nat = length (_evaluator_deletion_queue Scenario.pending_wrapper) \/
     ((k + S j)%nat = length (_evaluator_deletion_queue Scenario.pending_wrapper) /\
      exists e, Scenario.flushed.2 = Raise e)) /\
    (Scenario.flushed.2 = Ok tt -> k = 0%nat).
Proof.
  assert (subprocesses Scenario.two_pending !! 0%nat = Some Scenario.pending_wrapper) as Hsub
    by (vm_compute; reflexivity).
  apply (flush_drops_what_it_pops (H:=Catalogue.functions) 0%nat Scenario.pending_wrapper
           Scenario.two_pending Scenario.flushed.1 Scenario.flushed.2 Hsub).
  change (length (_evaluator_deletion_queue Scenario.pending_wrapper)) with 2%nat.
  unfold Scenario.flushed. apply surjective_pairing.
Defined.

Lemma stale_id_fails_next_run_witness :
  exists h' sub',
    run 0%nat (Some 3%nat) "echo" [VInt 1] [] (Some (modified_unpickler 4%nat)) Scenario.stale =
      (h', Raise (PyExc KeyError (IntArg 1))) /\
    subprocesses h' !! 0%nat = Some sub' /\
    _evaluator_deletion_queue sub' = [] /\
    pipe (process_or_new sub') =
      pipe (process_or_new Scenario.stale_wrapper)
        ++ [Written (destroy 1); Received (true, VExc (PyExc KeyError (IntArg 1)))].
Proof.
  apply (stale_id_fails_next_run (H:=Catalogue.functions) 0%nat (Some 3%nat) "echo" [VInt 1] []
           (Some (modified_unpickler 4%nat)) Scenario.stale_wrapper Scenario.stale 1 []);
    vm_compute; reflexivity.
Defined.

Lemma run_asserts_after_flush_witness :
  let flushed :=
    flush (length (_evaluator_deletion_queue Scenario.pending_wrapper)) 0%nat
      Scenario.two_pending in
  run 0%nat (Some 5%nat) "version" [] [] None Scenario.two_pending =
    (flushed.1, match flushed.2 with
                | Ok _ => Raise (PyExc AssertionError NoArg)
                | Raise e => Raise e
                end) /\
  (flushed.2 = Ok tt -> queue_of flushed.1 0%nat = []).
Proof.
  destruct (run_asserts_after_flush 0%nat (Some 5%nat) "version" [] [] None
              Scenario.pending_wrapper Scenario.two_pending) as (H1 & H2 & _);
    [vm_compute; reflexivity ..|].
  split; [exact H1|exact H2].
Defined.

Lemma get_sys_path_leaves_queue_witness :
  exists sub' evs,
    subprocesses Scenario.sys_path_call.1 !! 0%nat = Some sub' /\
    _evaluator_deletion_queue sub' = _evaluator_deletion_queue Scenario.pending_wrapper /\
    pipe (process_or_new sub') = pipe (process_or_new Scenario.pending_wrapper) ++ evs /\
    (forall d, d ∈ writes evs -> d = Request None (Some "get_sys_path") [] []) /\
    (forall v, Scenario.sys_path_call.2 = Ok v ->
       exists resp, evs = [Written (Request None (Some "get_sys_path") [] []); Received resp]).
Proof.
  assert (subprocesses Scenario.two_pending !! 0%nat = Some Scenario.pending_wrapper) as Hsub
    by (vm_compute; reflexivity).
  apply (get_sys_path_leaves_queue (H:=Catalogue.functions) 0%nat Scenario.pending_wrapper
           Scenario.two_pending Scenario.sys_path_call.1 Scenario.sys_path_call.2 Hsub).
  unfold Scenario.sys_path_call. apply surjective_pairing.
Defined.

Lemma delete_evaluator_sent_first_by_next_run_witness :
  exists h1,
    delete_evaluator 0%nat 1 Scenario.started = (h1, Ok tt) /\
    host_memory h1 = host_memory Scenario.started /\
    forall evaluator function args kwargs u h2 r,
      run 0%nat evaluator function args kwargs u h1 = (h2, r) ->
      exists evs,
        pipe_of h2 0%nat = pipe_of Scenario.started 0%nat ++ evs /\
        (evs = [] \/ exists rest, evs = Written (destroy 1) :: rest).
Proof.
  destruct (delete_evaluator_sent_first_by_next_run 0%nat 1 Scenario.started_wrapper
              Scenario.started) as (h1 & H1 & _ & H2 & _ & H3); [vm_compute; reflexivity|].
  exists h1. split; [exact H1|]. split; [exact H2|exact H3].
Defined.

Lemma unknown_function_raises_untouched_witness :
  EvaluatorSubprocess.call 2%nat "nope" [] [] Scenario.started =
    (Scenario.started, Raise (PyExc AttributeError (StrArg "nope"))).
Proof.
  destruct (unknown_function_raises_untouched "nope") as [Hcall _]; [vm_compute; reflexivity|].
  apply Hcall.
Defined.

Lemma wrapper_binds_returned_handle_witness :
  exists obj,
    handles (host_memory Scenario.handle_call.1) !! 7%nat = Some obj /\
    AccessHandle._subprocess obj = Some 2%nat.
Proof.
  destruct (wrapper_binds_returned_handle 2%nat "create_access" [VInt 77] []
              Scenario.started Scenario.handle_call.1 7%nat) as (obj & H1 & H2 & _);
    [vm_compute; reflexivity|].
  exists obj. split; [exact H1|exact H2].
Defined.

Lemma cached_wrapper_launch_command_witness :
  (exists sub,
     subprocesses (exec_ops Scenario.two_executables empty_host) !! 1%nat = Some sub /\
     _args sub = ("python2", _MAIN_PATH, parso_root)) /\
  (forall executable',
     _subprocesses (exec_ops Scenario.two_executables empty_host) !! executable' = Some 1%nat ->
     executable' = "python2").
Proof.
  apply (cached_wrapper_launch_command (H:=Catalogue.functions) Scenario.two_executables
           "python2" 1%nat).
  vm_compute; reflexivity.
Defined.


Lemma same_process_call_is_dispatch_witness :
  _run (Some 1) (Some "echo") [VInt 5; VHandle 2%nat] [] Scenario.with_handle =
    in_memory (EvaluatorSameProcess.call 1%nat "echo" [VInt 5; VHandle 2%nat] [])
      Scenario.with_handle.
Proof.
  apply (same_process_call_is_dispatch (H:=Catalogue.functions) Scenario.with_handle 1 "echo"
           0%nat (MkEvaluator 1%nat) Scenario.session_endpoint); try (vm_compute; reflexivity).
  - constructor; [apply exchanged_other; reflexivity|]. constructor; [|constructor].
    apply (exchanged_handle _ _ 2%nat
             (AccessHandle.Make (Some (DirectObjectAccess_new (Some 0) 77)) (Some 1%nat)
                (Some 77))
             77 (MkEvaluator 1%nat) Scenario.session_endpoint 2%nat);
      vm_compute; reflexivity.
  - constructor.
Defined.

Lemma send_returns_transported_value_witness :
  exists h',
    _send 0%nat (Some 5) (Some "echo") [VInt 1] [] (Some (modified_unpickler 6%nat))
      Scenario.started = (h', Ok (VInt 1)) /\
    host_memory h' = host_memory Scenario.started /\
    pipe_of h' 0%nat =
      pipe_of Scenario.started 0%nat
        ++ [Written Scenario.echo_request; Received (false, VInt 1)].
Proof.
  destruct (send_returns_transported_value 0%nat (Some 5) (Some "echo") [VInt 1] []
              (modified_unpickler 6%nat) Scenario.started_wrapper Scenario.started
              (host_memory Scenario.started) (host_memory Scenario.started)
              Scenario.echo_request Scenario.echo_read.1 Scenario.echo_ran.1
              Scenario.echo_payload (VInt 1) (VInt 1) (VInt 1))
    as (h' & H1 & H2 & H3 & _); try (vm_compute; reflexivity).
  exists h'. split; [exact H1|]. split; [exact H2|exact H3].
Defined.

Lemma dead_worker_raises_EOFError_witness :
  exists h',
    _send 0%nat (Some 5) (Some "quit") [] [] (Some pickle_load) Scenario.started =
      (h', Raise (PyExc EOFError NoArg)) /\
    subprocesses h' !! 0%nat =
      Some (with_process Scenario.started_wrapper
              (MkProcess Scenario.quit_end.1 (Ended (PyExc SystemExit (IntArg 3)))
                 (pipe (process_or_new Scenario.started_wrapper)
                    ++ [Written Scenario.quit_request]))).
Proof.
  destruct (dead_worker_raises_EOFError 0%nat (Some 5) (Some "quit") [] [] pickle_load
              Scenario.started_wrapper Scenario.started (host_memory Scenario.started)
              Scenario.quit_request Scenario.quit_end.1 (PyExc SystemExit (IntArg 3)))
    as (h' & H1 & H2 & _).
  - vm_compute; reflexivity.
  - split; [vm_compute; reflexivity|vm_compute; reflexivity|vm_compute; constructor|].
    intros _. vm_compute. constructor.
  - vm_compute; reflexivity.
  - vm_compute; reflexivity.
  - vm_compute; reflexivity.
  - exists h'. split; [exact H1|exact H2].
Defined.
